(** * A shallow embedding of the notebook's Transformer

    The notebook [PyTorch_TransformerScratch.ipynb] defines six classes:
    [SelfAttention], [TransformerBlock], [Encoder], [DecoderBlock],
    [Decoder] and [Transformer].  Each class becomes a module below with
    a record for the object, [init] for [__init__] and [forward] for
    [forward].

    Conventions of the embedding.
    - Python integers are [Z]; tensor dimensions are [nat].
    - A tensor is its shape together with its element at every
      multi-index (row-major reinterpretation is done through [ravel]
      and [unravel]).  Elements of float tensors are real numbers: the
      development is about the numerical algorithm, rounding is not
      modelled.
    - A raised exception is a value [Err e]; code that can raise returns
      a [result].
    - [__init__] methods allocate parameter tensors; they run in a state
      monad whose state counts the parameter tensors allocated so far.
    - [forward] methods that contain [nn.Dropout] draw from the random
      generator; they run in a state monad whose state is the generator. *)

From Stdlib Require Import String ZArith List Bool Lia.
From Stdlib Require Import QArith Qreals Reals Lra.
From Stdlib Require Import FunctionalExtensionality.
Import ListNotations.

Close Scope Q_scope.
Set Implicit Arguments.

(** ** Exceptions and the state-and-error monad *)

Inductive error : Type :=
| ZeroDivisionError
| AssertionError (msg : string)
| ValueError
| IndexError
| RuntimeError
| OverflowError.

Inductive result (A : Type) : Type :=
| Ok (a : A)
| Err (e : error).

Arguments Ok {A} a.
Arguments Err {A} e.

Definition rbind {A B} (r : result A) (k : A -> result B) : result B :=
  match r with
  | Ok a => k a
  | Err e => Err e
  end.

Definition M (S A : Type) : Type := S -> result A * S.

Definition ret {S A} (a : A) : M S A := fun s => (Ok a, s).

Definition bind {S A B} (m : M S A) (k : A -> M S B) : M S B :=
  fun s =>
    match m s with
    | (Ok a, s') => k a s'
    | (Err e, s') => (Err e, s')
    end.

Definition lift {S A} (r : result A) : M S A := fun s => (r, s).

Declare Scope monad_scope.
Delimit Scope monad_scope with monad.
Notation "x <- m ;; k" := (bind m (fun x => k))
  (at level 61, m at next level, right associativity) : monad_scope.
Notation "x <~ r ;; k" := (rbind r (fun x => k))
  (at level 61, r at next level, right associativity) : monad_scope.
Open Scope monad_scope.

(** [for layer in layers: x = layer(x)] *)
Fixpoint foldM {S A L} (f : L -> A -> M S A) (ls : list L) (a : A) : M S A :=
  match ls with
  | [] => ret a
  | l :: ls' => a' <- f l a ;; foldM f ls' a'
  end.

(** [[make() for _ in range(n)]] *)
Fixpoint replicateM {S A} (n : nat) (make : M S A) : M S (list A) :=
  match n with
  | O => ret []
  | S n' => a <- make ;; rest <- replicateM n' make ;; ret (a :: rest)
  end.

(** ** Python integer primitives *)

(** [a // b]: floor division, [ZeroDivisionError] on a zero divisor.
    [Z.div] rounds towards minus infinity like Python. *)
Definition py_floordiv (a b : Z) : result Z :=
  if (b =? 0)%Z then Err ZeroDivisionError else Ok (a / b)%Z.

(** [assert cond, msg] *)
Definition py_assert (cond : bool) (msg : string) : result unit :=
  if cond then Ok tt else Err (AssertionError msg).

(** ** Tensors *)

Record tensor (A : Type) : Type := mkTensor {
  shape : list nat;
  get : list nat -> A
}.

Definition numel (s : list nat) : nat := fold_right Nat.mul 1 s.

(** Row-major offset of a multi-index, and its inverse. *)
Fixpoint ravel_from (acc : nat) (s idx : list nat) : nat :=
  match s, idx with
  | d :: s', i :: idx' => ravel_from (acc * d + i) s' idx'
  | _, _ => acc
  end.

Definition ravel (s idx : list nat) : nat := ravel_from 0 s idx.

Fixpoint unravel (s : list nat) (off : nat) : list nat :=
  match s with
  | [] => []
  | d :: s' => (off / numel s') mod d :: unravel s' off
  end.

(** All multi-indices of a shape, in row-major order. *)
Fixpoint indices (s : list nat) : list (list nat) :=
  match s with
  | [] => [[]]
  | d :: s' => flat_map (fun i => map (cons i) (indices s')) (seq 0 d)
  end.

Fixpoint set_nth (l : list nat) (k v : nat) : list nat :=
  match l, k with
  | [], _ => []
  | _ :: l', O => v :: l'
  | x :: l', S k' => x :: set_nth l' k' v
  end.

(** [t.shape[k]] *)
Definition shape_at {A} (t : tensor A) (k : nat) : result nat :=
  match nth_error (shape t) k with
  | Some d => Ok d
  | None => Err IndexError
  end.

(** [a, b = t.shape] *)
Definition shape2 {A} (t : tensor A) : result (nat * nat) :=
  match shape t with
  | [a; b] => Ok (a, b)
  | _ => Err ValueError
  end.

(** *** Broadcasting *)

Definition bdim (a b : nat) : option nat :=
  if a =? b then Some a
  else if a =? 1 then Some b
  else if b =? 1 then Some a
  else None.

Fixpoint bshape_rev (r1 r2 : list nat) : option (list nat) :=
  match r1 with
  | [] => Some r2
  | a :: r1' =>
      match r2 with
      | [] => Some r1
      | b :: r2' =>
          match bdim a b, bshape_rev r1' r2' with
          | Some d, Some r => Some (d :: r)
          | _, _ => None
          end
      end
  end.

(** [torch.broadcast_shapes]: shapes are aligned on the right. *)
Definition broadcast_shapes (s1 s2 : list nat) : option (list nat) :=
  option_map (@rev nat) (bshape_rev (rev s1) (rev s2)).

Fixpoint bidx_aligned (s idx : list nat) : list nat :=
  match s, idx with
  | d :: s', i :: idx' => (if d =? 1 then 0 else i) :: bidx_aligned s' idx'
  | _, _ => []
  end.

(** The index into a tensor of shape [s] that an index [idx] of the
    broadcast shape refers to. *)
Definition bidx (s idx : list nat) : list nat :=
  bidx_aligned s (skipn (length idx - length s) idx).

Definition bget {A} (t : tensor A) (idx : list nat) : A :=
  get t (bidx (shape t) idx).

(** *** Views *)

Definition view {A} (t : tensor A) (s : list nat) : tensor A :=
  {| shape := s; get := fun idx => get t (unravel (shape t) (ravel s idx)) |}.

Definition count_infer (dims : list Z) : nat :=
  length (filter (fun d => (d =? -1)%Z) dims).

Definition known_size (dims : list Z) : nat :=
  numel (map Z.to_nat (filter (fun d => negb (d =? -1)%Z) dims)).

(** [t.reshape(d0, d1, ...)].  A negative size other than a single [-1] is
    refused; a single [-1] is inferred when the remaining sizes are not
    zero and divide the number of elements. *)
Definition reshape {A} (t : tensor A) (dims : list Z) : result (tensor A) :=
  if existsb (fun d => (d <? -1)%Z) dims then Err RuntimeError
  else
    match count_infer dims with
    | 0 =>
        let s := map Z.to_nat dims in
        if numel s =? numel (shape t) then Ok (view t s) else Err RuntimeError
    | 1 =>
        let p := known_size dims in
        if p =? 0 then Err RuntimeError
        else if numel (shape t) mod p =? 0 then
          Ok (view t (map (fun d => if (d =? -1)%Z
                                    then numel (shape t) / p
                                    else Z.to_nat d) dims))
        else Err RuntimeError
    | _ => Err RuntimeError
    end.

Fixpoint shape_eqb (s1 s2 : list nat) : bool :=
  match s1, s2 with
  | [], [] => true
  | a :: s1', b :: s2' => (a =? b) && shape_eqb s1' s2'
  | _, _ => false
  end.

(** [t.unsqueeze(k)] for [k <= rank]. *)
Definition unsqueeze {A} (t : tensor A) (k : nat) : result (tensor A) :=
  if k <=? length (shape t) then
    Ok {| shape := firstn k (shape t) ++ 1 :: skipn k (shape t);
          get := fun idx => get t (firstn k idx ++ skipn (S k) idx) |}
  else Err IndexError.

(** [t.expand(s0, s1, ...)]: every existing dimension is kept or, when it is 1,
    enlarged; new dimensions are added in front. *)
Definition expand {A} (t : tensor A) (s : list nat) : result (tensor A) :=
  if length (shape t) <=? length s then
    match broadcast_shapes (shape t) s with
    | Some s' =>
        if shape_eqb s' s
        then Ok {| shape := s; get := fun idx => bget t idx |}
        else Err RuntimeError
    | None => Err RuntimeError
    end
  else Err RuntimeError.

(** ** Float tensor operations *)

Local Open Scope R_scope.

Definition Rsum (n : nat) (f : nat -> R) : R :=
  fold_right Rplus 0 (map f (seq 0 n)).

(** The fill value [float("-1e20")]. *)
Definition sentinel : R := -1e20.

(** [torch.ones(s)] *)
Definition ones (s : list nat) : tensor R :=
  {| shape := s; get := fun _ => 1 |}.

(** [torch.tril(t)] on a matrix: entries above the diagonal become 0. *)
Definition tril (t : tensor R) : result (tensor R) :=
  if (2 <=? length (shape t))%nat then
    Ok {| shape := shape t;
          get := fun idx =>
            let r := length idx in
            if (nth (r - 1) idx 0 <=? nth (r - 2) idx 0)%nat
            then get t idx else 0 |}
  else Err RuntimeError.

(** [torch.arange(0, n)] *)
Definition arange (n : nat) : tensor Z :=
  {| shape := [n]; get := fun idx => Z.of_nat (nth 0 idx 0%nat) |}.

(** [a + b] with broadcasting. *)
Definition tadd (a b : tensor R) : result (tensor R) :=
  match broadcast_shapes (shape a) (shape b) with
  | Some s => Ok {| shape := s; get := fun idx => bget a idx + bget b idx |}
  | None => Err RuntimeError
  end.

(** [t / c] for a Python float [c]. *)
Definition div_scalar (t : tensor R) (c : R) : tensor R :=
  {| shape := shape t; get := fun idx => get t idx / c |}.

(** The range of a signed 64-bit integer, the element type of a tensor
    of token ids. *)
Definition int64 (c : Z) : Prop :=
  (-9223372036854775808 <= c < 9223372036854775808)%Z.

(** A Python int [c] as the scalar an integer tensor is compared with.
    A value of the signed 64-bit range is taken as it is.  A larger
    value below 2^64 is read as an unsigned 64-bit integer and converted
    to the element type of the tensor, which reduces it modulo 2^64.
    Any other value raises [OverflowError]. *)
Definition int64_scalar (c : Z) : result Z :=
  if ((-9223372036854775808 <=? c) && (c <? 9223372036854775808))%Z
  then Ok c
  else if ((9223372036854775808 <=? c) && (c <? 18446744073709551616))%Z
       then Ok (c - 18446744073709551616)%Z
       else Err OverflowError.

(** [t != c] for a tensor of token ids and a Python int [c]. *)
Definition ne_scalar (t : tensor Z) (c : Z) : result (tensor bool) :=
  c <~ int64_scalar c ;;
  Ok {| shape := shape t; get := fun idx => negb (get t idx =? c)%Z |}.

(** A mask is a boolean tensor (the source mask) or a float tensor (the
    target mask). *)
Inductive mask_t : Type :=
| MaskBool (m : tensor bool)
| MaskFloat (m : tensor R).

(** [mask == 0] *)
Definition mask_eq0 (m : mask_t) : tensor bool :=
  match m with
  | MaskBool b => {| shape := shape b; get := fun idx => negb (get b idx) |}
  | MaskFloat f =>
      {| shape := shape f;
         get := fun idx => if Req_dec_T (get f idx) 0 then true else false |}
  end.

(** [t.masked_fill(cond, v)]: [t] and [cond] are broadcast against each
    other; where [cond] holds the entry is [v]. *)
Definition masked_fill (t : tensor R) (cond : tensor bool) (v : R)
  : result (tensor R) :=
  match broadcast_shapes (shape cond) (shape t) with
  | Some s =>
      Ok {| shape := s;
            get := fun idx => if bget cond idx then v else bget t idx |}
  | None => Err RuntimeError
  end.

(** [torch.softmax(t, dim=d)] *)
Definition softmax (t : tensor R) (d : nat) : result (tensor R) :=
  if (d <? length (shape t))%nat then
    Ok {| shape := shape t;
          get := fun idx =>
            exp (get t idx) /
            Rsum (nth d (shape t) 0%nat)
                 (fun j => exp (get t (set_nth idx d j))) |}
  else Err IndexError.

(** Subscript dimensions of an [einsum] must agree or be 1. *)
Definition edim (a b : nat) : result nat :=
  match bdim a b with
  | Some d => Ok d
  | None => Err RuntimeError
  end.

(** [torch.einsum("nqhd,nkhd->nhqk", [a, b])] *)
Definition einsum_nqhd_nkhd_nhqk (a b : tensor R) : result (tensor R) :=
  match shape a, shape b with
  | [n1; q; h1; d1], [n2; k; h2; d2] =>
      n <~ edim n1 n2 ;;
      h <~ edim h1 h2 ;;
      d <~ edim d1 d2 ;;
      Ok {| shape := [n; h; q; k];
            get := fun idx =>
              let n_ := nth 0 idx 0%nat in
              let h_ := nth 1 idx 0%nat in
              let q_ := nth 2 idx 0%nat in
              let k_ := nth 3 idx 0%nat in
              Rsum d (fun d_ => bget a [n_; q_; h_; d_] * bget b [n_; k_; h_; d_]) |}
  | _, _ => Err RuntimeError
  end.

(** [torch.einsum("nhql,nlhd->nqhd", [a, b])] *)
Definition einsum_nhql_nlhd_nqhd (a b : tensor R) : result (tensor R) :=
  match shape a, shape b with
  | [n1; h1; q; l1], [n2; l2; h2; d] =>
      n <~ edim n1 n2 ;;
      h <~ edim h1 h2 ;;
      l <~ edim l1 l2 ;;
      Ok {| shape := [n; q; h; d];
            get := fun idx =>
              let n_ := nth 0 idx 0%nat in
              let q_ := nth 1 idx 0%nat in
              let h_ := nth 2 idx 0%nat in
              let d_ := nth 3 idx 0%nat in
              Rsum l (fun l_ => bget a [n_; h_; q_; l_] * bget b [n_; l_; h_; d_]) |}
  | _, _ => Err RuntimeError
  end.

Local Close Scope R_scope.

(** ** The layers of [torch.nn] the notebook uses *)

(** The state of construction: how many parameter tensors have been
    allocated so far, and the values the initializer gives to each
    (PyTorch draws them at random; here they are arbitrary but fixed). *)
Record alloc : Type := mkAlloc {
  allocated : nat;
  initial : nat -> list nat -> R
}.

Definition ctor (A : Type) : Type := M alloc A.

Definition new_param : ctor (list nat -> R) :=
  fun s =>
    match s with
    | mkAlloc n values => (Ok (values n), mkAlloc (S n) values)
    end.

(** The random generator: the stream of uniform draws to come. *)
Definition rng : Type := nat -> R.

Definition rng_valid (g : rng) : Prop := forall k, (0 <= g k < 1)%R.

Definition advance (n : nat) (g : rng) : rng := fun k => g (k + n).

Module Linear.

Record t : Type := mk {
  in_features : nat;
  out_features : nat;
  weight : nat -> nat -> R;   (* out_features x in_features *)
  bias : nat -> R
}.

(** [nn.Linear(i, o)]; a negative size is refused when the weight is
    allocated. *)
Definition init (i o : Z) : ctor t :=
  if ((i <? 0) || (o <? 0))%Z then lift (Err RuntimeError)
  else
    w <- new_param ;;
    b <- new_param ;;
    ret (mk (Z.to_nat i) (Z.to_nat o) (fun r c => w [r; c]) (fun r => b [r])).

(** [y = x W^T + b] on the last axis. *)
Definition forward (self : t) (x : tensor R) : result (tensor R) :=
  match rev (shape x) with
  | [] => Err RuntimeError
  | d :: r =>
      if d =? in_features self then
        Ok {| shape := rev r ++ [out_features self];
              get := fun idx =>
                (Rsum (in_features self)
                      (fun e => get x (removelast idx ++ [e])
                                * weight self (last idx 0%nat) e)
                 + bias self (last idx 0%nat))%R |}
      else Err RuntimeError
  end.

End Linear.

Module LayerNorm.

Record t : Type := mk {
  normalized_shape : nat;
  weight : nat -> R;
  bias : nat -> R;
  eps : R
}.

(** [nn.LayerNorm(n)]: scale 1, shift 0, [eps = 1e-5]. *)
Definition init (n : Z) : ctor t :=
  if (n <? 0)%Z then lift (Err RuntimeError)
  else
    _ <- new_param ;;
    _ <- new_param ;;
    ret (mk (Z.to_nat n) (fun _ => 1%R) (fun _ => 0%R) 1e-5%R).

(** Mean/variance normalization over the last axis. *)
Definition forward (self : t) (x : tensor R) : result (tensor R) :=
  match rev (shape x) with
  | [] => Err RuntimeError
  | d :: _ =>
      if d =? normalized_shape self then
        Ok {| shape := shape x;
              get := fun idx =>
                let n := normalized_shape self in
                let row := fun e => get x (removelast idx ++ [e]) in
                let mean := (Rsum n row / INR n)%R in
                let var :=
                  (Rsum n (fun e => (row e - mean) * (row e - mean)) / INR n)%R in
                ((get x idx - mean) / sqrt (var + eps self)
                 * weight self (last idx 0%nat) + bias self (last idx 0%nat))%R |}
      else Err RuntimeError
  end.

End LayerNorm.

Module Embedding.

Record t : Type := mk {
  num_embeddings : nat;
  embedding_dim : nat;
  weight : nat -> nat -> R   (* num_embeddings x embedding_dim *)
}.

Definition init (n d : Z) : ctor t :=
  if ((n <? 0) || (d <? 0))%Z then lift (Err RuntimeError)
  else
    w <- new_param ;;
    ret (mk (Z.to_nat n) (Z.to_nat d) (fun r c => w [r; c])).

Definition in_range (self : t) (i : Z) : bool :=
  ((0 <=? i) && (i <? Z.of_nat (num_embeddings self)))%Z.

(** Table lookup; an id outside the table raises [IndexError]. *)
Definition forward (self : t) (x : tensor Z) : result (tensor R) :=
  if forallb (fun idx => in_range self (get x idx)) (indices (shape x)) then
    Ok {| shape := shape x ++ [embedding_dim self];
          get := fun idx =>
            weight self (Z.to_nat (get x (removelast idx))) (last idx 0%nat) |}
  else Err IndexError.

End Embedding.

Module Dropout.

Record t : Type := mk {
  p : Q;
  training : bool
}.

(** [nn.Dropout(p)]; a new module is in training mode. *)
Definition init (p : Q) : result t :=
  if Qle_bool 0 p && Qle_bool p 1 then Ok (mk p true) else Err ValueError.

(** In training mode every element is kept with probability [1 - p]
    and scaled by [1 / (1 - p)], otherwise zeroed; one uniform draw
    decides each element.  In evaluation mode it is the identity. *)
Definition forward (self : t) (x : tensor R) : M rng (tensor R) :=
  fun g =>
    if training self then
      (Ok {| shape := shape x;
             get := fun idx =>
               if Rlt_dec (g (ravel (shape x) idx)) (1 - Q2R (p self))
               then (get x idx / (1 - Q2R (p self)))%R
               else 0%R |},
       advance (numel (shape x)) g)
    else (Ok x, g).

End Dropout.

(** [nn.ReLU] *)
Definition relu (x : tensor R) : tensor R :=
  {| shape := shape x; get := fun idx => Rmax 0 (get x idx) |}.

(** [n ** (1 / 2)] for an integer [n >= 0]; a mixer with a negative
    [embed_size] cannot be constructed. *)
Definition py_sqrt (n : Z) : R := sqrt (IZR n).

(** ** class SelfAttention (lines 101-152 of the notebook file) *)

Module SelfAttention.

Record t : Type := mk {
  embed_size : Z;
  heads : Z;
  head_dim : Z;
  values : Linear.t;
  keys : Linear.t;
  queries : Linear.t;
  fc_out : Linear.t
}.

Definition msg : string := "Embedding size needs to be divisible by heads".

(** [__init__]: the quotient is computed first, then the assertion is
    checked, then the four linear layers are created. *)
Definition init (embed_size heads : Z) : ctor t :=
  head_dim <- lift (py_floordiv embed_size heads) ;;
  _ <- lift (py_assert (head_dim * heads =? embed_size)%Z msg) ;;
  values <- Linear.init embed_size embed_size ;;
  keys <- Linear.init embed_size embed_size ;;
  queries <- Linear.init embed_size embed_size ;;
  fc_out <- Linear.init embed_size embed_size ;;
  ret (mk embed_size heads head_dim values keys queries fc_out).

(** What [forward] has computed after the three projections have been
    split into heads. *)
Record projected : Type := mkProjected {
  N : nat;
  query_len : nat;
  values4 : tensor R;    (* (N, value_len, heads, head_dim) *)
  keys4 : tensor R;      (* (N, key_len, heads, head_dim) *)
  queries4 : tensor R    (* (N, query_len, heads, head_dim) *)
}.

(** [forward], from its first line to the three [reshape]s. *)
Definition project (self : t) (values_in keys_in query : tensor R)
  : result projected :=
  N <~ shape_at query 0 ;;
  value_len <~ shape_at values_in 1 ;;
  key_len <~ shape_at keys_in 1 ;;
  query_len <~ shape_at query 1 ;;
  v <~ Linear.forward (values self) values_in ;;
  k <~ Linear.forward (keys self) keys_in ;;
  q <~ Linear.forward (queries self) query ;;
  v <~ reshape v [Z.of_nat N; Z.of_nat value_len; heads self; head_dim self] ;;
  k <~ reshape k [Z.of_nat N; Z.of_nat key_len; heads self; head_dim self] ;;
  q <~ reshape q [Z.of_nat N; Z.of_nat query_len; heads self; head_dim self] ;;
  Ok (mkProjected N query_len v k q).

(** The energy, after the mask (if any) has been applied. *)
Definition energy (pr : projected) (mask : option mask_t)
  : result (tensor R) :=
  e <~ einsum_nqhd_nkhd_nhqk (queries4 pr) (keys4 pr) ;;
  match mask with
  | Some m => masked_fill e (mask_eq0 m) sentinel
  | None => Ok e
  end.

(** [torch.softmax(energy / (self.embed_size ** (1 / 2)), dim=3)] *)
Definition attention (self : t) (e : tensor R) : result (tensor R) :=
  softmax (div_scalar e (py_sqrt (embed_size self))) 3.

(** The weighted sum of the values, the concatenation of the heads and
    the output layer. *)
Definition output (self : t) (pr : projected) (att : tensor R)
  : result (tensor R) :=
  out <~ einsum_nhql_nlhd_nqhd att (values4 pr) ;;
  out <~ reshape out [Z.of_nat (N pr); Z.of_nat (query_len pr);
                      (heads self * head_dim self)%Z] ;;
  Linear.forward (fc_out self) out.

(** The attention probabilities [forward] computes on the way. *)
Definition probabilities (self : t) (values_in keys_in query : tensor R)
    (mask : option mask_t) : result (tensor R) :=
  pr <~ project self values_in keys_in query ;;
  e <~ energy pr mask ;;
  attention self e.

Definition forward (self : t) (values_in keys_in query : tensor R)
    (mask : option mask_t) : result (tensor R) :=
  pr <~ project self values_in keys_in query ;;
  e <~ energy pr mask ;;
  att <~ attention self e ;;
  output self pr att.

End SelfAttention.

(** ** class TransformerBlock (lines 158-180) *)

Module TransformerBlock.

Record t : Type := mk {
  attention : SelfAttention.t;
  norm1 : LayerNorm.t;
  norm2 : LayerNorm.t;
  expand_layer : Linear.t;     (* feed_forward[0] *)
  project_layer : Linear.t;    (* feed_forward[2] *)
  dropout : Dropout.t
}.

Definition init (embed_size heads : Z) (dropout : Q) (forward_expansion : Z)
  : ctor t :=
  attention <- SelfAttention.init embed_size heads ;;
  norm1 <- LayerNorm.init embed_size ;;
  norm2 <- LayerNorm.init embed_size ;;
  l1 <- Linear.init embed_size (forward_expansion * embed_size)%Z ;;
  l2 <- Linear.init (forward_expansion * embed_size)%Z embed_size ;;
  d <- lift (Dropout.init dropout) ;;
  ret (mk attention norm1 norm2 l1 l2 d).

(** [nn.Sequential(Linear, ReLU, Linear)] *)
Definition feed_forward (self : t) (x : tensor R) : result (tensor R) :=
  h <~ Linear.forward (expand_layer self) x ;;
  Linear.forward (project_layer self) (relu h).

Definition forward (self : t) (value key query : tensor R)
    (mask : option mask_t) : M rng (tensor R) :=
  att <- lift (SelfAttention.forward (attention self) value key query mask) ;;
  s1 <- lift (tadd att query) ;;
  n1 <- lift (LayerNorm.forward (norm1 self) s1) ;;
  x <- Dropout.forward (dropout self) n1 ;;
  fwd <- lift (feed_forward self x) ;;
  s2 <- lift (tadd fwd x) ;;
  n2 <- lift (LayerNorm.forward (norm2 self) s2) ;;
  Dropout.forward (dropout self) n2.

End TransformerBlock.

(** Word plus position embedding followed by dropout, as the first lines
    of [Encoder.forward] and [Decoder.forward] have it. *)
Definition embed (word position : Embedding.t) (dropout : Dropout.t)
    (x : tensor Z) : M rng (tensor R) :=
  dims <- lift (shape2 x) ;;
  let '(N, seq_length) := dims in
  positions <- lift (expand (arange seq_length) [N; seq_length]) ;;
  w <- lift (Embedding.forward word x) ;;
  p <- lift (Embedding.forward position positions) ;;
  s <- lift (tadd w p) ;;
  Dropout.forward dropout s.

(** ** class Encoder (lines 219-273) *)

Module Encoder.

Record t : Type := mk {
  embed_size : Z;
  word_embedding : Embedding.t;
  position_embedding : Embedding.t;
  layers : list TransformerBlock.t;
  dropout : Dropout.t
}.

Definition init (src_vocab_size embed_size num_layers heads
                 forward_expansion : Z) (dropout : Q) (max_length : Z)
  : ctor t :=
  word <- Embedding.init src_vocab_size embed_size ;;
  position <- Embedding.init max_length embed_size ;;
  layers <- replicateM (Z.to_nat num_layers)
              (TransformerBlock.init embed_size heads dropout
                                     forward_expansion) ;;
  d <- lift (Dropout.init dropout) ;;
  ret (mk embed_size word position layers d).

Definition forward (self : t) (x : tensor Z) (mask : option mask_t)
  : M rng (tensor R) :=
  out <- embed (word_embedding self) (position_embedding self)
               (dropout self) x ;;
  foldM (fun layer out => TransformerBlock.forward layer out out out mask)
        (layers self) out.

End Encoder.

(** ** class DecoderBlock (lines 306-333) *)

Module DecoderBlock.

Record t : Type := mk {
  norm : LayerNorm.t;
  attention : SelfAttention.t;
  transformer_block : TransformerBlock.t;
  dropout : Dropout.t
}.

Definition init (embed_size heads forward_expansion : Z) (dropout : Q)
  : ctor t :=
  norm <- LayerNorm.init embed_size ;;
  attention <- SelfAttention.init embed_size heads ;;
  block <- TransformerBlock.init embed_size heads dropout forward_expansion ;;
  d <- lift (Dropout.init dropout) ;;
  ret (mk norm attention block d).

Definition forward (self : t) (x value key : tensor R)
    (src_mask trg_mask : option mask_t) : M rng (tensor R) :=
  att <- lift (SelfAttention.forward (attention self) x x x trg_mask) ;;
  s <- lift (tadd att x) ;;
  n <- lift (LayerNorm.forward (norm self) s) ;;
  query <- Dropout.forward (dropout self) n ;;
  TransformerBlock.forward (transformer_block self) value key query src_mask.

End DecoderBlock.

(** ** class Decoder (lines 335-382) *)

Module Decoder.

Record t : Type := mk {
  word_embedding : Embedding.t;
  position_embedding : Embedding.t;
  layers : list DecoderBlock.t;
  fc_out : Linear.t;
  dropout : Dropout.t
}.

Definition init (trg_vocab_size embed_size num_layers heads
                 forward_expansion : Z) (dropout : Q) (max_length : Z)
  : ctor t :=
  word <- Embedding.init trg_vocab_size embed_size ;;
  position <- Embedding.init max_length embed_size ;;
  layers <- replicateM (Z.to_nat num_layers)
              (DecoderBlock.init embed_size heads forward_expansion dropout) ;;
  fc_out <- Linear.init embed_size trg_vocab_size ;;
  d <- lift (Dropout.init dropout) ;;
  ret (mk word position layers fc_out d).

(** [forward] up to and including the loop over the layers. *)
Definition hidden (self : t) (x : tensor Z) (enc_out : tensor R)
    (src_mask trg_mask : option mask_t) : M rng (tensor R) :=
  x <- embed (word_embedding self) (position_embedding self)
             (dropout self) x ;;
  foldM (fun layer x =>
           DecoderBlock.forward layer x enc_out enc_out src_mask trg_mask)
        (layers self) x.

Definition forward (self : t) (x : tensor Z) (enc_out : tensor R)
    (src_mask trg_mask : option mask_t) : M rng (tensor R) :=
  x <- hidden self x enc_out src_mask trg_mask ;;
  lift (Linear.forward (fc_out self) x).

End Decoder.

(** ** class Transformer (lines 414-483) *)

Module Transformer.

Record t : Type := mk {
  encoder : Encoder.t;
  decoder : Decoder.t;
  src_pad_idx : Z;
  trg_pad_idx : Z
}.

(** The arguments in the order of [__init__]; [device] is left out, a
    tensor has the same elements on every device. *)
Definition init (src_vocab_size trg_vocab_size src_pad_idx trg_pad_idx
                 embed_size num_layers forward_expansion heads : Z)
                (dropout : Q) (max_length : Z) : ctor t :=
  encoder <- Encoder.init src_vocab_size embed_size num_layers heads
                          forward_expansion dropout max_length ;;
  decoder <- Decoder.init trg_vocab_size embed_size num_layers heads
                          forward_expansion dropout max_length ;;
  ret (mk encoder decoder src_pad_idx trg_pad_idx).

Definition make_src_mask (self : t) (src : tensor Z) : result (tensor bool) :=
  m <~ ne_scalar src (src_pad_idx self) ;;
  m <~ unsqueeze m 1 ;;
  unsqueeze m 2.

Definition make_trg_mask (self : t) (trg : tensor Z) : result (tensor R) :=
  dims <~ shape2 trg ;;
  let '(N, trg_len) := dims in
  lower <~ tril (ones [trg_len; trg_len]) ;;
  expand lower [N; 1; trg_len; trg_len].

Definition forward (self : t) (src trg : tensor Z) : M rng (tensor R) :=
  src_mask <- lift (make_src_mask self src) ;;
  trg_mask <- lift (make_trg_mask self trg) ;;
  enc_src <- Encoder.forward (encoder self) src (Some (MaskBool src_mask)) ;;
  Decoder.forward (decoder self) trg enc_src
                  (Some (MaskBool src_mask)) (Some (MaskFloat trg_mask)).

End Transformer.


(** ** Class invariants

    What [__init__] establishes and [forward] relies on.  [E] is the
    embedding size and [H] the number of heads, as tensor dimensions. *)

Definition SelfAttention_valid (E H : nat) (sa : SelfAttention.t) : Prop :=
  (0 < SelfAttention.heads sa)%Z
  /\ (0 <= SelfAttention.embed_size sa)%Z
  /\ (SelfAttention.head_dim sa * SelfAttention.heads sa
      = SelfAttention.embed_size sa)%Z
  /\ E = Z.to_nat (SelfAttention.embed_size sa)
  /\ H = Z.to_nat (SelfAttention.heads sa)
  /\ Linear.in_features (SelfAttention.values sa) = E
  /\ Linear.out_features (SelfAttention.values sa) = E
  /\ Linear.in_features (SelfAttention.keys sa) = E
  /\ Linear.out_features (SelfAttention.keys sa) = E
  /\ Linear.in_features (SelfAttention.queries sa) = E
  /\ Linear.out_features (SelfAttention.queries sa) = E
  /\ Linear.in_features (SelfAttention.fc_out sa) = E
  /\ Linear.out_features (SelfAttention.fc_out sa) = E.

Definition TransformerBlock_valid (E H : nat) (tb : TransformerBlock.t)
  : Prop :=
  SelfAttention_valid E H (TransformerBlock.attention tb)
  /\ LayerNorm.normalized_shape (TransformerBlock.norm1 tb) = E
  /\ LayerNorm.normalized_shape (TransformerBlock.norm2 tb) = E
  /\ Linear.in_features (TransformerBlock.expand_layer tb) = E
  /\ Linear.in_features (TransformerBlock.project_layer tb)
     = Linear.out_features (TransformerBlock.expand_layer tb)
  /\ Linear.out_features (TransformerBlock.project_layer tb) = E.

Definition Encoder_valid (E H V max_length : nat) (enc : Encoder.t) : Prop :=
  Embedding.num_embeddings (Encoder.word_embedding enc) = V
  /\ Embedding.embedding_dim (Encoder.word_embedding enc) = E
  /\ Embedding.num_embeddings (Encoder.position_embedding enc) = max_length
  /\ Embedding.embedding_dim (Encoder.position_embedding enc) = E
  /\ Forall (TransformerBlock_valid E H) (Encoder.layers enc).

Definition DecoderBlock_valid (E H : nat) (b : DecoderBlock.t) : Prop :=
  LayerNorm.normalized_shape (DecoderBlock.norm b) = E
  /\ SelfAttention_valid E H (DecoderBlock.attention b)
  /\ TransformerBlock_valid E H (DecoderBlock.transformer_block b).

Definition Decoder_valid (E H V max_length : nat) (dec : Decoder.t) : Prop :=
  Embedding.num_embeddings (Decoder.word_embedding dec) = V
  /\ Embedding.embedding_dim (Decoder.word_embedding dec) = E
  /\ Embedding.num_embeddings (Decoder.position_embedding dec) = max_length
  /\ Embedding.embedding_dim (Decoder.position_embedding dec) = E
  /\ Forall (DecoderBlock_valid E H) (Decoder.layers dec)
  /\ Linear.in_features (Decoder.fc_out dec) = E
  /\ Linear.out_features (Decoder.fc_out dec) = V.

Definition Transformer_valid (E H Vsrc Vtrg max_length : nat)
    (m : Transformer.t) : Prop :=
  Encoder_valid E H Vsrc max_length (Transformer.encoder m)
  /\ Decoder_valid E H Vtrg max_length (Transformer.decoder m).

(** ** Masks *)

(** A mask that [masked_fill] can apply to an energy of shape [s] without
    changing that shape: no mask, or a mask broadcastable to [s]. *)
Definition mask_fits (mask : option mask_t) (s : list nat) : Prop :=
  match mask with
  | None => True
  | Some m => broadcast_shapes (shape (mask_eq0 m)) s = Some s
  end.

(** The mask entry that applies at an energy coordinate is 0 (false). *)
Definition masked_out (m : mask_t) (idx : list nat) : Prop :=
  match m with
  | MaskBool b => bget b idx = false
  | MaskFloat f => bget f idx = 0%R
  end.

(** The lower-triangular matrix of ones, [torch.tril(torch.ones((n, n)))]
    written out. *)
Definition causal (trg_len : nat) : tensor R :=
  {| shape := [trg_len; trg_len];
     get := fun idx =>
       if (nth (length idx - 1) idx 0 <=? nth (length idx - 2) idx 0)%nat
       then 1%R else 0%R |}.

(** ** The descriptions of the specification, written out *)

(** The attention probabilities: the softmax over the key axis of the
    energy divided by the square root of the embedding size. *)
Definition scaled_softmax_over_keys (embed_size : Z) (key_len : nat)
    (e : tensor R) (n h q k : nat) : R :=
  (exp (get e [n; h; q; k] / sqrt (IZR embed_size))
   / Rsum key_len
          (fun k' => exp (get e [n; h; q; k'] / sqrt (IZR embed_size))))%R.

(** The steps of the transformer block.  Mean/variance normalization
    of a row of [n] numbers, at position [e]: the mean is subtracted, the
    result is divided by the square root of the variance (the mean of
    the squared deviations) plus [eps], scaled by [gamma] and shifted by
    [beta]. *)
Definition row_mean (n : nat) (row : nat -> R) : R :=
  (Rsum n row / INR n)%R.

Definition row_variance (n : nat) (row : nat -> R) : R :=
  (Rsum n (fun e => (row e - row_mean n row) * (row e - row_mean n row))
   / INR n)%R.

Definition mean_variance_normalized (n : nat) (row : nat -> R)
    (eps gamma beta : R) (e : nat) : R :=
  ((row e - row_mean n row) / sqrt (row_variance n row + eps) * gamma
   + beta)%R.

(** Regularization of one activation [v]: in training mode it is zeroed
    unless its uniform draw lies below [1 - p], and a kept activation is
    scaled by [1 / (1 - p)]; outside training mode it is left alone. *)
Definition regularized (training : bool) (p draw v : R) : R :=
  if training
  then (if Rlt_dec draw (1 - p) then v / (1 - p) else 0)%R
  else v.

(** The generator after one regularization of [n] activations. *)
Definition after_regularization (training : bool) (n : nat) (g : rng) : rng :=
  if training then advance n g else g.

(** ** Dropout probability 0

    [dropout_off] holds of a module built with [nn.Dropout(0)]; the
    predicates below say that every dropout module of a stack is such. *)

Definition dropout_off (d : Dropout.t) : Prop := (Dropout.p d == 0)%Q.

Definition TransformerBlock_dropout_off (tb : TransformerBlock.t) : Prop :=
  dropout_off (TransformerBlock.dropout tb).

Definition DecoderBlock_dropout_off (b : DecoderBlock.t) : Prop :=
  dropout_off (DecoderBlock.dropout b)
  /\ TransformerBlock_dropout_off (DecoderBlock.transformer_block b).

Definition Encoder_dropout_off (enc : Encoder.t) : Prop :=
  dropout_off (Encoder.dropout enc)
  /\ Forall TransformerBlock_dropout_off (Encoder.layers enc).

Definition Decoder_dropout_off (dec : Decoder.t) : Prop :=
  dropout_off (Decoder.dropout dec)
  /\ Forall DecoderBlock_dropout_off (Decoder.layers dec).

Definition Transformer_dropout_off (m : Transformer.t) : Prop :=
  Encoder_dropout_off (Transformer.encoder m)
  /\ Decoder_dropout_off (Transformer.decoder m).

(** A computation whose result does not depend on the draws of the
    generator (and which leaves a valid generator behind). *)
Definition deterministic {A} (m : M rng A) : Prop :=
  forall g1 g2, rng_valid g1 -> rng_valid g2 ->
    fst (m g1) = fst (m g2)
    /\ rng_valid (snd (m g1)) /\ rng_valid (snd (m g2)).

(** ** Observing results *)

(** The constructor state of a fresh process. *)
Definition fresh : alloc := {| allocated := 0; initial := fun _ _ => 0%R |}.

(** Whether a run ended without an exception. *)
Definition is_ok {A} (r : result A) : bool :=
  match r with Ok _ => true | Err _ => false end.

(** The entry of a computed tensor, when the computation succeeded. *)
Definition entry (r : result (tensor R)) (idx : list nat) : option R :=
  match r with
  | Ok t => Some (get t idx)
  | Err _ => None
  end.

(** A generator whose draws are all 0, and one whose draws are all 1/2. *)
Definition quiet : rng := fun _ => 0%R.

Definition halves : rng := fun _ => (1 / 2)%R.

(** ** Concrete objects *)

(** A small model with fixed weights: embedding size 2, one head, one
    layer in each stack, vocabularies of 4 ids, at most 8 positions,
    padding id 0. *)
Definition demo_linear (i o : nat) : Linear.t :=
  Linear.mk i o (fun r c => INR (r + c)) (fun r => INR r).

Definition demo_norm : LayerNorm.t :=
  LayerNorm.mk 2 (fun _ => 1%R) (fun _ => 0%R) 1e-5%R.

Definition demo_dropout : Dropout.t := Dropout.mk 0 true.

Definition demo_attention : SelfAttention.t :=
  SelfAttention.mk 2 1 2 (demo_linear 2 2) (demo_linear 2 2)
                   (demo_linear 2 2) (demo_linear 2 2).

Definition demo_block : TransformerBlock.t :=
  TransformerBlock.mk demo_attention demo_norm demo_norm
                      (demo_linear 2 4) (demo_linear 4 2) demo_dropout.

Definition demo_decoder_block : DecoderBlock.t :=
  DecoderBlock.mk demo_norm demo_attention demo_block demo_dropout.

Definition demo_words : Embedding.t :=
  Embedding.mk 4 2 (fun r c => INR (r + c)).

Definition demo_positions : Embedding.t :=
  Embedding.mk 8 2 (fun r c => INR (r * c)).

Definition demo_encoder : Encoder.t :=
  Encoder.mk 2 demo_words demo_positions [demo_block] demo_dropout.

Definition demo_decoder : Decoder.t :=
  Decoder.mk demo_words demo_positions [demo_decoder_block]
             (demo_linear 2 4) demo_dropout.

Definition demo_model : Transformer.t :=
  Transformer.mk demo_encoder demo_decoder 0 0.

(** Inputs for the small model: a memory of three positions, a query of
    two, a single key, and a mask that hides that key. *)
Definition demo_memory : tensor R :=
  {| shape := [1; 3; 2]; get := fun _ => 1%R |}.

Definition demo_query : tensor R :=
  {| shape := [1; 2; 2]; get := fun _ => 1%R |}.

Definition demo_key : tensor R :=
  {| shape := [1; 1; 2]; get := fun _ => 1%R |}.

Definition zero_mask : mask_t :=
  MaskFloat {| shape := [1; 1; 1; 1]; get := fun _ => 0%R |}.

(** Token batches for the small model: a source, a target padded with id
    0 at its last position, and an unpadded target. *)
Definition src_plain : tensor Z :=
  {| shape := [1; 3]; get := fun _ => 2%Z |}.

Definition trg_padded : tensor Z :=
  {| shape := [1; 3];
     get := fun idx => match idx with [_; 2] => 0%Z | _ => 3%Z end |}.

Definition trg_plain : tensor Z :=
  {| shape := [1; 3]; get := fun _ => 3%Z |}.

(** A mixer with embedding size 1 and one head whose query weight is
    very large and whose key weight is negative, a hidden state of two
    positions, and a target of two tokens. *)
Definition steep_linear (w : R) : Linear.t :=
  Linear.mk 1 1 (fun _ _ => w) (fun _ => 0%R).

Definition steep_attention : SelfAttention.t :=
  SelfAttention.mk 1 1 1 (steep_linear 1) (steep_linear (-1))
                   (steep_linear 2e20) (steep_linear 1).

Definition steep_hidden : tensor R :=
  {| shape := [1; 2; 1]; get := fun _ => 1%R |}.

Definition two_tokens : tensor Z :=
  {| shape := [1; 2]; get := fun _ => 1%Z |}.

(** A mixer with embedding size 4 and two heads of width 2, and the
    energies 0 and 2 of one query over two keys. *)
Definition wide_attention : SelfAttention.t :=
  SelfAttention.mk 4 2 2 (demo_linear 4 4) (demo_linear 4 4)
                   (demo_linear 4 4) (demo_linear 4 4).

Definition two_energies : tensor R :=
  {| shape := [1; 1; 1; 2];
     get := fun idx => match idx with [_; _; _; 1] => 2%R | _ => 0%R end |}.

(** ** The test cell of the notebook

    [x] and [trg[:, :-1]] as the last cell of the notebook builds them. *)

Definition of_rows (rows : list (list Z)) (cols : nat) : tensor Z :=
  {| shape := [length rows; cols];
     get := fun idx => nth (nth 1 idx 0) (nth (nth 0 idx 0) rows []) 0%Z |}.

Definition notebook_x : tensor Z :=
  of_rows [[1; 5; 6; 4; 3; 9; 5; 2; 0]; [1; 8; 7; 3; 4; 5; 6; 7; 2]]%Z 9.

Definition notebook_trg_in : tensor Z :=
  of_rows [[1; 7; 4; 3; 5; 9; 2]; [1; 5; 6; 2; 4; 7; 6]]%Z 7.

(** ** Further inputs and constructor states *)

(** A source sentence made of padding only (the padding id of the small
    model is 0). *)
Definition all_padding : tensor Z :=
  {| shape := [1; 3]; get := fun _ => 0%Z |}.

(** A sentence of nine ids, longer than the eight positions of the small
    model, and a sentence that holds the id 7, outside its vocabulary of
    four ids. *)
Definition nine_tokens : tensor Z :=
  {| shape := [1; 9]; get := fun _ => 1%Z |}.

Definition unknown_token : tensor Z :=
  {| shape := [1; 3];
     get := fun idx => match idx with [_; 1] => 7%Z | _ => 1%Z end |}.

(** The constructor state after [k] more parameter tensors have been
    allocated. *)
Definition bump (k : nat) (s : alloc) : alloc :=
  {| allocated := k + allocated s; initial := initial s |}.


(** Two batch rows of queries for the small mixer, and a batch of two
    target sentences for the small model. *)
Definition two_queries : tensor R :=
  {| shape := [2; 2; 2]; get := fun _ => 1%R |}.

Definition two_targets : tensor Z :=
  {| shape := [2; 3]; get := fun _ => 3%Z |}.

(** The small model with the source padding id 2^64. *)
Definition huge_pad_model : Transformer.t :=
  Transformer.mk demo_encoder demo_decoder 18446744073709551616 0.
(** * Properties

    The theorems whose comment starts with an identifier C1 to C10 are
    the properties of the specification that are settled here; the lemmas
    around them are shared steps. *)

Unset Implicit Arguments.

(** ** Running monadic code *)

Lemma bind_ok_inv {S A B} (m : M S A) (k : A -> M S B) s b s2 :
  bind m k s = (Ok b, s2) ->
  exists a s1, m s = (Ok a, s1) /\ k a s1 = (Ok b, s2).
Proof.
  unfold bind. destruct (m s) as [[a|e] s1]; intros H.
  - exists a, s1. split; [reflexivity | exact H].
  - discriminate H.
Qed.

Lemma bind_ok {S A B} {m : M S A} (k : A -> M S B) {s a s1} :
  m s = (Ok a, s1) -> bind m k s = k a s1.
Proof. unfold bind. intros ->. reflexivity. Qed.

Lemma bind_err {S A B} {m : M S A} (k : A -> M S B) {s e s1} :
  m s = (Err e, s1) -> bind m k s = (Err e, s1).
Proof. unfold bind. intros ->. reflexivity. Qed.

Lemma lift_ok_inv {S A} (r : result A) (s s1 : S) a :
  lift r s = (Ok a, s1) -> r = Ok a /\ s1 = s.
Proof. unfold lift. intros H. inversion H. split; reflexivity. Qed.

Lemma ret_ok_inv {S A} (x a : A) (s s1 : S) :
  ret x s = (Ok a, s1) -> a = x /\ s1 = s.
Proof. unfold ret. intros H. inversion H. split; reflexivity. Qed.

(** Decompose a successful run of a constructor into its steps. *)
Ltac inv_run H :=
  repeat match type of H with
  | bind _ _ _ = (Ok _, _) =>
      let a := fresh "a" in let s := fresh "s" in
      let H1 := fresh "Hstep" in
      apply bind_ok_inv in H; destruct H as (a & s & H1 & H);
      cbv beta in H
  | ret _ _ = (Ok _, _) =>
      apply ret_ok_inv in H; destruct H as [? ?]; subst
  end.

(** ** [SelfAttention.__init__] *)

Lemma Linear_init_inv (i o : Z) (s s1 : alloc) l :
  Linear.init i o s = (Ok l, s1) ->
  Linear.in_features l = Z.to_nat i /\ Linear.out_features l = Z.to_nat o
  /\ (0 <= i)%Z /\ (0 <= o)%Z.
Proof.
  unfold Linear.init. destruct s as [n values].
  destruct (Z.ltb_spec i 0); [discriminate|].
  destruct (Z.ltb_spec o 0); [discriminate|].
  simpl. intros Heq. inversion Heq. subst. simpl. auto.
Qed.

Lemma floordiv_exact (a b : Z) :
  b <> 0%Z -> ((a / b * b =? a) = true <-> a mod b = 0)%Z.
Proof.
  intros Hb. rewrite Z.eqb_eq.
  pose proof (Z.div_mod a b Hb). split; intros; lia.
Qed.

(** C9: with [heads = 0] the quotient [embed_size // heads] raises
    [ZeroDivisionError]; construction stops there, before the assertion
    and before any parameter tensor is allocated, so the error reported
    is never the assertion's. *)
Theorem SelfAttention_init_zero_heads :
  forall (embed_size : Z) (s : alloc),
    SelfAttention.init embed_size 0 s = (Err ZeroDivisionError, s)
    /\ (forall m, fst (SelfAttention.init embed_size 0 s)
                  <> Err (AssertionError m))
    /\ py_floordiv embed_size 0 = Err ZeroDivisionError.
Proof.
  intros E s. split; [reflexivity|]. split; [|reflexivity].
  intros m. simpl. discriminate.
Qed.

Lemma Embedding_init_ok (n d : Z) (s : alloc) :
  (0 <= n)%Z -> (0 <= d)%Z ->
  exists e, Embedding.init n d s =
            (Ok e, {| allocated := S (allocated s); initial := initial s |})
            /\ Embedding.num_embeddings e = Z.to_nat n
            /\ Embedding.embedding_dim e = Z.to_nat d.
Proof.
  intros Hn Hd. unfold Embedding.init. destruct s as [k values].
  destruct (Z.ltb_spec n 0); [lia|]. destruct (Z.ltb_spec d 0); [lia|].
  simpl. eexists. split; [reflexivity|]. split; reflexivity.
Qed.

Lemma SelfAttention_init_indivisible (embed_size heads : Z) (s : alloc) :
  heads <> 0%Z -> (embed_size mod heads)%Z <> 0%Z ->
  SelfAttention.init embed_size heads s
  = (Err (AssertionError SelfAttention.msg), s).
Proof.
  intros Hh Hm. unfold SelfAttention.init, py_floordiv.
  destruct (Z.eqb_spec heads 0) as [E0|_]; [contradiction|].
  unfold bind at 1. unfold lift at 1. unfold bind at 1. unfold lift at 1.
  destruct (embed_size / heads * heads =? embed_size)%Z eqn:Ha.
  - apply floordiv_exact in Ha; [contradiction | assumption].
  - reflexivity.
Qed.

Lemma SelfAttention_init_divisible (embed_size heads : Z) (s : alloc) :
  (0 <= embed_size)%Z -> heads <> 0%Z -> (embed_size mod heads)%Z = 0%Z ->
  exists sa,
    SelfAttention.init embed_size heads s
    = (Ok sa, {| allocated := 8 + allocated s; initial := initial s |})
    /\ SelfAttention.embed_size sa = embed_size
    /\ SelfAttention.heads sa = heads
    /\ SelfAttention.head_dim sa = (embed_size / heads)%Z.
Proof.
  intros HE Hh Hm. unfold SelfAttention.init, py_floordiv.
  destruct s as [n values].
  destruct (Z.eqb_spec heads 0) as [E0|_]; [contradiction|].
  unfold bind at 1. unfold lift at 1. unfold bind at 1. unfold lift at 1.
  apply floordiv_exact in Hm; [|assumption]. rewrite Hm. simpl py_assert.
  cbv iota beta.
  unfold Linear.init.
  destruct (Z.ltb_spec embed_size 0); [lia|]. simpl orb. cbv iota.
  eexists. split; [reflexivity|]. simpl. auto.
Qed.

Lemma TransformerBlock_init_indivisible
    (embed_size heads : Z) (dropout : Q) (forward_expansion : Z) (s : alloc) :
  heads <> 0%Z -> (embed_size mod heads)%Z <> 0%Z ->
  TransformerBlock.init embed_size heads dropout forward_expansion s
  = (Err (AssertionError SelfAttention.msg), s).
Proof.
  intros Hh Hm. unfold TransformerBlock.init.
  apply bind_err. apply SelfAttention_init_indivisible; assumption.
Qed.

Lemma Encoder_init_indivisible
    (src_vocab_size embed_size num_layers heads forward_expansion : Z)
    (dropout : Q) (max_length : Z) (s : alloc) :
  (0 <= src_vocab_size)%Z -> (0 <= max_length)%Z -> (0 <= embed_size)%Z ->
  (1 <= num_layers)%Z ->
  heads <> 0%Z -> (embed_size mod heads)%Z <> 0%Z ->
  Encoder.init src_vocab_size embed_size num_layers heads forward_expansion
               dropout max_length s
  = (Err (AssertionError SelfAttention.msg),
     {| allocated := 2 + allocated s; initial := initial s |}).
Proof.
  intros Hv Hl HE HL Hh Hm. unfold Encoder.init.
  destruct (Embedding_init_ok _ _ s Hv HE) as (w & Hw & _).
  rewrite (bind_ok _ Hw).
  destruct (Embedding_init_ok
              _ _ {| allocated := S (allocated s); initial := initial s |} Hl HE)
    as (p & Hp & _).
  rewrite (bind_ok _ Hp).
  apply bind_err.
  destruct (Z.to_nat num_layers) as [|n] eqn:En; [lia|].
  simpl replicateM. apply bind_err.
  apply TransformerBlock_init_indivisible; assumption.
Qed.

(** C4, as the code has it: a [SelfAttention] whose [embed_size] is not a
    multiple of a non-zero [heads] fails with the assertion's error before
    any parameter tensor is allocated; a [Transformer] with non-negative
    sizes and at least one layer fails with the same error, once the two
    embedding tables of the encoder have been allocated; a
    [SelfAttention] with [embed_size >= 0], [heads > 0] and
    [embed_size % heads == 0] is constructed, with four linear layers. *)
Theorem init_divisibility :
  (forall (embed_size heads : Z) (s : alloc),
      heads <> 0%Z -> (embed_size mod heads)%Z <> 0%Z ->
      SelfAttention.init embed_size heads s
      = (Err (AssertionError SelfAttention.msg), s))
  /\
  (forall (src_vocab_size trg_vocab_size src_pad_idx trg_pad_idx embed_size
           num_layers forward_expansion heads : Z) (dropout : Q)
          (max_length : Z) (s : alloc),
      (0 <= src_vocab_size)%Z -> (0 <= max_length)%Z -> (0 <= embed_size)%Z ->
      (1 <= num_layers)%Z ->
      heads <> 0%Z -> (embed_size mod heads)%Z <> 0%Z ->
      Transformer.init src_vocab_size trg_vocab_size src_pad_idx
                       trg_pad_idx embed_size num_layers
                       forward_expansion heads dropout max_length s
      = (Err (AssertionError SelfAttention.msg),
         {| allocated := 2 + allocated s; initial := initial s |}))
  /\
  (forall (embed_size heads : Z) (s : alloc),
      (0 <= embed_size)%Z -> (0 < heads)%Z -> (embed_size mod heads)%Z = 0%Z ->
      exists sa,
        SelfAttention.init embed_size heads s
        = (Ok sa, {| allocated := 8 + allocated s; initial := initial s |})
        /\ SelfAttention.embed_size sa = embed_size
        /\ SelfAttention.heads sa = heads
        /\ SelfAttention.head_dim sa = (embed_size / heads)%Z).
Proof.
  split; [|split].
  - intros. apply SelfAttention_init_indivisible; assumption.
  - intros sv tv sp tp E L fe H p ml s Hv Hl HE HL Hh Hm.
    unfold Transformer.init.
    apply bind_err.
    apply Encoder_init_indivisible; assumption.
  - intros E H s HE Hh Hm.
    apply SelfAttention_init_divisible; [assumption | lia | assumption].
Qed.

Lemma init_divisibility_witness :
  SelfAttention.init 10 3 fresh
  = (Err (AssertionError SelfAttention.msg), fresh)
  /\ Transformer.init 10 10 0 0 10 6 4 3 0%Q 100 fresh
     = (Err (AssertionError SelfAttention.msg),
        {| allocated := 2; initial := initial fresh |})
  /\ is_ok (fst (SelfAttention.init 512 8 fresh)) = true.
Proof.
  destruct init_divisibility as (Hbad & Hmodel & Hgood).
  split; [|split].
  - apply Hbad; [lia | discriminate].
  - apply Hmodel; try lia. discriminate.
  - destruct (Hgood 512%Z 8%Z fresh) as (sa & Hsa & _); try lia.
    + reflexivity.
    + rewrite Hsa. reflexivity.
Defined.

(** Counterexample to C4 as worded: a [Transformer] with
    [embed_size = 10], [heads = 3] and [num_layers = 0] creates no
    [SelfAttention], so the divisibility of 10 by 3 is never checked and
    construction succeeds. *)
Lemma Transformer_init_without_layers :
  is_ok (fst (Transformer.init 10 10 0 0 10 0 4 3 0%Q 100 fresh)) = true
  /\ (10 mod 3)%Z <> 0%Z.
Proof. split; [reflexivity | discriminate]. Qed.

(** ** Broadcasting and shapes *)

Arguments bget : simpl never.
Arguments bidx : simpl never.
Arguments Rsum : simpl never.

Lemma bdim_refl (n : nat) : bdim n n = Some n.
Proof. unfold bdim. rewrite Nat.eqb_refl. reflexivity. Qed.

Lemma bdim_one_l (n : nat) : bdim 1 n = Some n.
Proof.
  unfold bdim. destruct (Nat.eqb_spec 1 n) as [<-|_]; reflexivity.
Qed.

Lemma shape_eqb_refl (s : list nat) : shape_eqb s s = true.
Proof.
  induction s as [|a s IH]; simpl; [reflexivity|].
  rewrite Nat.eqb_refl, IH. reflexivity.
Qed.

Lemma bshape_rev_refl (r : list nat) : bshape_rev r r = Some r.
Proof.
  induction r as [|a r IH]; simpl; [reflexivity|].
  rewrite bdim_refl, IH. reflexivity.
Qed.

Lemma broadcast_shapes_refl (s : list nat) : broadcast_shapes s s = Some s.
Proof.
  unfold broadcast_shapes. rewrite bshape_rev_refl. simpl.
  rewrite rev_involutive. reflexivity.
Qed.

(** An in-range index is not changed by broadcasting to the same rank. *)
Lemma bidx_aligned_in_range (s idx : list nat) :
  Forall2 lt idx s -> bidx_aligned s idx = idx.
Proof.
  intros H. induction H as [|i d idx s Hlt _ IH]; simpl; [reflexivity|].
  rewrite IH. destruct (Nat.eqb_spec d 1) as [->|_]; [|reflexivity].
  f_equal. lia.
Qed.

(** ** [Transformer.make_trg_mask] *)

Lemma make_trg_mask_eq (m : Transformer.t) (trg : tensor Z) (N trg_len : nat) :
  shape trg = [N; trg_len] ->
  Transformer.make_trg_mask m trg
  = Ok {| shape := [N; 1; trg_len; trg_len];
          get := fun idx => bget (causal trg_len) idx |}.
Proof.
  intros Hs. unfold Transformer.make_trg_mask, shape2. rewrite Hs.
  simpl. unfold expand. simpl.
  unfold broadcast_shapes. simpl.
  rewrite !bdim_refl. simpl.
  rewrite !Nat.eqb_refl. reflexivity.
Qed.

Lemma causal_entry (N trg_len n i j : nat) :
  i < trg_len -> j < trg_len ->
  bget (causal trg_len) [n; 0; i; j] = if j <=? i then 1%R else 0%R.
Proof.
  intros Hi Hj. unfold bget, bidx. simpl.
  destruct (Nat.eqb_spec trg_len 1) as [->|_]; simpl.
  - replace i with 0 by lia. replace j with 0 by lia. reflexivity.
  - reflexivity.
Qed.

(** ** The tensor operations succeed on well-shaped operands *)

Lemma Linear_forward_ok (l : Linear.t) (x : tensor R) (pre : list nat) :
  shape x = pre ++ [Linear.in_features l] ->
  exists y, Linear.forward l x = Ok y
            /\ shape y = pre ++ [Linear.out_features l]
            /\ forall idx,
                 get y idx
                 = (Rsum (Linear.in_features l)
                         (fun e => get x (removelast idx ++ [e])
                                   * Linear.weight l (last idx 0%nat) e)
                    + Linear.bias l (last idx 0%nat))%R.
Proof.
  intros Hs. unfold Linear.forward. rewrite Hs, rev_app_distr. simpl.
  rewrite Nat.eqb_refl, rev_involutive.
  eexists. split; [reflexivity|]. split; reflexivity.
Qed.

Lemma LayerNorm_forward_ok (l : LayerNorm.t) (x : tensor R) (pre : list nat) :
  shape x = pre ++ [LayerNorm.normalized_shape l] ->
  exists y, LayerNorm.forward l x = Ok y /\ shape y = shape x.
Proof.
  intros Hs. unfold LayerNorm.forward. rewrite Hs, rev_app_distr. simpl.
  rewrite Nat.eqb_refl.
  eexists. split; [reflexivity|]. reflexivity.
Qed.

Lemma tadd_same_shape (a b : tensor R) :
  shape a = shape b ->
  exists y, tadd a b = Ok y /\ shape y = shape b.
Proof.
  intros Hs. unfold tadd. rewrite Hs, broadcast_shapes_refl.
  eexists. split; reflexivity.
Qed.

Lemma no_negative_size (dims : list Z) :
  Forall (fun d => (0 <= d)%Z) dims ->
  existsb (fun d => (d <? -1)%Z) dims = false /\ count_infer dims = 0.
Proof.
  unfold count_infer.
  induction 1 as [|d ds Hd _ [IH1 IH2]]; simpl; [split; reflexivity|].
  rewrite IH1.
  destruct (Z.ltb_spec d (-1)); [lia|].
  destruct (Z.eqb_spec d (-1)); [lia|]. split; [reflexivity | exact IH2].
Qed.

Lemma reshape_ok {A} (t : tensor A) (dims : list Z) :
  Forall (fun d => (0 <= d)%Z) dims ->
  numel (map Z.to_nat dims) = numel (shape t) ->
  reshape t dims = Ok (view t (map Z.to_nat dims)).
Proof.
  intros Hpos Hn. unfold reshape.
  destruct (no_negative_size dims Hpos) as [Hex Hc].
  rewrite Hex, Hc, Hn, Nat.eqb_refl. reflexivity.
Qed.

Lemma edim_refl (n : nat) : edim n n = Ok n.
Proof. unfold edim. rewrite bdim_refl. reflexivity. Qed.

Lemma einsum_values_ok (a b : tensor R) (n h q l d : nat) :
  shape a = [n; h; q; l] -> shape b = [n; l; h; d] ->
  exists o, einsum_nhql_nlhd_nqhd a b = Ok o /\ shape o = [n; q; h; d].
Proof.
  intros Ha Hb. unfold einsum_nhql_nlhd_nqhd. rewrite Ha, Hb, !edim_refl.
  simpl. eexists. split; reflexivity.
Qed.

Lemma masked_fill_ok (t : tensor R) (cond : tensor bool) (v : R) :
  broadcast_shapes (shape cond) (shape t) = Some (shape t) ->
  exists y, masked_fill t cond v = Ok y
            /\ shape y = shape t
            /\ forall idx,
                 get y idx = if bget cond idx then v else bget t idx.
Proof.
  intros Hb. unfold masked_fill. rewrite Hb.
  eexists. split; [reflexivity|]. split; reflexivity.
Qed.

Lemma softmax_ok (t : tensor R) (d : nat) :
  d < length (shape t) ->
  exists y, softmax t d = Ok y
            /\ shape y = shape t
            /\ forall idx,
                 get y idx
                 = (exp (get t idx)
                    / Rsum (nth d (shape t) 0%nat)
                           (fun j => exp (get t (set_nth idx d j))))%R.
Proof.
  intros Hd. unfold softmax.
  destruct (Nat.ltb_spec d (length (shape t))); [|lia].
  eexists. split; [reflexivity|]. split; reflexivity.
Qed.

Lemma bget_in_range {A} (t : tensor A) (idx : list nat) :
  Forall2 lt idx (shape t) -> bget t idx = get t idx.
Proof.
  intros Hr. unfold bget, bidx.
  rewrite (Forall2_length Hr), Nat.sub_diag. simpl.
  rewrite bidx_aligned_in_range by exact Hr. reflexivity.
Qed.

(** Splitting the last axis [H * D] into [(H, D)] moves no element. *)
Lemma view_split_last {A} (y : tensor A) (N L H D n l h d : nat) :
  shape y = [N; L; H * D] -> n < N -> l < L -> h < H -> d < D ->
  get (view y [N; L; H; D]) [n; l; h; d] = get y [n; l; h * D + d].
Proof.
  intros Hs Hn Hl Hh Hd. unfold view. cbn [get]. rewrite Hs.
  f_equal. unfold ravel. cbn [ravel_from unravel numel fold_right].
  rewrite !Nat.mul_1_r, Nat.div_1_r. cbn [Nat.mul Nat.add].
  set (r := h * D + d).
  assert (Hr : r < H * D) by (subst r; nia).
  replace ((((n * L + l) * H + h) * D + d)) with ((n * L + l) * (H * D) + r)
    by (subst r; ring).
  assert (E1 : ((n * L + l) * (H * D) + r) / (H * D) = n * L + l).
  { symmetry. apply Nat.div_unique with r; [exact Hr | ring]. }
  assert (E2 : ((n * L + l) * (H * D) + r) mod (H * D) = r).
  { symmetry. apply Nat.mod_unique with (n * L + l); [exact Hr | ring]. }
  assert (E3 : ((n * L + l) * (H * D) + r) / (L * (H * D)) = n).
  { symmetry. apply Nat.div_unique with (l * (H * D) + r); [nia | ring]. }
  rewrite E1, E2, E3.
  f_equal; [apply Nat.mod_small; exact Hn|].
  f_equal.
  symmetry. apply Nat.mod_unique with n; [exact Hl | ring].
Qed.

(** ** Finite sums and the softmax *)

Lemma Rsum_ext (n : nat) (f g : nat -> R) :
  (forall j, j < n -> f j = g j) -> Rsum n f = Rsum n g.
Proof.
  intros Hfg. unfold Rsum. f_equal. apply map_ext_in.
  intros j Hj. apply in_seq in Hj. apply Hfg. lia.
Qed.

Lemma fold_sum_nonneg (f : nat -> R) (l : list nat) :
  (forall j, 0 <= f j)%R -> (0 <= fold_right Rplus 0 (map f l))%R.
Proof.
  intros Hf. induction l as [|a l IH]; simpl; [lra|].
  specialize (Hf a). lra.
Qed.

Lemma fold_sum_term (f : nat -> R) (l : list nat) (k : nat) :
  (forall j, 0 <= f j)%R -> In k l ->
  (f k <= fold_right Rplus 0 (map f l))%R.
Proof.
  intros Hf. induction l as [|a l IH]; simpl; [contradiction|].
  pose proof (fold_sum_nonneg f l Hf) as Hl.
  intros [->|Hin].
  - lra.
  - specialize (IH Hin). specialize (Hf a). lra.
Qed.

Lemma Rsum_term (n k : nat) (f : nat -> R) :
  (forall j, 0 <= f j)%R -> k < n -> (f k <= Rsum n f)%R.
Proof.
  intros Hf Hk. unfold Rsum. apply fold_sum_term; [exact Hf|].
  apply in_seq. lia.
Qed.

Lemma Rsum_scale (n : nat) (f : nat -> R) (c : R) :
  Rsum n (fun j => f j * c)%R = (Rsum n f * c)%R.
Proof.
  unfold Rsum. induction (seq 0 n) as [|a l IH]; simpl; [ring|].
  rewrite IH. ring.
Qed.

Lemma Rsum_const (n : nat) (a : R) : Rsum n (fun _ => a) = (INR n * a)%R.
Proof.
  unfold Rsum. generalize 0 as start.
  induction n as [|n IH]; intros start.
  - simpl. ring.
  - cbn [seq map fold_right]. rewrite IH, S_INR. ring.
Qed.

(** One entry of a softmax is at most the exponential of the gap to any
    other entry of its row. *)
Lemma softmax_entry_bound (n k k' : nat) (f : nat -> R) :
  k' < n ->
  (0 <= exp (f k) / Rsum n (fun j => exp (f j)) <= exp (f k - f k'))%R.
Proof.
  intros Hk'.
  assert (Hpos : forall j, (0 <= exp (f j))%R)
    by (intros j; left; apply exp_pos).
  pose proof (Rsum_term n k' (fun j => exp (f j)) Hpos Hk') as Hterm.
  cbv beta in Hterm.
  pose proof (exp_pos (f k)) as Hk. pose proof (exp_pos (f k')) as Hk1.
  set (S := Rsum n (fun j => exp (f j))) in *.
  assert (HS : (0 < S)%R) by lra.
  split.
  - apply Rmult_le_pos; [lra|]. left. apply Rinv_0_lt_compat. exact HS.
  - unfold Rminus. rewrite exp_plus, exp_Ropp.
    unfold Rdiv. apply Rmult_le_compat_l; [lra|].
    apply Rinv_le_contravar; assumption.
Qed.

Lemma softmax_row_sum (n : nat) (f : nat -> R) :
  0 < n ->
  Rsum n (fun k => exp (f k) / Rsum n (fun j => exp (f j)))%R = 1%R.
Proof.
  intros Hn. unfold Rdiv. rewrite Rsum_scale.
  apply Rinv_r.
  assert (Hpos : forall j, (0 <= exp (f j))%R)
    by (intros j; left; apply exp_pos).
  pose proof (Rsum_term n 0 (fun j => exp (f j)) Hpos Hn) as Hterm.
  cbv beta in Hterm. pose proof (exp_pos (f 0)). lra.
Qed.

Lemma masked_out_iff (m : mask_t) (idx : list nat) :
  masked_out m idx <-> bget (mask_eq0 m) idx = true.
Proof.
  destruct m as [b|f]; unfold masked_out, bget; simpl.
  - destruct (get b (bidx (shape b) idx)); simpl; split; congruence.
  - destruct (Req_dec_T (get f (bidx (shape f) idx)) 0); split;
      congruence.
Qed.

Lemma einsum_energy_entry (a b : tensor R) (n q k h d : nat) :
  shape a = [n; q; h; d] -> shape b = [n; k; h; d] ->
  exists e,
    einsum_nqhd_nkhd_nhqk a b = Ok e /\ shape e = [n; h; q; k]
    /\ forall n_ h_ q_ k_, n_ < n -> h_ < h -> q_ < q -> k_ < k ->
         get e [n_; h_; q_; k_]
         = Rsum d (fun d_ => get a [n_; q_; h_; d_] * get b [n_; k_; h_; d_])%R.
Proof.
  intros Ha Hb. unfold einsum_nqhd_nkhd_nhqk. rewrite Ha, Hb, !edim_refl.
  simpl. eexists. split; [reflexivity|]. split; [reflexivity|].
  intros n_ h_ q_ k_ Hn Hh Hq Hk. cbn [get nth].
  apply Rsum_ext. intros j Hj.
  rewrite !bget_in_range; [reflexivity | |].
  - rewrite Hb. repeat constructor; assumption.
  - rewrite Ha. repeat constructor; assumption.
Qed.

(** ** [SelfAttention.forward] on well-shaped inputs *)

Section SelfAttentionFacts.

Variables (E H : nat) (sa : SelfAttention.t).
Hypothesis Hvalid : SelfAttention_valid E H sa.

Local Abbreviation D := (Z.to_nat (SelfAttention.head_dim sa)).

Lemma valid_head_dim : (0 <= SelfAttention.head_dim sa)%Z /\ H * D = E.
Proof.
  destruct Hvalid as (Hh & HE & Hm & -> & -> & _).
  assert (0 <= SelfAttention.head_dim sa)%Z by nia.
  split; [assumption|].
  rewrite <- Z2Nat.inj_mul by lia. f_equal. lia.
Qed.

Lemma split_ok (x : tensor R) (l : Linear.t) (n len : nat) :
  shape x = [n; len; E] ->
  Linear.in_features l = E -> Linear.out_features l = E ->
  exists y,
    Linear.forward l x = Ok y
    /\ shape y = [n; len; E]
    /\ (forall idx,
          get y idx
          = (Rsum E (fun e => get x (removelast idx ++ [e])
                              * Linear.weight l (last idx 0%nat) e)
             + Linear.bias l (last idx 0%nat))%R)
    /\ reshape y [Z.of_nat n; Z.of_nat len; SelfAttention.heads sa;
                  SelfAttention.head_dim sa]
       = Ok (view y [n; len; H; D]).
Proof.
  intros Hs Hi Ho.
  destruct (Linear_forward_ok l x [n; len]) as (y & Hy & Hsy & Hgy).
  { rewrite Hs, Hi. reflexivity. }
  destruct valid_head_dim as [Hd HHD].
  destruct Hvalid as (Hh & HE & Hm & HeqE & HeqH & _).
  exists y. split; [exact Hy|]. split; [rewrite Hsy, Ho; reflexivity|].
  split; [intros idx; rewrite Hgy, Hi; reflexivity|].
  rewrite reshape_ok.
  - simpl. rewrite !Nat2Z.id. rewrite <- HeqH. reflexivity.
  - repeat constructor; lia.
  - rewrite Hsy, Ho. simpl. rewrite !Nat2Z.id.
    rewrite <- HeqH. rewrite <- HHD. lia.
Qed.

(** The outcome of the first half of [forward]: the three projections,
    each viewed with its last axis split into heads. *)
Lemma project_ok (v k q : tensor R) (n lv lk lq : nat) :
  shape v = [n; lv; E] -> shape k = [n; lk; E] -> shape q = [n; lq; E] ->
  exists yv yk yq,
    Linear.forward (SelfAttention.values sa) v = Ok yv
    /\ Linear.forward (SelfAttention.keys sa) k = Ok yk
    /\ Linear.forward (SelfAttention.queries sa) q = Ok yq
    /\ shape yk = [n; lk; E] /\ shape yq = [n; lq; E]
    /\ SelfAttention.project sa v k q
       = Ok (SelfAttention.mkProjected n lq (view yv [n; lv; H; D])
               (view yk [n; lk; H; D]) (view yq [n; lq; H; D])).
Proof.
  intros Hv Hk Hq.
  pose proof Hvalid as (_ & _ & _ & _ & _ & Hvi & Hvo & Hki & Hko
                        & Hqi & Hqo & _).
  destruct (split_ok v _ n lv Hv Hvi Hvo) as (yv & Ev1 & _ & _ & Ev4).
  destruct (split_ok k _ n lk Hk Hki Hko) as (yk & Ek1 & Sk & _ & Ek4).
  destruct (split_ok q _ n lq Hq Hqi Hqo) as (yq & Eq1 & Sq & _ & Eq4).
  exists yv, yk, yq. repeat (split; [assumption|]).
  unfold SelfAttention.project, shape_at. rewrite Hv, Hk, Hq. simpl.
  rewrite Ev1. simpl. rewrite Ek1. simpl. rewrite Eq1. simpl.
  rewrite Ev4. simpl. rewrite Ek4. simpl. rewrite Eq4. reflexivity.
Qed.

Lemma attention_ok (e : tensor R) (n lq lk : nat) :
  shape e = [n; H; lq; lk] ->
  exists att, SelfAttention.attention sa e = Ok att
              /\ shape att = [n; H; lq; lk]
              /\ forall a b c d,
                   get att [a; b; c; d]
                   = scaled_softmax_over_keys
                       (SelfAttention.embed_size sa) lk e a b c d.
Proof.
  intros Hs. unfold SelfAttention.attention.
  destruct (softmax_ok (div_scalar e (py_sqrt (SelfAttention.embed_size sa))) 3)
    as (y & Hy & Hsy & Hg).
  { simpl. rewrite Hs. simpl. lia. }
  exists y. split; [exact Hy|]. split.
  - rewrite Hsy. simpl. exact Hs.
  - intros a b c d. rewrite Hg. simpl. rewrite Hs. reflexivity.
Qed.

(** Everything [forward] computes up to the attention probabilities:
    the raw energy [e0], the energy [e] after the mask, and the
    probabilities [att]. *)
Lemma probabilities_ok (v k q : tensor R) (mask : option mask_t)
    (n lv lk lq : nat) :
  shape v = [n; lv; E] -> shape k = [n; lk; E] -> shape q = [n; lq; E] ->
  mask_fits mask [n; H; lq; lk] ->
  exists yk yq pr e0 e att,
    Linear.forward (SelfAttention.keys sa) k = Ok yk
    /\ Linear.forward (SelfAttention.queries sa) q = Ok yq
    /\ SelfAttention.project sa v k q = Ok pr
    /\ SelfAttention.N pr = n /\ SelfAttention.query_len pr = lq
    /\ shape (SelfAttention.values4 pr) = [n; lv; H; D]
    /\ einsum_nqhd_nkhd_nhqk (SelfAttention.queries4 pr)
                             (SelfAttention.keys4 pr) = Ok e0
    /\ (forall n_ h_ q_ k_, n_ < n -> h_ < H -> q_ < lq -> k_ < lk ->
          get e0 [n_; h_; q_; k_]
          = Rsum D (fun d => get yq [n_; q_; (h_ * D + d)%nat]
                             * get yk [n_; k_; (h_ * D + d)%nat])%R)
    /\ SelfAttention.energy pr mask = Ok e
    /\ shape e = [n; H; lq; lk]
    /\ match mask with
       | Some m =>
           forall idx, get e idx
                       = if bget (mask_eq0 m) idx then sentinel
                         else bget e0 idx
       | None => e = e0
       end
    /\ shape e0 = [n; H; lq; lk]
    /\ SelfAttention.attention sa e = Ok att
    /\ SelfAttention.probabilities sa v k q mask = Ok att
    /\ shape att = [n; H; lq; lk]
    /\ forall a b c d,
         get att [a; b; c; d]
         = scaled_softmax_over_keys (SelfAttention.embed_size sa) lk e a b c d.
Proof.
  intros Hv Hk Hq Hm.
  destruct (project_ok v k q n lv lk lq Hv Hk Hq)
    as (yv & yk & yq & Eyv & Eyk & Eyq & Sk & Sq & Hpr).
  destruct valid_head_dim as [_ HHD].
  set (pr := SelfAttention.mkProjected n lq (view yv [n; lv; H; D])
               (view yk [n; lk; H; D]) (view yq [n; lq; H; D])) in *.
  destruct (einsum_energy_entry (SelfAttention.queries4 pr)
              (SelfAttention.keys4 pr) n lq lk H D eq_refl eq_refl)
    as (e0 & He0 & Hse0 & Hge0).
  assert (Hraw : forall n_ h_ q_ k_,
             n_ < n -> h_ < H -> q_ < lq -> k_ < lk ->
             get e0 [n_; h_; q_; k_]
             = Rsum D (fun d => get yq [n_; q_; (h_ * D + d)%nat]
                                * get yk [n_; k_; (h_ * D + d)%nat])%R).
  { intros n_ h_ q_ k_ Hn_ Hh_ Hq_ Hk_.
    rewrite Hge0 by assumption. apply Rsum_ext. intros d Hd.
    subst pr. cbn [SelfAttention.queries4 SelfAttention.keys4].
    rewrite !view_split_last; try assumption; try reflexivity.
    - rewrite Sk, <- HHD. reflexivity.
    - rewrite Sq, <- HHD. reflexivity. }
  assert (Hen : exists e,
             SelfAttention.energy pr mask = Ok e
             /\ shape e = [n; H; lq; lk]
             /\ match mask with
                | Some m =>
                    forall idx, get e idx
                                = if bget (mask_eq0 m) idx then sentinel
                                  else bget e0 idx
                | None => e = e0
                end).
  { unfold SelfAttention.energy. rewrite He0. simpl.
    destruct mask as [m|].
    - simpl in Hm. rewrite <- Hse0 in Hm.
      destruct (masked_fill_ok e0 (mask_eq0 m) sentinel Hm)
        as (y & Hy & Hsy & Hgy).
      exists y. split; [exact Hy|]. split; [congruence | exact Hgy].
    - exists e0. split; [reflexivity|]. split; [exact Hse0 | reflexivity]. }
  destruct Hen as (e & He & Hse & Hge).
  destruct (attention_ok e n lq lk Hse) as (att & Hatt & Hsatt & Hgatt).
  exists yk, yq, pr, e0, e, att.
  repeat (split; [first [assumption | reflexivity]|]).
  split.
  { unfold SelfAttention.probabilities. rewrite Hpr. simpl.
    rewrite He. simpl. exact Hatt. }
  split; assumption.
Qed.

Lemma output_ok (pr : SelfAttention.projected) (att : tensor R)
    (n lq lk : nat) :
  SelfAttention.N pr = n -> SelfAttention.query_len pr = lq ->
  shape (SelfAttention.values4 pr) = [n; lk; H; D] ->
  shape att = [n; H; lq; lk] ->
  exists out, SelfAttention.output sa pr att = Ok out
              /\ shape out = [n; lq; E].
Proof.
  intros HN HL Hv Ha. unfold SelfAttention.output.
  destruct (einsum_values_ok _ _ n H lq lk D Ha Hv) as (o & Ho & Hso).
  rewrite Ho. simpl.
  destruct valid_head_dim as [Hd HHD].
  pose proof Hvalid as (Hh & HE & Hmul & HeqE & HeqH & _ & _ & _ & _
                        & _ & _ & Hfi & Hfo).
  rewrite reshape_ok.
  - simpl.
    destruct (Linear_forward_ok (SelfAttention.fc_out sa)
                (view o (map Z.to_nat
                   [Z.of_nat (SelfAttention.N pr);
                    Z.of_nat (SelfAttention.query_len pr);
                    (SelfAttention.heads sa * SelfAttention.head_dim sa)%Z]))
                [n; lq]) as (y & Hy & Hsy & _).
    { simpl. rewrite !Nat2Z.id, HN, HL, Hfi.
      rewrite Z2Nat.inj_mul by lia. rewrite <- HeqH, HHD.
      reflexivity. }
    exists y. split; [exact Hy|]. rewrite Hsy, Hfo. reflexivity.
  - repeat constructor; lia.
  - rewrite Hso. simpl. rewrite !Nat2Z.id, HN, HL.
    rewrite Z2Nat.inj_mul by lia. rewrite <- HeqH. lia.
Qed.

Lemma SelfAttention_forward_ok (v k q : tensor R) (mask : option mask_t)
    (n lk lq : nat) :
  shape v = [n; lk; E] -> shape k = [n; lk; E] -> shape q = [n; lq; E] ->
  mask_fits mask [n; H; lq; lk] ->
  exists out, SelfAttention.forward sa v k q mask = Ok out
              /\ shape out = [n; lq; E].
Proof.
  intros Hv Hk Hq Hm.
  destruct (probabilities_ok v k q mask n lk lk lq Hv Hk Hq Hm)
    as (yk & yq & pr & e0 & e & att & _ & _ & Hpr & HN & HL & Sv & _ & _
        & He & _ & _ & _ & Hatt & _ & Hsa & _).
  destruct (output_ok pr att n lq lk HN HL Sv Hsa) as (out & Hout & Hso).
  unfold SelfAttention.forward. rewrite Hpr. simpl. rewrite He. simpl.
  rewrite Hatt. simpl. rewrite Hout.
  exists out. split; [reflexivity | exact Hso].
Qed.

End SelfAttentionFacts.

(** ** Properties of [SelfAttention.forward] *)

Lemma demo_attention_valid : SelfAttention_valid 2 1 demo_attention.
Proof.
  unfold SelfAttention_valid, demo_attention, demo_linear. simpl.
  repeat split; lia.
Qed.

(** C3: for a valid configuration and value, key and query of shapes
    (batch, value_len, embed_size), (batch, key_len, embed_size) and
    (batch, query_len, embed_size) with value_len = key_len, and a mask
    that is absent or broadcastable to the energy, [forward] returns a
    tensor of shape (batch, query_len, embed_size); query_len need not
    equal key_len. *)
Theorem SelfAttention_forward_shape :
  forall (E H : nat) (sa : SelfAttention.t)
         (values keys query : tensor R) (mask : option mask_t)
         (batch value_len key_len query_len : nat),
    SelfAttention_valid E H sa ->
    shape values = [batch; value_len; E] ->
    shape keys = [batch; key_len; E] ->
    shape query = [batch; query_len; E] ->
    value_len = key_len ->
    mask_fits mask [batch; H; query_len; key_len] ->
    exists out,
      SelfAttention.forward sa values keys query mask = Ok out
      /\ shape out = [batch; query_len; E].
Proof.
  intros E H sa v k q mask n lv lk lq Hvalid Hv Hk Hq -> Hm.
  destruct (probabilities_ok E H sa Hvalid v k q mask n lk lk lq Hv Hk Hq Hm)
    as (yk & yq & pr & e0 & e & att & _ & _ & Hpr & HN & HL & Sv & _ & _
        & He & _ & _ & _ & Hatt & _ & Hsa & _).
  destruct (output_ok E H sa Hvalid pr att n lq lk HN HL Sv Hsa)
    as (out & Hout & Hso).
  exists out. split; [|exact Hso].
  unfold SelfAttention.forward.
  rewrite Hpr. cbn [rbind]. rewrite He. cbn [rbind].
  rewrite Hatt. cbn [rbind]. exact Hout.
Qed.

Lemma SelfAttention_forward_shape_witness :
  exists out,
    SelfAttention.forward demo_attention demo_memory demo_memory demo_query None
    = Ok out
    /\ shape out = [1; 2; 2].
Proof.
  apply (SelfAttention_forward_shape 2 1 demo_attention demo_memory
           demo_memory demo_query None 1 3 3 2).
  - exact demo_attention_valid.
  - reflexivity.
  - reflexivity.
  - reflexivity.
  - reflexivity.
  - exact I.
Defined.

(** C2: the attention probabilities are the softmax over the key axis,
    the last of the four axes of the energy, of the energy divided by the
    square root of [embed_size], the full embedding size and not
    [head_dim]; the probabilities of every row sum to 1. *)
Theorem attention_scaled_by_embed_size :
  forall (E H : nat) (sa : SelfAttention.t)
         (values keys query : tensor R) (mask : option mask_t)
         (batch value_len key_len query_len : nat),
    SelfAttention_valid E H sa ->
    shape values = [batch; value_len; E] ->
    shape keys = [batch; key_len; E] ->
    shape query = [batch; query_len; E] ->
    mask_fits mask [batch; H; query_len; key_len] ->
    exists pr e att,
      SelfAttention.project sa values keys query = Ok pr
      /\ SelfAttention.energy pr mask = Ok e
      /\ shape e = [batch; H; query_len; key_len]
      /\ SelfAttention.attention sa e = Ok att
      /\ SelfAttention.forward sa values keys query mask
         = SelfAttention.output sa pr att
      /\ shape att = [batch; H; query_len; key_len]
      /\ (forall n h q k,
            get att [n; h; q; k]
            = scaled_softmax_over_keys (SelfAttention.embed_size sa)
                                       key_len e n h q k)
      /\ (0 < key_len ->
          forall n h q, Rsum key_len (fun k => get att [n; h; q; k]) = 1%R).
Proof.
  intros E H sa v k q mask n lv lk lq Hvalid Hv Hk Hq Hm.
  destruct (probabilities_ok E H sa Hvalid v k q mask n lv lk lq Hv Hk Hq Hm)
    as (yk & yq & pr & e0 & e & att & _ & _ & Hpr & _ & _ & _ & _ & _
        & He & Hse & _ & _ & Hatt & _ & Hsatt & Hg).
  exists pr, e, att. repeat (split; [assumption|]).
  split.
  { unfold SelfAttention.forward. rewrite Hpr. simpl. rewrite He. simpl.
    rewrite Hatt. reflexivity. }
  split; [assumption|]. split; [assumption|].
  intros Hpos a b c.
  rewrite (Rsum_ext lk _
             (fun j => exp ((fun k' => get e [a; b; c; k']
                              / sqrt (IZR (SelfAttention.embed_size sa))) j)
                       / Rsum lk (fun k' =>
                           exp ((fun k' => get e [a; b; c; k']
                                 / sqrt (IZR (SelfAttention.embed_size sa))) k')))%R).
  - apply softmax_row_sum. exact Hpos.
  - intros j _. rewrite Hg. reflexivity.
Qed.

Lemma attention_scaled_by_embed_size_witness :
  exists pr e att,
    SelfAttention.project demo_attention demo_memory demo_memory demo_query
    = Ok pr
    /\ SelfAttention.energy pr None = Ok e
    /\ SelfAttention.attention demo_attention e = Ok att
    /\ forall n h q k,
         get att [n; h; q; k] = scaled_softmax_over_keys 2 3 e n h q k.
Proof.
  destruct (attention_scaled_by_embed_size 2 1 demo_attention demo_memory
              demo_memory demo_query None 1 3 3 2 demo_attention_valid
              eq_refl eq_refl eq_refl I)
    as (pr & e & att & Hpr & He & _ & Hatt & _ & _ & Hg & _).
  exists pr, e, att. repeat (split; [assumption|]). exact Hg.
Defined.

(** With two heads the two scalings are not the same function: dividing
    by the square root of [head_dim] gives another probability. *)
Example scaling_differs_from_head_dim :
  SelfAttention.head_dim wide_attention = 2%Z
  /\ entry (SelfAttention.attention wide_attention two_energies) [0; 0; 0; 0]
     <> entry (softmax (div_scalar two_energies
                          (py_sqrt (SelfAttention.head_dim wide_attention))) 3)
              [0; 0; 0; 0].
Proof.
  split; [reflexivity|].
  unfold SelfAttention.attention, softmax, py_sqrt, Rsum.
  cbn [div_scalar shape two_energies length Nat.ltb Nat.leb entry get nth
       set_nth seq map fold_right SelfAttention.embed_size
       SelfAttention.head_dim wide_attention].
  intros Heq. injection Heq as Heq.
  replace (0 / sqrt 4)%R with 0%R in Heq by (unfold Rdiv; ring).
  replace (0 / sqrt 2)%R with 0%R in Heq by (unfold Rdiv; ring).
  rewrite exp_0 in Heq.
  pose proof (exp_pos (2 / sqrt 4)) as Ha. pose proof (exp_pos (2 / sqrt 2)) as Hb.
  assert (Hexp : exp (2 / sqrt 4) = exp (2 / sqrt 2)).
  { unfold Rdiv in Heq at 1 3. rewrite !Rmult_1_l in Heq.
    apply Rinv_eq_reg in Heq. lra. }
  apply exp_inv in Hexp.
  assert (H4 : (0 < sqrt 4)%R) by (apply sqrt_lt_R0; lra).
  assert (H2 : (0 < sqrt 2)%R) by (apply sqrt_lt_R0; lra).
  assert (Hs : sqrt 4 = sqrt 2).
  { apply Rmult_eq_reg_l with (2 / sqrt 4 * / sqrt 2)%R.
    - transitivity (2 / sqrt 2)%R; [field; lra|].
      rewrite <- Hexp. field; lra.
    - apply Rmult_integral_contrapositive_currified.
      + unfold Rdiv. apply Rmult_integral_contrapositive_currified; [lra|].
        apply Rinv_neq_0_compat. lra.
      + apply Rinv_neq_0_compat. lra. }
  apply sqrt_inj in Hs; lra.
Qed.

(** C1, as the code has it: when a mask is supplied, every energy entry
    whose mask entry is 0 is the sentinel -1e20 when the softmax is taken
    (the other entries are the raw energies); the probability of a masked
    key is then at most exp(-(e' + 1e20) / sqrt(embed_size)) for the
    energy e' of any key of the same row.  It is close to 0 when some key
    of the row is not masked and has an energy far above the sentinel;
    when every key of the row is masked it is 1 / key_len. *)
Theorem masked_keys_get_sentinel :
  forall (E H : nat) (sa : SelfAttention.t)
         (values keys query : tensor R) (m : mask_t)
         (batch value_len key_len query_len : nat),
    SelfAttention_valid E H sa ->
    shape values = [batch; value_len; E] ->
    shape keys = [batch; key_len; E] ->
    shape query = [batch; query_len; E] ->
    mask_fits (Some m) [batch; H; query_len; key_len] ->
    exists pr e0 e att,
      SelfAttention.project sa values keys query = Ok pr
      /\ einsum_nqhd_nkhd_nhqk (SelfAttention.queries4 pr)
                               (SelfAttention.keys4 pr) = Ok e0
      /\ SelfAttention.energy pr (Some m) = Ok e
      /\ SelfAttention.attention sa e = Ok att
      /\ SelfAttention.forward sa values keys query (Some m)
         = SelfAttention.output sa pr att
      /\ (forall idx, masked_out m idx -> get e idx = sentinel)
      /\ (forall idx, ~ masked_out m idx -> get e idx = bget e0 idx)
      /\ (forall n h q k k',
            masked_out m [n; h; q; k] -> k' < key_len ->
            (0 <= get att [n; h; q; k]
             <= exp (- (get e [n; h; q; k'] - sentinel)
                     / py_sqrt (SelfAttention.embed_size sa)))%R)
      /\ (forall n h q,
            (forall k, k < key_len -> masked_out m [n; h; q; k]) ->
            forall k, k < key_len ->
              get att [n; h; q; k] = (/ INR key_len)%R).
Proof.
  intros E H sa v k q m n lv lk lq Hvalid Hv Hk Hq Hm.
  destruct (probabilities_ok E H sa Hvalid v k q (Some m) n lv lk lq
              Hv Hk Hq Hm)
    as (yk & yq & pr & e0 & e & att & _ & _ & Hpr & _ & _ & _ & He0 & _
        & He & Hse & Hge & _ & Hatt & _ & Hsatt & Hg).
  exists pr, e0, e, att. repeat (split; [assumption|]).
  split.
  { unfold SelfAttention.forward. rewrite Hpr. simpl. rewrite He. simpl.
    rewrite Hatt. reflexivity. }
  assert (Hfill : forall idx, masked_out m idx -> get e idx = sentinel).
  { intros idx Hz. apply masked_out_iff in Hz. rewrite Hge, Hz. reflexivity. }
  split; [exact Hfill|]. split.
  { intros idx Hz. rewrite Hge.
    destruct (bget (mask_eq0 m) idx) eqn:Hb; [|reflexivity].
    exfalso. apply Hz. apply masked_out_iff. exact Hb. }
  split.
  - intros a b c d d' Hz Hd'.
    rewrite Hg. unfold scaled_softmax_over_keys, py_sqrt.
    pose proof (softmax_entry_bound lk d d'
                  (fun j => get e [a; b; c; j]
                            / sqrt (IZR (SelfAttention.embed_size sa)))%R Hd')
      as Hb.
    cbv beta in Hb. rewrite (Hfill _ Hz) in Hb |- *.
    replace (- (get e [a; b; c; d'] - sentinel)
             / sqrt (IZR (SelfAttention.embed_size sa)))%R
      with (sentinel / sqrt (IZR (SelfAttention.embed_size sa))
            - get e [a; b; c; d'] / sqrt (IZR (SelfAttention.embed_size sa)))%R
      by (unfold Rdiv; ring).
    exact Hb.
  - intros a b c Hall d Hd.
    rewrite Hg. unfold scaled_softmax_over_keys.
    rewrite (Rsum_ext lk _
               (fun _ => exp (sentinel
                              / sqrt (IZR (SelfAttention.embed_size sa))))).
    + rewrite Rsum_const, (Hfill _ (Hall d Hd)).
      pose proof (exp_pos (sentinel
                           / sqrt (IZR (SelfAttention.embed_size sa)))) as Hpos.
      assert (HL : (0 < INR lk)%R) by (apply lt_0_INR; lia).
      field. split; lra.
    + intros j Hj. rewrite (Hfill _ (Hall j Hj)). reflexivity.
Qed.

Lemma masked_keys_get_sentinel_witness :
  exists pr e att,
    SelfAttention.project demo_attention demo_key demo_key demo_key = Ok pr
    /\ SelfAttention.energy pr (Some zero_mask) = Ok e
    /\ SelfAttention.attention demo_attention e = Ok att
    /\ get e [0; 0; 0; 0] = sentinel.
Proof.
  destruct (masked_keys_get_sentinel 2 1 demo_attention demo_key demo_key
              demo_key zero_mask 1 1 1 1 demo_attention_valid
              eq_refl eq_refl eq_refl eq_refl)
    as (pr & e0 & e & att & Hpr & _ & He & Hatt & _ & Hfill & _).
  exists pr, e, att. repeat (split; [assumption|]).
  apply Hfill. reflexivity.
Defined.

(** Counterexample to C1 as worded: when every key of a row is masked
    the masked keys share the whole probability; with a single key whose
    mask entry is 0, the probability of that masked key is 1. *)
Lemma masked_row_keeps_probability :
  masked_out zero_mask [0; 0; 0; 0]
  /\ entry (SelfAttention.probabilities demo_attention demo_key demo_key
              demo_key (Some zero_mask)) [0; 0; 0; 0] = Some 1%R.
Proof.
  split; [reflexivity|].
  destruct (probabilities_ok 2 1 demo_attention demo_attention_valid
              demo_key demo_key demo_key (Some zero_mask) 1 1 1 1
              eq_refl eq_refl eq_refl eq_refl)
    as (yk & yq & pr & e0 & e & att & _ & _ & _ & _ & _ & _ & _ & _
        & _ & _ & _ & _ & _ & Hprob & _ & Hg).
  rewrite Hprob. cbn [entry]. rewrite Hg.
  unfold scaled_softmax_over_keys, Rsum. cbn [seq map fold_right].
  f_equal.
  match goal with
  | |- context [exp ?x] => pose proof (exp_pos x) as Hpos
  end.
  field. lra.
Qed.

(** ** The causal mask in target self-attention *)

Lemma trg_mask_fits (N H L : nat) :
  broadcast_shapes [N; 1; L; L] [N; H; L; L] = Some [N; H; L; L].
Proof.
  unfold broadcast_shapes. cbn [rev app bshape_rev].
  rewrite !bdim_refl, bdim_one_l. reflexivity.
Qed.

Lemma trg_mask_index (N L n h i j : nat) :
  n < N -> i < L -> j < L ->
  bidx [N; 1; L; L] [n; h; i; j] = [n; 0; i; j].
Proof.
  intros Hn Hi Hj. unfold bidx. cbn [length Nat.sub skipn bidx_aligned].
  cbn [Nat.eqb].
  destruct (Nat.eqb_spec N 1) as [->|_];
    destruct (Nat.eqb_spec L 1) as [->|_];
    repeat f_equal; lia.
Qed.

Lemma trg_mask_masked_out (N L n h i j : nat) :
  n < N -> i < L -> j < L ->
  (masked_out
     (MaskFloat {| shape := [N; 1; L; L];
                   get := fun idx => bget (causal L) idx |}) [n; h; i; j]
   <-> i < j).
Proof.
  intros Hn Hi Hj. unfold masked_out. unfold bget at 1. cbn [shape get].
  rewrite trg_mask_index by assumption.
  rewrite (causal_entry N) by assumption.
  destruct (Nat.leb_spec j i); split; intros; try lia; try lra.
Qed.

(** Target self-attention under the causal mask: the energy of a key
    j <= i is the raw energy, the energy of a key j > i is the sentinel,
    and the probability of such a key is bounded through any key of the
    row. *)
Lemma target_self_attention (E H : nat) (sa : SelfAttention.t) (x : tensor R)
    (N L : nat) :
  SelfAttention_valid E H sa ->
  shape x = [N; L; E] ->
  exists pr e0 e att,
    SelfAttention.project sa x x x = Ok pr
    /\ einsum_nqhd_nkhd_nhqk (SelfAttention.queries4 pr)
                             (SelfAttention.keys4 pr) = Ok e0
    /\ SelfAttention.energy pr
         (Some (MaskFloat {| shape := [N; 1; L; L];
                             get := fun idx => bget (causal L) idx |})) = Ok e
    /\ SelfAttention.probabilities sa x x x
         (Some (MaskFloat {| shape := [N; 1; L; L];
                             get := fun idx => bget (causal L) idx |})) = Ok att
    /\ shape att = [N; H; L; L]
    /\ forall n h i j,
         n < N -> h < H -> i < L -> j < L ->
         (j <= i -> get e [n; h; i; j] = get e0 [n; h; i; j])
         /\ (i < j ->
             get e [n; h; i; j] = sentinel
             /\ forall j', j' < L ->
                  (0 <= get att [n; h; i; j]
                   <= exp (- (get e [n; h; i; j'] - sentinel)
                           / py_sqrt (SelfAttention.embed_size sa)))%R).
Proof.
  intros Hvalid Hx.
  set (mask := {| shape := [N; 1; L; L];
                  get := fun idx => bget (causal L) idx |}).
  destruct (probabilities_ok E H sa Hvalid x x x (Some (MaskFloat mask))
              N L L L Hx Hx Hx (trg_mask_fits N H L))
    as (yk & yq & pr & e0 & e & att & _ & _ & Hpr & _ & _ & _ & He0 & _
        & He & Hse & Hge & Hse0 & _ & Hprob & Hsatt & Hg).
  exists pr, e0, e, att. repeat (split; [assumption|]).
  intros n h i j Hn Hh Hi Hj.
  pose proof (trg_mask_masked_out N L n h i j Hn Hi Hj) as Hmo.
  fold mask in Hmo. rewrite masked_out_iff in Hmo.
  split.
  - intros Hle. rewrite Hge.
    destruct (bget (mask_eq0 (MaskFloat mask)) [n; h; i; j]) eqn:Hb.
    + pose proof (proj1 Hmo eq_refl). lia.
    + apply bget_in_range. rewrite Hse0. repeat constructor; assumption.
  - intros Hlt.
    assert (Hfill : get e [n; h; i; j] = sentinel).
    { rewrite Hge. apply Hmo in Hlt. rewrite Hlt. reflexivity. }
    split; [exact Hfill|].
    intros j' Hj'. rewrite Hg. unfold scaled_softmax_over_keys, py_sqrt.
    pose proof (softmax_entry_bound L j j'
                  (fun k => get e [n; h; i; k]
                            / sqrt (IZR (SelfAttention.embed_size sa)))%R Hj')
      as Hb.
    cbv beta in Hb. rewrite Hfill in Hb |- *.
    replace (- (get e [n; h; i; j'] - sentinel)
             / sqrt (IZR (SelfAttention.embed_size sa)))%R
      with (sentinel / sqrt (IZR (SelfAttention.embed_size sa))
            - get e [n; h; i; j'] / sqrt (IZR (SelfAttention.embed_size sa)))%R
      by (unfold Rdiv; ring).
    exact Hb.
Qed.

(** C5, as the code has it: the target mask has shape
    (batch, 1, trg_len, trg_len) and its entry at (n, 0, i, j) is 1 when
    j <= i and 0 otherwise; in target self-attention the energy of a key
    j > i is the sentinel, the energy of a key j <= i is the raw energy,
    and the probability of a key j > i is at most
    exp(-(e' + 1e20) / sqrt(embed_size)) for the energy e' of any key of
    the row, the diagonal key included. *)
Theorem causal_mask_blocks_future_keys :
  forall (m : Transformer.t) (trg : tensor Z) (batch trg_len : nat),
    shape trg = [batch; trg_len] ->
    exists mask,
      Transformer.make_trg_mask m trg = Ok mask
      /\ shape mask = [batch; 1; trg_len; trg_len]
      /\ (forall n i j, i < trg_len -> j < trg_len ->
            get mask [n; 0; i; j] = if j <=? i then 1%R else 0%R)
      /\ (forall (E H : nat) (sa : SelfAttention.t) (x : tensor R),
            SelfAttention_valid E H sa ->
            shape x = [batch; trg_len; E] ->
            exists pr e0 e att,
              SelfAttention.project sa x x x = Ok pr
              /\ einsum_nqhd_nkhd_nhqk (SelfAttention.queries4 pr)
                                       (SelfAttention.keys4 pr) = Ok e0
              /\ SelfAttention.energy pr (Some (MaskFloat mask)) = Ok e
              /\ SelfAttention.probabilities sa x x x (Some (MaskFloat mask))
                 = Ok att
              /\ shape att = [batch; H; trg_len; trg_len]
              /\ forall n h i j,
                   n < batch -> h < H -> i < trg_len -> j < trg_len ->
                   (j <= i -> get e [n; h; i; j] = get e0 [n; h; i; j])
                   /\ (i < j ->
                       get e [n; h; i; j] = sentinel
                       /\ forall j', j' < trg_len ->
                            (0 <= get att [n; h; i; j]
                             <= exp (- (get e [n; h; i; j'] - sentinel)
                                     / py_sqrt (SelfAttention.embed_size sa)))%R)).
Proof.
  intros m trg N L Hs.
  eexists. split; [apply make_trg_mask_eq; exact Hs|].
  split; [reflexivity|]. split.
  - intros n i j Hi Hj. cbn [get]. apply (causal_entry N); assumption.
  - intros E H sa x Hvalid Hx.
    exact (target_self_attention E H sa x N L Hvalid Hx).
Qed.

Lemma steep_attention_valid : SelfAttention_valid 1 1 steep_attention.
Proof.
  unfold SelfAttention_valid, steep_attention, steep_linear. simpl.
  repeat split; lia.
Qed.

Lemma causal_mask_blocks_future_keys_witness :
  exists mask att,
    Transformer.make_trg_mask demo_model two_tokens = Ok mask
    /\ shape mask = [1; 1; 2; 2]
    /\ get mask [0; 0; 0; 1] = 0%R
    /\ get mask [0; 0; 1; 1] = 1%R
    /\ SelfAttention.probabilities steep_attention steep_hidden steep_hidden
         steep_hidden (Some (MaskFloat mask)) = Ok att
    /\ shape att = [1; 1; 2; 2].
Proof.
  destruct (causal_mask_blocks_future_keys demo_model two_tokens 1 2 eq_refl)
    as (mask & Hm & Hs & Hg & Hatt).
  destruct (Hatt 1 1 steep_attention steep_hidden steep_attention_valid
              eq_refl) as (pr & e0 & e & att & _ & _ & _ & Hprob & Hsa & _).
  exists mask, att. split; [exact Hm|]. split; [exact Hs|].
  split; [rewrite Hg by lia; reflexivity|].
  split; [rewrite Hg by lia; reflexivity|].
  split; assumption.
Defined.

(** Counterexample to C5 as worded: the fill value is finite, so a raw
    energy below it wins.  With a query weight of 2e20 and a key weight
    of -1 the only permitted key of query 0 has energy -2e20, and the
    future key 1, filled with -1e20, receives at least half of the
    probability. *)
Lemma future_key_can_dominate :
  match
    entry (mask <~ Transformer.make_trg_mask demo_model two_tokens ;;
           SelfAttention.probabilities steep_attention steep_hidden
             steep_hidden steep_hidden (Some (MaskFloat mask)))
          [0; 0; 0; 1]
  with
  | Some p => (1 / 2 <= p)%R
  | None => False
  end.
Proof.
  rewrite (make_trg_mask_eq demo_model two_tokens 1 2 eq_refl).
  cbn [rbind].
  set (mask := {| shape := [1; 1; 2; 2];
                  get := fun idx => bget (causal 2) idx |}).
  destruct (probabilities_ok 1 1 steep_attention steep_attention_valid
              steep_hidden steep_hidden steep_hidden (Some (MaskFloat mask))
              1 2 2 2 eq_refl eq_refl eq_refl (trg_mask_fits 1 1 2))
    as (yk & yq & pr & e0 & e & att & Hyk & Hyq & _ & _ & _ & _ & _ & Hraw
        & _ & _ & Hge & Hse0 & _ & Hprob & _ & Hg).
  rewrite Hprob. cbn [entry]. rewrite Hg.
  unfold scaled_softmax_over_keys, Rsum. cbn [seq map fold_right].
  (* the two energies of row 0 *)
  assert (H1 : get e [0; 0; 0; 1] = sentinel).
  { rewrite Hge.
    pose proof (proj2 (trg_mask_masked_out 1 2 0 0 0 1 ltac:(lia) ltac:(lia)
                         ltac:(lia)) ltac:(lia)) as Hz.
    apply masked_out_iff in Hz. fold mask in Hz. rewrite Hz. reflexivity. }
  assert (H0 : get e [0; 0; 0; 0] = (-2e20)%R).
  { rewrite Hge.
    destruct (bget (mask_eq0 (MaskFloat mask)) [0; 0; 0; 0]) eqn:Hb.
    { apply masked_out_iff in Hb.
      apply (trg_mask_masked_out 1 2 0 0 0 0) in Hb; lia. }
    rewrite bget_in_range by (rewrite Hse0; repeat constructor; lia).
    rewrite Hraw by lia.
    destruct (Linear_forward_ok (SelfAttention.keys steep_attention)
                steep_hidden [1; 2] eq_refl) as (yk' & Hyk' & _ & Hgk).
    destruct (Linear_forward_ok (SelfAttention.queries steep_attention)
                steep_hidden [1; 2] eq_refl) as (yq' & Hyq' & _ & Hgq).
    assert (yk' = yk) by congruence. assert (yq' = yq) by congruence.
    subst yk' yq'.
    change (Z.to_nat (SelfAttention.head_dim steep_attention)) with 1.
    unfold Rsum. cbn [seq map fold_right].
    rewrite Hgk, Hgq.
    change (Linear.in_features (SelfAttention.keys steep_attention)) with 1.
    change (Linear.in_features (SelfAttention.queries steep_attention)) with 1.
    unfold Rsum. simpl. lra. }
  rewrite H0, H1. cbn [SelfAttention.embed_size steep_attention].
  rewrite sqrt_1. unfold sentinel.
  replace (-1e20 / 1)%R with (-1e20)%R by lra.
  replace (-2e20 / 1)%R with (-2e20)%R by lra.
  assert (Hle : (exp (-2e20) <= exp (-1e20))%R).
  { left. apply exp_increasing. lra. }
  pose proof (exp_pos (-1e20)) as Hp1. pose proof (exp_pos (-2e20)) as Hp2.
  apply Rmult_le_reg_r with (exp (-2e20) + (exp (-1e20) + 0))%R; [lra|].
  replace (exp (-1e20) / (exp (-2e20) + (exp (-1e20) + 0))
           * (exp (-2e20) + (exp (-1e20) + 0)))%R
    with (exp (-1e20)) by (field; lra).
  lra.
Qed.

(** C10: the target mask is a function of the shape of the target tensor
    alone.  Two targets of the same shape get the same mask; the mask
    entry at a key position at or before the query position is 1 whatever
    token stands there, the padding id included; and in target
    self-attention the energy of such a key is the raw energy, as for any
    other token. *)
Theorem make_trg_mask_ignores_tokens :
  (forall (m : Transformer.t) (trg1 trg2 : tensor Z),
      shape trg1 = shape trg2 ->
      Transformer.make_trg_mask m trg1 = Transformer.make_trg_mask m trg2)
  /\
  (forall (m : Transformer.t) (trg : tensor Z) (batch trg_len : nat),
      shape trg = [batch; trg_len] ->
      exists mask,
        Transformer.make_trg_mask m trg = Ok mask
        /\ (forall n i j, i < trg_len -> j <= i ->
              get mask [n; 0; i; j] = 1%R)
        /\ (forall (E H : nat) (sa : SelfAttention.t) (x : tensor R),
              SelfAttention_valid E H sa ->
              shape x = [batch; trg_len; E] ->
              exists pr e0 e,
                SelfAttention.project sa x x x = Ok pr
                /\ einsum_nqhd_nkhd_nhqk (SelfAttention.queries4 pr)
                                         (SelfAttention.keys4 pr) = Ok e0
                /\ SelfAttention.energy pr (Some (MaskFloat mask)) = Ok e
                /\ forall n h i j,
                     n < batch -> h < H -> i < trg_len -> j <= i ->
                     get e [n; h; i; j] = get e0 [n; h; i; j])).
Proof.
  split.
  - intros m trg1 trg2 Hs.
    unfold Transformer.make_trg_mask, shape2. rewrite Hs. reflexivity.
  - intros m trg N L Hs. eexists. split; [|split].
    + apply make_trg_mask_eq. exact Hs.
    + intros n i j Hi Hj. cbn [get].
      rewrite (causal_entry N) by lia.
      destruct (Nat.leb_spec j i); [reflexivity | lia].
    + intros E H sa x Hvalid Hx.
      destruct (target_self_attention E H sa x N L Hvalid Hx)
        as (pr & e0 & e & att & Hpr & He0 & He & _ & _ & Hent).
      exists pr, e0, e. repeat (split; [assumption|]).
      intros n h i j Hn Hh Hi Hj.
      apply (Hent n h i j); try assumption; lia.
Qed.

Lemma make_trg_mask_ignores_tokens_witness :
  Transformer.make_trg_mask demo_model trg_padded
  = Transformer.make_trg_mask demo_model trg_plain
  /\ exists mask,
       Transformer.make_trg_mask demo_model trg_padded = Ok mask
       /\ get trg_padded [0; 2] = Transformer.trg_pad_idx demo_model
       /\ get mask [0; 0; 2; 2] = 1%R.
Proof.
  destruct make_trg_mask_ignores_tokens as [Hsame Hmask].
  split; [apply Hsame; reflexivity|].
  destruct (Hmask demo_model trg_padded 1 3 eq_refl) as (mask & Hm & Hg & _).
  exists mask. split; [exact Hm|]. split; [reflexivity|].
  apply Hg; lia.
Defined.

(** ** What the constructors establish *)

Lemma LayerNorm_init_inv (n : Z) (s s1 : alloc) l :
  LayerNorm.init n s = (Ok l, s1) ->
  LayerNorm.normalized_shape l = Z.to_nat n.
Proof.
  unfold LayerNorm.init. destruct s as [k values].
  destruct (Z.ltb_spec n 0); [discriminate|].
  intros Heq. inversion Heq. reflexivity.
Qed.

Lemma Embedding_init_inv (n d : Z) (s s1 : alloc) e :
  Embedding.init n d s = (Ok e, s1) ->
  Embedding.num_embeddings e = Z.to_nat n
  /\ Embedding.embedding_dim e = Z.to_nat d.
Proof.
  unfold Embedding.init. destruct s as [k values].
  destruct ((n <? 0) || (d <? 0))%Z; [discriminate|].
  intros Heq. inversion Heq. split; reflexivity.
Qed.

Lemma Dropout_init_inv (p : Q) d :
  Dropout.init p = Ok d -> Dropout.p d = p.
Proof.
  unfold Dropout.init. destruct (Qle_bool 0 p && Qle_bool p 1); [|discriminate].
  intros Heq. inversion Heq. reflexivity.
Qed.

Lemma SelfAttention_init_valid (embed_size heads : Z) (s s1 : alloc) sa :
  SelfAttention.init embed_size heads s = (Ok sa, s1) ->
  (0 < heads)%Z ->
  SelfAttention_valid (Z.to_nat embed_size) (Z.to_nat heads) sa.
Proof.
  intros Hrun Hh. unfold SelfAttention.init in Hrun. inv_run Hrun.
  apply lift_ok_inv in Hstep as [Hdiv _].
  apply lift_ok_inv in Hstep0 as [Hassert _].
  unfold py_floordiv in Hdiv.
  destruct (Z.eqb_spec heads 0); [discriminate|]. inversion Hdiv; subst a.
  unfold py_assert in Hassert.
  destruct (Z.eqb_spec (embed_size / heads * heads) embed_size) as [Hm|];
    [|discriminate].
  apply Linear_init_inv in Hstep1 as (? & ? & ? & _).
  apply Linear_init_inv in Hstep2 as (? & ? & _).
  apply Linear_init_inv in Hstep3 as (? & ? & _).
  apply Linear_init_inv in Hstep4 as (? & ? & _).
  unfold SelfAttention_valid. simpl. repeat split; assumption.
Qed.

Lemma TransformerBlock_init_inv
    (embed_size heads : Z) (dropout : Q) (forward_expansion : Z)
    (s s1 : alloc) tb :
  TransformerBlock.init embed_size heads dropout forward_expansion s
  = (Ok tb, s1) ->
  (0 < heads)%Z ->
  TransformerBlock_valid (Z.to_nat embed_size) (Z.to_nat heads) tb
  /\ Linear.out_features (TransformerBlock.expand_layer tb)
     = Z.to_nat (forward_expansion * embed_size)
  /\ Dropout.p (TransformerBlock.dropout tb) = dropout.
Proof.
  intros Hrun Hh. unfold TransformerBlock.init in Hrun. inv_run Hrun.
  apply SelfAttention_init_valid in Hstep; [|exact Hh].
  apply LayerNorm_init_inv in Hstep0, Hstep1.
  apply Linear_init_inv in Hstep2 as (? & ? & _).
  apply Linear_init_inv in Hstep3 as (? & ? & _).
  apply lift_ok_inv in Hstep4 as [Hd _]. apply Dropout_init_inv in Hd.
  unfold TransformerBlock_valid. simpl.
  split; [split; [exact Hstep|]|]; repeat split; try assumption; congruence.
Qed.

Lemma DecoderBlock_init_inv
    (embed_size heads forward_expansion : Z) (dropout : Q)
    (s s1 : alloc) b :
  DecoderBlock.init embed_size heads forward_expansion dropout s = (Ok b, s1) ->
  (0 < heads)%Z ->
  DecoderBlock_valid (Z.to_nat embed_size) (Z.to_nat heads) b
  /\ Dropout.p (DecoderBlock.dropout b) = dropout
  /\ Dropout.p (TransformerBlock.dropout (DecoderBlock.transformer_block b))
     = dropout.
Proof.
  intros Hrun Hh. unfold DecoderBlock.init in Hrun. inv_run Hrun.
  apply LayerNorm_init_inv in Hstep.
  apply SelfAttention_init_valid in Hstep0; [|exact Hh].
  apply TransformerBlock_init_inv in Hstep1 as (? & _ & ?); [|exact Hh].
  apply lift_ok_inv in Hstep2 as [Hd _]. apply Dropout_init_inv in Hd.
  unfold DecoderBlock_valid. simpl.
  split; [split; [|split]|split]; assumption.
Qed.

(** Every element of a list built by a comprehension satisfies what each
    successful call of the constructor establishes. *)
Lemma replicateM_inv {S A} (P : A -> Prop) (make : M S A) (n : nat) :
  (forall s a s1, make s = (Ok a, s1) -> P a) ->
  forall s l s1, replicateM n make s = (Ok l, s1) -> Forall P l.
Proof.
  intros Hmake. induction n as [|n IH]; intros s l s1 Hrun; simpl in Hrun.
  - apply ret_ok_inv in Hrun as [-> _]. constructor.
  - inv_run Hrun. constructor; [eapply Hmake | eapply IH]; eassumption.
Qed.

Lemma Decoder_init_inv
    (trg_vocab_size embed_size num_layers heads forward_expansion : Z)
    (dropout : Q) (max_length : Z) (s s1 : alloc) dec :
  Decoder.init trg_vocab_size embed_size num_layers heads forward_expansion
               dropout max_length s = (Ok dec, s1) ->
  (0 < heads)%Z ->
  Decoder_valid (Z.to_nat embed_size) (Z.to_nat heads)
                (Z.to_nat trg_vocab_size) (Z.to_nat max_length) dec.
Proof.
  intros Hrun Hh. unfold Decoder.init in Hrun. inv_run Hrun.
  apply Embedding_init_inv in Hstep as [? ?].
  apply Embedding_init_inv in Hstep0 as [? ?].
  apply Linear_init_inv in Hstep2 as (? & ? & _).
  unfold Decoder_valid. simpl.
  do 4 (split; [assumption|]). split; [|split; assumption].
  eapply replicateM_inv; [|exact Hstep1].
  intros s' b s1' Hb. apply DecoderBlock_init_inv in Hb; [|exact Hh].
  apply Hb.
Qed.

(** ** [forward] of the blocks on well-shaped inputs *)

Lemma bind_lift_ok {S A B} (r : result A) (k : A -> M S B) (a : A) (s : S) :
  r = Ok a -> bind (lift r) k s = k a s.
Proof. intros ->. reflexivity. Qed.

Lemma Dropout_forward_ok (d : Dropout.t) (x : tensor R) (g : rng) :
  exists y g', Dropout.forward d x g = (Ok y, g') /\ shape y = shape x.
Proof.
  unfold Dropout.forward. destruct (Dropout.training d).
  - eexists. eexists. split; reflexivity.
  - eexists. eexists. split; reflexivity.
Qed.

Lemma TransformerBlock_forward_ok (E H : nat) (tb : TransformerBlock.t)
    (v k q : tensor R) (mask : option mask_t) (n lk lq : nat) (g : rng) :
  TransformerBlock_valid E H tb ->
  shape v = [n; lk; E] -> shape k = [n; lk; E] -> shape q = [n; lq; E] ->
  mask_fits mask [n; H; lq; lk] ->
  exists out g',
    TransformerBlock.forward tb v k q mask g = (Ok out, g')
    /\ shape out = [n; lq; E].
Proof.
  intros (Hsa & Hn1 & Hn2 & He & Hp & Hpo) Hv Hk Hq Hm.
  destruct (SelfAttention_forward_ok E H _ Hsa v k q mask n lk lq Hv Hk Hq Hm)
    as (att & Hatt & Satt).
  destruct (tadd_same_shape att q) as (s1 & Hs1 & Ss1); [congruence|].
  destruct (LayerNorm_forward_ok (TransformerBlock.norm1 tb) s1 [n; lq])
    as (n1 & Hnorm1 & Sn1); [rewrite Ss1, Hq, Hn1; reflexivity|].
  destruct (Dropout_forward_ok (TransformerBlock.dropout tb) n1 g)
    as (x & g1 & Hx & Sx).
  assert (Sx' : shape x = [n; lq; E]) by congruence.
  destruct (Linear_forward_ok (TransformerBlock.expand_layer tb) x [n; lq])
    as (h & Hh & Sh & _); [rewrite Sx', He; reflexivity|].
  destruct (Linear_forward_ok (TransformerBlock.project_layer tb) (relu h)
              [n; lq]) as (f & Hf & Sf & _).
  { cbn [relu shape]. rewrite Sh, Hp. reflexivity. }
  assert (Hff : TransformerBlock.feed_forward tb x = Ok f).
  { unfold TransformerBlock.feed_forward. rewrite Hh. exact Hf. }
  destruct (tadd_same_shape f x) as (s2 & Hs2 & Ss2);
    [rewrite Sf, Hpo, Sx'; reflexivity|].
  destruct (LayerNorm_forward_ok (TransformerBlock.norm2 tb) s2 [n; lq])
    as (n2 & Hnorm2 & Sn2); [rewrite Ss2, Sx', Hn2; reflexivity|].
  destruct (Dropout_forward_ok (TransformerBlock.dropout tb) n2 g1)
    as (out & g2 & Hout & Sout).
  exists out, g2. split; [|congruence].
  unfold TransformerBlock.forward.
  rewrite (bind_lift_ok _ _ _ _ Hatt), (bind_lift_ok _ _ _ _ Hs1),
    (bind_lift_ok _ _ _ _ Hnorm1), (bind_ok _ Hx),
    (bind_lift_ok _ _ _ _ Hff), (bind_lift_ok _ _ _ _ Hs2),
    (bind_lift_ok _ _ _ _ Hnorm2).
  exact Hout.
Qed.

Lemma DecoderBlock_forward_ok (E H : nat) (b : DecoderBlock.t)
    (x enc : tensor R) (src_mask trg_mask : option mask_t)
    (n lt ls : nat) (g : rng) :
  DecoderBlock_valid E H b ->
  shape x = [n; lt; E] -> shape enc = [n; ls; E] ->
  mask_fits src_mask [n; H; lt; ls] -> mask_fits trg_mask [n; H; lt; lt] ->
  exists out g',
    DecoderBlock.forward b x enc enc src_mask trg_mask g = (Ok out, g')
    /\ shape out = [n; lt; E].
Proof.
  intros (Hn & Hsa & Htb) Hx Henc Hsm Htm.
  destruct (SelfAttention_forward_ok E H _ Hsa x x x trg_mask n lt lt
              Hx Hx Hx Htm) as (att & Hatt & Satt).
  destruct (tadd_same_shape att x) as (s & Hs & Ss); [congruence|].
  destruct (LayerNorm_forward_ok (DecoderBlock.norm b) s [n; lt])
    as (nm & Hnm & Snm); [rewrite Ss, Hx, Hn; reflexivity|].
  destruct (Dropout_forward_ok (DecoderBlock.dropout b) nm g)
    as (query & g1 & Hquery & Squery).
  assert (Sq : shape query = [n; lt; E]) by congruence.
  destruct (TransformerBlock_forward_ok E H _ enc enc query src_mask n ls lt g1
              Htb Henc Henc Sq Hsm) as (out & g2 & Hout & Sout).
  exists out, g2. split; [|exact Sout].
  unfold DecoderBlock.forward.
  rewrite (bind_lift_ok _ _ _ _ Hatt), (bind_lift_ok _ _ _ _ Hs),
    (bind_lift_ok _ _ _ _ Hnm), (bind_ok _ Hquery).
  exact Hout.
Qed.

Lemma In_indices (s : list nat) (idx : list nat) :
  In idx (indices s) -> Forall2 lt idx s.
Proof.
  revert idx. induction s as [|d s IH]; intros idx Hin; simpl in Hin.
  - destruct Hin as [<-|[]]. constructor.
  - apply in_flat_map in Hin as (i & Hi & Hin).
    apply in_map_iff in Hin as (idx' & <- & Hin').
    apply in_seq in Hi. constructor; [lia | apply IH; exact Hin'].
Qed.

Lemma Embedding_forward_ok (emb : Embedding.t) (x : tensor Z) :
  (forall idx, Forall2 lt idx (shape x) ->
               (0 <= get x idx < Z.of_nat (Embedding.num_embeddings emb))%Z) ->
  exists y, Embedding.forward emb x = Ok y
            /\ shape y = shape x ++ [Embedding.embedding_dim emb].
Proof.
  intros Hr. unfold Embedding.forward.
  assert (Hall : forallb (fun idx => Embedding.in_range emb (get x idx))
                         (indices (shape x)) = true).
  { apply forallb_forall. intros idx Hin. apply In_indices in Hin.
    specialize (Hr idx Hin). unfold Embedding.in_range.
    apply andb_true_intro. split; [apply Z.leb_le | apply Z.ltb_lt]; lia. }
  rewrite Hall. eexists. split; reflexivity.
Qed.

Lemma positions_ok (N L : nat) :
  exists p, expand (arange L) [N; L] = Ok p
            /\ shape p = [N; L]
            /\ forall n l, n < N -> l < L -> get p [n; l] = Z.of_nat l.
Proof.
  unfold expand, broadcast_shapes. cbn [arange shape length rev app bshape_rev].
  rewrite bdim_refl. cbn [option_map rev app Nat.leb].
  rewrite shape_eqb_refl.
  eexists. split; [reflexivity|]. split; [reflexivity|].
  intros n l Hn Hl. cbn [get]. unfold bget, bidx.
  cbn [shape arange length Nat.sub skipn bidx_aligned get nth].
  destruct (Nat.eqb_spec L 1); [f_equal; lia | reflexivity].
Qed.

Lemma embed_ok (word position : Embedding.t) (drop : Dropout.t)
    (x : tensor Z) (E N L : nat) (g : rng) :
  Embedding.embedding_dim word = E -> Embedding.embedding_dim position = E ->
  shape x = [N; L] ->
  (forall n l, n < N -> l < L ->
     (0 <= get x [n; l] < Z.of_nat (Embedding.num_embeddings word))%Z) ->
  L <= Embedding.num_embeddings position ->
  exists y g', embed word position drop x g = (Ok y, g')
               /\ shape y = [N; L; E].
Proof.
  intros Hw Hp Hs Htok Hlen.
  destruct (positions_ok N L) as (pos & Hpos & Spos & Gpos).
  destruct (Embedding_forward_ok word x) as (w & Hwf & Sw).
  { intros idx Hidx. rewrite Hs in Hidx.
    inversion Hidx as [|n0 ? ? ? Hn Hidx1]; subst.
    inversion Hidx1 as [|l0 ? ? ? Hl Hidx2]; subst.
    inversion Hidx2; subst. apply Htok; assumption. }
  destruct (Embedding_forward_ok position pos) as (p & Hpf & Sp).
  { intros idx Hidx. rewrite Spos in Hidx.
    inversion Hidx as [|n0 ? ? ? Hn Hidx1]; subst.
    inversion Hidx1 as [|l0 ? ? ? Hl Hidx2]; subst.
    inversion Hidx2; subst. rewrite Gpos by assumption. lia. }
  destruct (tadd_same_shape w p) as (s & Hsum & Ss).
  { rewrite Sw, Sp, Hs, Spos, Hw, Hp. reflexivity. }
  destruct (Dropout_forward_ok drop s g) as (y & g' & Hy & Sy).
  exists y, g'. split.
  - unfold embed, shape2. rewrite Hs. rewrite (bind_lift_ok _ _ (N, L) _ eq_refl).
    rewrite (bind_lift_ok _ _ _ _ Hpos), (bind_lift_ok _ _ _ _ Hwf),
      (bind_lift_ok _ _ _ _ Hpf), (bind_lift_ok _ _ _ _ Hsum).
    exact Hy.
  - rewrite Sy, Ss, Sp, Spos, Hp. reflexivity.
Qed.

Lemma decoder_layers_ok (E H : nat) (layers : list DecoderBlock.t)
    (enc : tensor R) (src_mask trg_mask : option mask_t) (n lt ls : nat) :
  Forall (DecoderBlock_valid E H) layers ->
  shape enc = [n; ls; E] ->
  mask_fits src_mask [n; H; lt; ls] -> mask_fits trg_mask [n; H; lt; lt] ->
  forall (x : tensor R) (g : rng),
    shape x = [n; lt; E] ->
    exists out g',
      foldM (fun layer x =>
               DecoderBlock.forward layer x enc enc src_mask trg_mask)
            layers x g = (Ok out, g')
      /\ shape out = [n; lt; E].
Proof.
  intros Hall Henc Hsm Htm.
  induction Hall as [|b layers Hb _ IH]; intros x g Hx.
  - exists x, g. split; [reflexivity | exact Hx].
  - destruct (DecoderBlock_forward_ok E H b x enc src_mask trg_mask n lt ls g
                Hb Hx Henc Hsm Htm) as (x1 & g1 & Hx1 & Sx1).
    destruct (IH x1 g1 Sx1) as (out & g2 & Hout & Sout).
    exists out, g2. split; [|exact Sout].
    cbn [foldM]. rewrite (bind_ok _ Hx1). exact Hout.
Qed.

(** ** [TransformerBlock.forward] and [Decoder.forward] *)

Lemma tadd_entries (a b : tensor R) :
  shape a = shape b ->
  exists y, tadd a b = Ok y /\ shape y = shape b
            /\ forall idx, Forall2 lt idx (shape b) ->
                 get y idx = (get a idx + get b idx)%R.
Proof.
  intros Hs. unfold tadd. rewrite Hs, broadcast_shapes_refl.
  eexists. split; [reflexivity|]. split; [reflexivity|].
  intros idx Hin. cbn [get].
  rewrite !bget_in_range; [reflexivity | exact Hin | rewrite Hs; exact Hin].
Qed.

Lemma LayerNorm_forward_entries (l : LayerNorm.t) (x : tensor R)
    (pre : list nat) :
  shape x = pre ++ [LayerNorm.normalized_shape l] ->
  exists y,
    LayerNorm.forward l x = Ok y /\ shape y = shape x
    /\ forall idx, idx <> [] ->
         get y idx
         = mean_variance_normalized (LayerNorm.normalized_shape l)
             (fun e => get x (removelast idx ++ [e]))
             (LayerNorm.eps l) (LayerNorm.weight l (last idx 0%nat))
             (LayerNorm.bias l (last idx 0%nat)) (last idx 0%nat).
Proof.
  intros Hs. unfold LayerNorm.forward. rewrite Hs, rev_app_distr. simpl.
  rewrite Nat.eqb_refl.
  eexists. split; [reflexivity|]. split; [reflexivity|].
  intros idx Hne. cbn [get].
  unfold mean_variance_normalized, row_variance, row_mean.
  rewrite <- (app_removelast_last 0%nat Hne). reflexivity.
Qed.

Lemma Dropout_forward_entries (d : Dropout.t) (x : tensor R) (g : rng) :
  exists y,
    Dropout.forward d x g
    = (Ok y, after_regularization (Dropout.training d) (numel (shape x)) g)
    /\ shape y = shape x
    /\ forall idx,
         get y idx
         = regularized (Dropout.training d) (Q2R (Dropout.p d))
                       (g (ravel (shape x) idx)) (get x idx).
Proof.
  unfold Dropout.forward, after_regularization, regularized.
  destruct (Dropout.training d); eexists;
    (split; [reflexivity|]); split; reflexivity.
Qed.

(** C6: [TransformerBlock.forward], step by step and entry by entry, for
    every block with the widths [__init__] gives it (the feed-forward
    network goes from embed_size to forward_expansion * embed_size and
    back).  The attention mixer runs on (value, key, query, mask); its
    output is added to the query; the sum is normalized over the
    embedding axis (mean subtracted, divided by the square root of the
    variance plus eps, scaled and shifted); the result is regularized;
    the first linear layer is applied and followed by max(0, .); the
    second linear layer projects back; the network's output is added to
    the network's input; the sum is normalized again and regularized
    again.  The result has the shape of the query. *)
Theorem TransformerBlock_forward_order :
  (forall (embed_size heads : Z) (dropout : Q) (forward_expansion : Z)
          (s s' : alloc) (tb : TransformerBlock.t),
      TransformerBlock.init embed_size heads dropout forward_expansion s
      = (Ok tb, s') ->
      (0 < heads)%Z ->
      TransformerBlock_valid (Z.to_nat embed_size) (Z.to_nat heads) tb
      /\ Linear.in_features (TransformerBlock.expand_layer tb)
         = Z.to_nat embed_size
      /\ Linear.out_features (TransformerBlock.expand_layer tb)
         = Z.to_nat (forward_expansion * embed_size)
      /\ Linear.in_features (TransformerBlock.project_layer tb)
         = Z.to_nat (forward_expansion * embed_size)
      /\ Linear.out_features (TransformerBlock.project_layer tb)
         = Z.to_nat embed_size)
  /\
  (forall (E H : nat) (tb : TransformerBlock.t)
          (value key query : tensor R) (mask : option mask_t)
          (batch key_len query_len : nat) (g : rng),
      TransformerBlock_valid E H tb ->
      shape value = [batch; key_len; E] ->
      shape key = [batch; key_len; E] ->
      shape query = [batch; query_len; E] ->
      mask_fits mask [batch; H; query_len; key_len] ->
      exists mixed residual1 normalized1 x hidden fed residual2 normalized2
             out,
        SelfAttention.forward (TransformerBlock.attention tb)
                              value key query mask = Ok mixed
        /\ TransformerBlock.forward tb value key query mask g
           = (Ok out,
              after_regularization
                (Dropout.training (TransformerBlock.dropout tb))
                (numel [batch; query_len; E])
                (after_regularization
                   (Dropout.training (TransformerBlock.dropout tb))
                   (numel [batch; query_len; E]) g))
        /\ shape out = shape query
        /\ forall n q e, n < batch -> q < query_len -> e < E ->
             get residual1 [n; q; e]
             = (get mixed [n; q; e] + get query [n; q; e])%R
             /\ get normalized1 [n; q; e]
                = mean_variance_normalized E
                    (fun e' => get residual1 [n; q; e'])
                    (LayerNorm.eps (TransformerBlock.norm1 tb))
                    (LayerNorm.weight (TransformerBlock.norm1 tb) e)
                    (LayerNorm.bias (TransformerBlock.norm1 tb) e) e
             /\ get x [n; q; e]
                = regularized
                    (Dropout.training (TransformerBlock.dropout tb))
                    (Q2R (Dropout.p (TransformerBlock.dropout tb)))
                    (g (ravel [batch; query_len; E] [n; q; e]))
                    (get normalized1 [n; q; e])
             /\ (forall j,
                   get hidden [n; q; j]
                   = Rmax 0
                       (Rsum E
                          (fun e' =>
                             get x [n; q; e']
                             * Linear.weight
                                 (TransformerBlock.expand_layer tb) j e')
                        + Linear.bias (TransformerBlock.expand_layer tb) j)%R)
             /\ get fed [n; q; e]
                = (Rsum (Linear.out_features
                           (TransformerBlock.expand_layer tb))
                     (fun j =>
                        get hidden [n; q; j]
                        * Linear.weight (TransformerBlock.project_layer tb)
                                        e j)
                   + Linear.bias (TransformerBlock.project_layer tb) e)%R
             /\ get residual2 [n; q; e]
                = (get fed [n; q; e] + get x [n; q; e])%R
             /\ get normalized2 [n; q; e]
                = mean_variance_normalized E
                    (fun e' => get residual2 [n; q; e'])
                    (LayerNorm.eps (TransformerBlock.norm2 tb))
                    (LayerNorm.weight (TransformerBlock.norm2 tb) e)
                    (LayerNorm.bias (TransformerBlock.norm2 tb) e) e
             /\ get out [n; q; e]
                = regularized
                    (Dropout.training (TransformerBlock.dropout tb))
                    (Q2R (Dropout.p (TransformerBlock.dropout tb)))
                    (after_regularization
                       (Dropout.training (TransformerBlock.dropout tb))
                       (numel [batch; query_len; E]) g
                       (ravel [batch; query_len; E] [n; q; e]))
                    (get normalized2 [n; q; e])).
Proof.
  split.
  { intros E H p fe s s' tb Hrun Hh.
    destruct (TransformerBlock_init_inv E H p fe s s' tb Hrun Hh)
      as (Hvalid & Hwide & _).
    split; [exact Hvalid|].
    destruct Hvalid as (_ & _ & _ & He & Hp & Hpo).
    repeat split; congruence. }
  intros E H tb v k q mask n lk lq g (Hsa & Hn1 & Hn2 & He & Hp & Hpo)
         Hv Hk Hq Hm.
  destruct (SelfAttention_forward_ok E H _ Hsa v k q mask n lk lq Hv Hk Hq Hm)
    as (att & Hatt & Satt).
  destruct (tadd_entries att q) as (s1 & Hs1 & Ss1 & Gs1); [congruence|].
  destruct (LayerNorm_forward_entries (TransformerBlock.norm1 tb) s1 [n; lq])
    as (n1 & Hnorm1 & Sn1 & Gn1); [rewrite Ss1, Hq, Hn1; reflexivity|].
  assert (Sn1' : shape n1 = [n; lq; E]) by congruence.
  destruct (Dropout_forward_entries (TransformerBlock.dropout tb) n1 g)
    as (x & Hx & Sx & Gx).
  rewrite Sn1' in Hx, Sx, Gx.
  destruct (Linear_forward_ok (TransformerBlock.expand_layer tb) x [n; lq])
    as (h & Hh & Sh & Gh); [rewrite Sx, He; reflexivity|].
  destruct (Linear_forward_ok (TransformerBlock.project_layer tb) (relu h)
              [n; lq]) as (f & Hf & Sf & Gf).
  { cbn [relu shape]. rewrite Sh, Hp. reflexivity. }
  assert (Hff : TransformerBlock.feed_forward tb x = Ok f).
  { unfold TransformerBlock.feed_forward. rewrite Hh. exact Hf. }
  destruct (tadd_entries f x) as (s2 & Hs2 & Ss2 & Gs2);
    [rewrite Sf, Hpo, Sx; reflexivity|].
  destruct (LayerNorm_forward_entries (TransformerBlock.norm2 tb) s2 [n; lq])
    as (n2 & Hnorm2 & Sn2 & Gn2); [rewrite Ss2, Sx, Hn2; reflexivity|].
  assert (Sn2' : shape n2 = [n; lq; E]) by congruence.
  destruct (Dropout_forward_entries (TransformerBlock.dropout tb) n2
              (after_regularization
                 (Dropout.training (TransformerBlock.dropout tb))
                 (numel [n; lq; E]) g))
    as (out & Hout & Sout & Gout).
  rewrite Sn2' in Hout, Sout, Gout.
  exists att, s1, n1, x, (relu h), f, s2, n2, out.
  split; [exact Hatt|]. split.
  { unfold TransformerBlock.forward.
    rewrite (bind_lift_ok _ _ _ _ Hatt), (bind_lift_ok _ _ _ _ Hs1),
      (bind_lift_ok _ _ _ _ Hnorm1), (bind_ok _ Hx),
      (bind_lift_ok _ _ _ _ Hff), (bind_lift_ok _ _ _ _ Hs2),
      (bind_lift_ok _ _ _ _ Hnorm2).
    exact Hout. }
  split; [congruence|].
  intros n_ q_ e_ Hn_ Hq_ He_.
  assert (Hin : Forall2 lt [n_; q_; e_] [n; lq; E])
    by (repeat constructor; assumption).
  split; [apply Gs1; rewrite Hq; exact Hin|].
  split; [rewrite Gn1, Hn1 by discriminate; reflexivity|].
  split; [apply Gx|].
  split.
  { intros j. cbn [relu get]. rewrite Gh, He. reflexivity. }
  split; [rewrite Gf, Hp; reflexivity|].
  split; [apply Gs2; rewrite Sx; exact Hin|].
  split; [rewrite Gn2, Hn2 by discriminate; reflexivity|].
  apply Gout.
Qed.

Lemma demo_block_valid : TransformerBlock_valid 2 1 demo_block.
Proof.
  unfold TransformerBlock_valid. split; [exact demo_attention_valid|].
  repeat split.
Qed.

Lemma TransformerBlock_forward_order_witness :
  (exists tb s',
      TransformerBlock.init 2 1 0%Q 4 fresh = (Ok tb, s')
      /\ Linear.out_features (TransformerBlock.expand_layer tb) = 8)
  /\ exists out g',
       TransformerBlock.forward demo_block demo_memory demo_memory demo_query
                                None quiet = (Ok out, g')
       /\ shape out = [1; 2; 2].
Proof.
  destruct TransformerBlock_forward_order as [Hinit Hsteps].
  split.
  - eexists. eexists. split; [reflexivity|].
    match goal with
    | |- Linear.out_features (TransformerBlock.expand_layer ?tb) = _ =>
        destruct (Hinit 2%Z 1%Z 0%Q 4%Z fresh _ tb eq_refl eq_refl)
          as (_ & _ & Hwide & _)
    end.
    exact Hwide.
  - destruct (Hsteps 2 1 demo_block demo_memory demo_memory demo_query None
                1 3 2 quiet demo_block_valid eq_refl eq_refl eq_refl I)
      as (mixed & r1 & n1 & x & h & f & r2 & n2 & out & _ & Hrun & Sout & _).
    exists out. eexists. split; [exact Hrun | exact Sout].
Defined.

Lemma Decoder_hidden_ok (E H V max_length : nat) (dec : Decoder.t)
    (x : tensor Z) (enc_out : tensor R) (src_mask trg_mask : option mask_t)
    (batch trg_len src_len : nat) (g : rng) :
  Decoder_valid E H V max_length dec ->
  shape x = [batch; trg_len] ->
  (forall n t, n < batch -> t < trg_len ->
     (0 <= get x [n; t] < Z.of_nat V)%Z) ->
  trg_len <= max_length ->
  shape enc_out = [batch; src_len; E] ->
  mask_fits src_mask [batch; H; trg_len; src_len] ->
  mask_fits trg_mask [batch; H; trg_len; trg_len] ->
  exists h g',
    Decoder.hidden dec x enc_out src_mask trg_mask g = (Ok h, g')
    /\ shape h = [batch; trg_len; E].
Proof.
  intros (HwV & HwE & HpL & HpE & Hlayers & _) Hx Htok Hlen Henc Hsm Htm.
  destruct (embed_ok (Decoder.word_embedding dec)
              (Decoder.position_embedding dec) (Decoder.dropout dec)
              x E batch trg_len g HwE HpE Hx) as (y & g1 & Hy & Sy).
  { rewrite HwV. exact Htok. }
  { rewrite HpL. exact Hlen. }
  destruct (decoder_layers_ok E H (Decoder.layers dec) enc_out src_mask
              trg_mask batch trg_len src_len Hlayers Henc Hsm Htm y g1 Sy)
    as (h & g2 & Hh & Sh).
  exists h, g2. split; [|exact Sh].
  unfold Decoder.hidden. rewrite (bind_ok _ Hy). exact Hh.
Qed.

(** C7: for target ids of shape (batch, trg_len) inside the vocabulary
    and no longer than the position table, [Decoder.forward] returns the
    output of the last decoder layer passed through one linear layer
    from embed_size to the target vocabulary size, and nothing after it:
    every logit is the affine combination of the hidden state given by
    the weights of [fc_out], and the result has shape
    (batch, trg_len, target_vocab_size) whatever the embedding size. *)
Theorem Decoder_forward_logits :
  forall (E H V max_length : nat) (dec : Decoder.t)
         (x : tensor Z) (enc_out : tensor R)
         (src_mask trg_mask : option mask_t)
         (batch trg_len src_len : nat) (g : rng),
    Decoder_valid E H V max_length dec ->
    shape x = [batch; trg_len] ->
    (forall n t, n < batch -> t < trg_len ->
       (0 <= get x [n; t] < Z.of_nat V)%Z) ->
    trg_len <= max_length ->
    shape enc_out = [batch; src_len; E] ->
    mask_fits src_mask [batch; H; trg_len; src_len] ->
    mask_fits trg_mask [batch; H; trg_len; trg_len] ->
    exists h out g',
      Decoder.hidden dec x enc_out src_mask trg_mask g = (Ok h, g')
      /\ shape h = [batch; trg_len; E]
      /\ Decoder.forward dec x enc_out src_mask trg_mask g = (Ok out, g')
      /\ shape out = [batch; trg_len; V]
      /\ forall n t v,
           get out [n; t; v]
           = (Rsum E (fun e => get h [n; t; e]
                               * Linear.weight (Decoder.fc_out dec) v e)
              + Linear.bias (Decoder.fc_out dec) v)%R.
Proof.
  intros E H V L dec x enc sm tm n lt ls g Hvalid Hx Htok Hlen Henc Hsm Htm.
  destruct (Decoder_hidden_ok E H V L dec x enc sm tm n lt ls g
              Hvalid Hx Htok Hlen Henc Hsm Htm) as (h & g' & Hh & Sh).
  destruct Hvalid as (_ & _ & _ & _ & _ & Hfi & Hfo).
  destruct (Linear_forward_ok (Decoder.fc_out dec) h [n; lt])
    as (out & Hout & Sout & Gout); [rewrite Sh, Hfi; reflexivity|].
  exists h, out, g'. split; [exact Hh|]. split; [exact Sh|]. split.
  - unfold Decoder.forward. rewrite (bind_ok _ Hh). unfold lift.
    rewrite Hout. reflexivity.
  - split; [rewrite Sout, Hfo; reflexivity|].
    intros a t v. rewrite Gout, Hfi. reflexivity.
Qed.

Lemma demo_decoder_valid : Decoder_valid 2 1 4 8 demo_decoder.
Proof.
  unfold Decoder_valid. do 4 (split; [reflexivity|]).
  split; [|split; reflexivity].
  constructor; [|constructor].
  unfold DecoderBlock_valid. split; [reflexivity|].
  split; [exact demo_attention_valid | exact demo_block_valid].
Qed.

Lemma Decoder_forward_logits_witness :
  exists out g',
    Decoder.forward demo_decoder trg_plain demo_memory None None quiet
    = (Ok out, g')
    /\ shape out = [1; 3; 4].
Proof.
  destruct (Decoder_forward_logits 2 1 4 8 demo_decoder trg_plain demo_memory
              None None 1 3 3 quiet demo_decoder_valid eq_refl)
    as (h & out & g' & _ & _ & Hout & Sout & _).
  - intros n t _ _. cbn. lia.
  - lia.
  - reflexivity.
  - exact I.
  - exact I.
  - exists out, g'. split; assumption.
Defined.

(** ** Determinism without dropout *)

Lemma deterministic_ret {A} (a : A) : deterministic (ret a).
Proof. intros g1 g2 V1 V2. split; [reflexivity | split; assumption]. Qed.

Lemma deterministic_lift {A} (r : result A) : deterministic (lift r).
Proof. intros g1 g2 V1 V2. split; [reflexivity | split; assumption]. Qed.

Lemma deterministic_bind {A B} (m : M rng A) (k : A -> M rng B) :
  deterministic m -> (forall a, deterministic (k a)) ->
  deterministic (bind m k).
Proof.
  intros Hm Hk g1 g2 V1 V2. unfold bind.
  destruct (Hm g1 g2 V1 V2) as (Hfst & W1 & W2).
  destruct (m g1) as [r1 s1], (m g2) as [r2 s2]. simpl in *. subst r2.
  destruct r1 as [a|e].
  - apply Hk; assumption.
  - split; [reflexivity | split; assumption].
Qed.

Lemma deterministic_foldM {A L} (f : L -> A -> M rng A) (ls : list L) :
  Forall (fun l => forall a, deterministic (f l a)) ls ->
  forall a, deterministic (foldM f ls a).
Proof.
  induction 1 as [|l ls Hl _ IH]; intros a; cbn [foldM].
  - apply deterministic_ret.
  - apply deterministic_bind; [apply Hl | exact IH].
Qed.

Lemma advance_valid (n : nat) (g : rng) : rng_valid g -> rng_valid (advance n g).
Proof. intros V k. apply V. Qed.

Lemma Dropout_forward_off (d : Dropout.t) (x : tensor R) (g : rng) :
  dropout_off d -> rng_valid g ->
  fst (Dropout.forward d x g)
  = Ok (if Dropout.training d
        then {| shape := shape x; get := fun idx => get x idx |}
        else x).
Proof.
  intros Hp V. unfold Dropout.forward.
  assert (H0 : Q2R (Dropout.p d) = 0%R).
  { rewrite (Qeq_eqR _ _ Hp). unfold Q2R. simpl. lra. }
  destruct (Dropout.training d); [|reflexivity].
  cbn [fst]. do 2 f_equal. apply functional_extensionality. intros idx.
  rewrite H0. specialize (V (ravel (shape x) idx)).
  destruct (Rlt_dec (g (ravel (shape x) idx)) (1 - 0)); [field | lra].
Qed.

Lemma deterministic_dropout (d : Dropout.t) (x : tensor R) :
  dropout_off d -> deterministic (Dropout.forward d x).
Proof.
  intros Hp g1 g2 V1 V2. split.
  - rewrite !Dropout_forward_off by assumption. reflexivity.
  - unfold Dropout.forward.
    destruct (Dropout.training d); cbn [snd];
      split; try assumption; apply advance_valid; assumption.
Qed.

(** With a dropout probability of 1/2 the result does depend on the
    generator: a draw of 0 keeps the element (scaled by 2), a draw of 1/2
    zeroes it. *)
Example dropout_depends_on_the_generator :
  entry (fst (Dropout.forward (Dropout.mk (1 # 2) true) demo_key quiet))
        [0; 0; 0] = Some 2%R
  /\ entry (fst (Dropout.forward (Dropout.mk (1 # 2) true) demo_key halves))
           [0; 0; 0] = Some 0%R.
Proof.
  unfold Dropout.forward, quiet, halves. cbn [Dropout.training fst entry get
                                               Dropout.p demo_key shape].
  assert (Hp : Q2R (1 # 2) = (1 / 2)%R) by (unfold Q2R; simpl; lra).
  rewrite Hp. split; f_equal.
  - destruct (Rlt_dec 0 (1 - 1 / 2)); [field | lra].
  - destruct (Rlt_dec (1 / 2) (1 - 1 / 2)); [lra | reflexivity].
Qed.

Lemma deterministic_block (tb : TransformerBlock.t) v k q mask :
  TransformerBlock_dropout_off tb ->
  deterministic (TransformerBlock.forward tb v k q mask).
Proof.
  intros Hp. unfold TransformerBlock.forward.
  repeat first [ apply deterministic_lift
               | apply deterministic_dropout; exact Hp
               | apply deterministic_bind; [|intros] ].
Qed.

Lemma deterministic_decoder_block (b : DecoderBlock.t) x v k sm tm :
  DecoderBlock_dropout_off b ->
  deterministic (DecoderBlock.forward b x v k sm tm).
Proof.
  intros [Hp Htb]. unfold DecoderBlock.forward.
  repeat first [ apply deterministic_lift
               | apply deterministic_dropout; exact Hp
               | apply deterministic_block; exact Htb
               | apply deterministic_bind; [|intros] ].
Qed.

Lemma deterministic_embed (word position : Embedding.t) (d : Dropout.t) x :
  dropout_off d -> deterministic (embed word position d x).
Proof.
  intros Hp. unfold embed.
  apply deterministic_bind; [apply deterministic_lift|].
  intros [N L].
  repeat first [ apply deterministic_lift
               | apply deterministic_dropout; exact Hp
               | apply deterministic_bind; [|intros] ].
Qed.

Lemma deterministic_encoder (enc : Encoder.t) x mask :
  Encoder_dropout_off enc -> deterministic (Encoder.forward enc x mask).
Proof.
  intros [Hp Hlayers]. unfold Encoder.forward.
  apply deterministic_bind; [apply deterministic_embed; exact Hp|].
  apply deterministic_foldM.
  eapply Forall_impl; [|exact Hlayers].
  intros tb Htb a. apply deterministic_block. exact Htb.
Qed.

Lemma deterministic_decoder (dec : Decoder.t) x enc_out sm tm :
  Decoder_dropout_off dec ->
  deterministic (Decoder.forward dec x enc_out sm tm).
Proof.
  intros [Hp Hlayers]. unfold Decoder.forward, Decoder.hidden.
  apply deterministic_bind; [|intros; apply deterministic_lift].
  apply deterministic_bind; [apply deterministic_embed; exact Hp|].
  apply deterministic_foldM.
  eapply Forall_impl; [|exact Hlayers].
  intros b Hb a. apply deterministic_decoder_block. exact Hb.
Qed.

(** [__init__] with [dropout = 0] builds a model all of whose dropout
    modules have probability 0. *)

Lemma TransformerBlock_init_dropout
    (embed_size heads : Z) (dropout : Q) (forward_expansion : Z)
    (s s1 : alloc) tb :
  TransformerBlock.init embed_size heads dropout forward_expansion s
  = (Ok tb, s1) ->
  Dropout.p (TransformerBlock.dropout tb) = dropout.
Proof.
  intros Hrun. unfold TransformerBlock.init in Hrun. inv_run Hrun.
  apply lift_ok_inv in Hstep4 as [Hd _]. apply Dropout_init_inv in Hd.
  exact Hd.
Qed.

Lemma DecoderBlock_init_dropout
    (embed_size heads forward_expansion : Z) (dropout : Q)
    (s s1 : alloc) b :
  DecoderBlock.init embed_size heads forward_expansion dropout s = (Ok b, s1) ->
  Dropout.p (DecoderBlock.dropout b) = dropout
  /\ Dropout.p (TransformerBlock.dropout (DecoderBlock.transformer_block b))
     = dropout.
Proof.
  intros Hrun. unfold DecoderBlock.init in Hrun. inv_run Hrun.
  apply TransformerBlock_init_dropout in Hstep1.
  apply lift_ok_inv in Hstep2 as [Hd _]. apply Dropout_init_inv in Hd.
  split; assumption.
Qed.

Lemma Transformer_init_dropout_off
    (src_vocab_size trg_vocab_size src_pad_idx trg_pad_idx embed_size
     num_layers forward_expansion heads : Z) (dropout : Q) (max_length : Z)
    (s s1 : alloc) m :
  Transformer.init src_vocab_size trg_vocab_size src_pad_idx trg_pad_idx
                   embed_size num_layers forward_expansion heads dropout
                   max_length s = (Ok m, s1) ->
  (dropout == 0)%Q ->
  Transformer_dropout_off m.
Proof.
  intros Hrun Hp. unfold Transformer.init in Hrun. inv_run Hrun.
  rename Hstep into Henc, Hstep0 into Hdec.
  unfold Encoder.init in Henc. inv_run Henc.
  unfold Decoder.init in Hdec. inv_run Hdec.
  apply lift_ok_inv in Hstep2 as [Hd1 _]. apply Dropout_init_inv in Hd1.
  apply lift_ok_inv in Hstep7 as [Hd2 _]. apply Dropout_init_inv in Hd2.
  unfold Transformer_dropout_off, Encoder_dropout_off, Decoder_dropout_off.
  cbn. split; split.
  - unfold dropout_off. rewrite Hd1. exact Hp.
  - eapply replicateM_inv; [|exact Hstep1].
    intros s' tb s1' Htb. apply TransformerBlock_init_dropout in Htb.
    unfold TransformerBlock_dropout_off, dropout_off. rewrite Htb. exact Hp.
  - unfold dropout_off. rewrite Hd2. exact Hp.
  - eapply replicateM_inv; [|exact Hstep5].
    intros s' b s1' Hb. apply DecoderBlock_init_dropout in Hb as [Hb1 Hb2].
    unfold DecoderBlock_dropout_off, TransformerBlock_dropout_off, dropout_off.
    rewrite Hb1, Hb2. split; exact Hp.
Qed.

(** C8: when every dropout module of the model has probability 0, the
    output of [Transformer.forward] on given source and target ids is the
    same whatever the state of the random generator: two passes over the
    same inputs with the same weights return the same logits (or raise
    the same exception). *)
Theorem Transformer_forward_deterministic :
  forall (m : Transformer.t) (src trg : tensor Z) (g1 g2 : rng),
    Transformer_dropout_off m ->
    rng_valid g1 -> rng_valid g2 ->
    fst (Transformer.forward m src trg g1)
    = fst (Transformer.forward m src trg g2).
Proof.
  intros m src trg g1 g2 [Henc Hdec] V1 V2.
  assert (Hdet : deterministic (Transformer.forward m src trg)).
  { unfold Transformer.forward.
    apply deterministic_bind; [apply deterministic_lift | intros sm].
    apply deterministic_bind; [apply deterministic_lift | intros tm].
    apply deterministic_bind; [apply deterministic_encoder; exact Henc|].
    intros enc_src. apply deterministic_decoder. exact Hdec. }
  apply Hdet; assumption.
Qed.

Lemma demo_model_dropout_off : Transformer_dropout_off demo_model.
Proof.
  unfold Transformer_dropout_off, Encoder_dropout_off, Decoder_dropout_off,
    DecoderBlock_dropout_off, TransformerBlock_dropout_off, dropout_off.
  cbn. repeat split; repeat constructor; reflexivity.
Qed.

Lemma quiet_valid : rng_valid quiet.
Proof. intros k. unfold quiet. lra. Qed.

Lemma halves_valid : rng_valid halves.
Proof. intros k. unfold halves. lra. Qed.

Lemma Transformer_forward_deterministic_witness :
  fst (Transformer.forward demo_model src_plain trg_plain quiet)
  = fst (Transformer.forward demo_model src_plain trg_plain halves).
Proof.
  apply Transformer_forward_deterministic.
  - exact demo_model_dropout_off.
  - exact quiet_valid.
  - exact halves_valid.
Defined.

(** ** The whole model on well-formed inputs *)

Lemma Encoder_init_inv
    (src_vocab_size embed_size num_layers heads forward_expansion : Z)
    (dropout : Q) (max_length : Z) (s s1 : alloc) enc :
  Encoder.init src_vocab_size embed_size num_layers heads forward_expansion
               dropout max_length s = (Ok enc, s1) ->
  (0 < heads)%Z ->
  Encoder_valid (Z.to_nat embed_size) (Z.to_nat heads)
                (Z.to_nat src_vocab_size) (Z.to_nat max_length) enc.
Proof.
  intros Hrun Hh. unfold Encoder.init in Hrun. inv_run Hrun.
  apply Embedding_init_inv in Hstep as [? ?].
  apply Embedding_init_inv in Hstep0 as [? ?].
  unfold Encoder_valid. simpl. do 4 (split; [assumption|]).
  eapply replicateM_inv; [|exact Hstep1].
  intros s' tb s1' Htb. apply TransformerBlock_init_inv in Htb; [|exact Hh].
  apply Htb.
Qed.

Lemma Transformer_init_inv
    (src_vocab_size trg_vocab_size src_pad_idx trg_pad_idx embed_size
     num_layers forward_expansion heads : Z) (dropout : Q) (max_length : Z)
    (s s1 : alloc) m :
  Transformer.init src_vocab_size trg_vocab_size src_pad_idx trg_pad_idx
                   embed_size num_layers forward_expansion heads dropout
                   max_length s = (Ok m, s1) ->
  (0 < heads)%Z ->
  Transformer_valid (Z.to_nat embed_size) (Z.to_nat heads)
                    (Z.to_nat src_vocab_size) (Z.to_nat trg_vocab_size)
                    (Z.to_nat max_length) m.
Proof.
  intros Hrun Hh. unfold Transformer.init in Hrun. inv_run Hrun.
  apply Encoder_init_inv in Hstep; [|exact Hh].
  apply Decoder_init_inv in Hstep0; [|exact Hh].
  split; assumption.
Qed.

Lemma encoder_layers_ok (E H : nat) (layers : list TransformerBlock.t)
    (mask : option mask_t) (n len : nat) :
  Forall (TransformerBlock_valid E H) layers ->
  mask_fits mask [n; H; len; len] ->
  forall (x : tensor R) (g : rng),
    shape x = [n; len; E] ->
    exists out g',
      foldM (fun layer out => TransformerBlock.forward layer out out out mask)
            layers x g = (Ok out, g')
      /\ shape out = [n; len; E].
Proof.
  intros Hall Hm.
  induction Hall as [|tb layers Htb _ IH]; intros x g Hx.
  - exists x, g. split; [reflexivity | exact Hx].
  - destruct (TransformerBlock_forward_ok E H tb x x x mask n len len g
                Htb Hx Hx Hx Hm) as (x1 & g1 & Hx1 & Sx1).
    destruct (IH x1 g1 Sx1) as (out & g2 & Hout & Sout).
    exists out, g2. split; [|exact Sout].
    cbn [foldM]. rewrite (bind_ok _ Hx1). exact Hout.
Qed.

Lemma int64_scalar_in_range (c : Z) : int64 c -> int64_scalar c = Ok c.
Proof.
  unfold int64, int64_scalar. intros [Hlo Hhi].
  apply Z.leb_le in Hlo. apply Z.ltb_lt in Hhi. rewrite Hlo, Hhi.
  reflexivity.
Qed.

Lemma ne_scalar_in_range (t : tensor Z) (c : Z) :
  int64 c ->
  ne_scalar t c
  = Ok {| shape := shape t; get := fun idx => negb (get t idx =? c)%Z |}.
Proof.
  intros Hc. unfold ne_scalar. rewrite (int64_scalar_in_range c Hc).
  reflexivity.
Qed.

Lemma make_src_mask_ok (m : Transformer.t) (src : tensor Z) (N S : nat) :
  int64 (Transformer.src_pad_idx m) ->
  shape src = [N; S] ->
  exists mask, Transformer.make_src_mask m src = Ok mask
               /\ shape mask = [N; 1; 1; S].
Proof.
  intros Hpad Hs. unfold Transformer.make_src_mask.
  rewrite (ne_scalar_in_range src _ Hpad). cbn [rbind]. unfold unsqueeze.
  cbn [shape]. rewrite Hs. cbn.
  eexists. split; reflexivity.
Qed.

Lemma src_mask_fits (N H L S : nat) :
  broadcast_shapes [N; 1; 1; S] [N; H; L; S] = Some [N; H; L; S].
Proof.
  unfold broadcast_shapes. cbn [rev app bshape_rev].
  rewrite !bdim_refl, !bdim_one_l. reflexivity.
Qed.

Lemma Transformer_forward_ok (E H Vsrc Vtrg max_length : nat)
    (m : Transformer.t) (src trg : tensor Z) (N S T : nat) (g : rng) :
  Transformer_valid E H Vsrc Vtrg max_length m ->
  int64 (Transformer.src_pad_idx m) ->
  shape src = [N; S] -> shape trg = [N; T] ->
  (forall n t, n < N -> t < S -> (0 <= get src [n; t] < Z.of_nat Vsrc)%Z) ->
  (forall n t, n < N -> t < T -> (0 <= get trg [n; t] < Z.of_nat Vtrg)%Z) ->
  S <= max_length -> T <= max_length ->
  exists out g',
    Transformer.forward m src trg g = (Ok out, g')
    /\ shape out = [N; T; Vtrg].
Proof.
  intros [Henc Hdec] Hpad Hsrc Htrg Hts Htt HS HT.
  destruct (make_src_mask_ok m src N S Hpad Hsrc) as (sm & Hsm & Ssm).
  pose proof (make_trg_mask_eq m trg N T Htrg) as Htm.
  set (tm := {| shape := [N; 1; T; T];
                get := fun idx => bget (causal T) idx |}) in Htm.
  destruct Henc as (HwV & HwE & HpL & HpE & Hlayers).
  destruct (embed_ok (Encoder.word_embedding (Transformer.encoder m))
              (Encoder.position_embedding (Transformer.encoder m))
              (Encoder.dropout (Transformer.encoder m))
              src E N S g HwE HpE Hsrc) as (y & g1 & Hy & Sy).
  { rewrite HwV. exact Hts. }
  { rewrite HpL. exact HS. }
  destruct (encoder_layers_ok E H _ (Some (MaskBool sm)) N S Hlayers)
    with (x := y) (g := g1) as (enc_src & g2 & Henc_src & Senc); [|exact Sy|].
  { cbn [mask_fits mask_eq0 shape]. rewrite Ssm. apply src_mask_fits. }
  destruct (Decoder_hidden_ok E H Vtrg max_length (Transformer.decoder m)
              trg enc_src (Some (MaskBool sm)) (Some (MaskFloat tm))
              N T S g2 Hdec Htrg Htt HT Senc)
    as (h & g3 & Hh & Sh).
  { cbn [mask_fits mask_eq0 shape]. rewrite Ssm. apply src_mask_fits. }
  { cbn [mask_fits mask_eq0 shape]. apply trg_mask_fits. }
  destruct Hdec as (_ & _ & _ & _ & _ & Hfi & Hfo).
  destruct (Linear_forward_ok (Decoder.fc_out (Transformer.decoder m)) h [N; T])
    as (out & Hlin & Sout & _); [rewrite Sh, Hfi; reflexivity|].
  assert (Hout : Decoder.forward (Transformer.decoder m) trg enc_src
                   (Some (MaskBool sm)) (Some (MaskFloat tm)) g2
                 = (Ok out, g3)).
  { unfold Decoder.forward. rewrite (bind_ok _ Hh). unfold lift.
    rewrite Hlin. reflexivity. }
  exists out, g3. split; [|rewrite Sout, Hfo; reflexivity].
  unfold Transformer.forward.
  rewrite (bind_lift_ok _ _ _ _ Hsm), (bind_lift_ok _ _ _ _ Htm).
  assert (Hrun : Encoder.forward (Transformer.encoder m) src
                   (Some (MaskBool sm)) g = (Ok enc_src, g2)).
  { unfold Encoder.forward. rewrite (bind_ok _ Hy). exact Henc_src. }
  rewrite (bind_ok _ Hrun). exact Hout.
Qed.

(** The last cell of the notebook: source and target vocabularies of 10
    ids, padding id 0, the default hyperparameters, a batch of two
    sources of length 9 and two targets cut to length 7.  The model is
    constructed and the forward pass returns a tensor of shape
    (2, 7, 10), the [torch.Size([2, 7, 10])] the notebook prints. *)
Example notebook_output_shape :
  exists m s',
    Transformer.init 10 10 0 0 512 6 4 8 0%Q 100 fresh = (Ok m, s')
    /\ exists out g',
         Transformer.forward m notebook_x notebook_trg_in quiet = (Ok out, g')
         /\ shape out = [2; 7; 10].
Proof.
  eexists. eexists. split; [reflexivity|].
  match goal with
  | |- context [Transformer.forward ?m] =>
      assert (Hvalid : Transformer_valid (Z.to_nat 512) (Z.to_nat 8)
                         (Z.to_nat 10) (Z.to_nat 10) (Z.to_nat 100) m)
        by (apply (Transformer_init_inv 10 10 0 0 512 6 4 8 0%Q 100 fresh _ m
                     eq_refl); reflexivity);
      apply (Transformer_forward_ok _ _ _ _ _ m notebook_x notebook_trg_in
               2 9 7 quiet Hvalid)
  end.
  - change (int64 0). unfold int64. lia.
  - reflexivity.
  - reflexivity.
  - intros n t Hn Ht.
    do 2 (destruct n as [|n]; [do 9 (destruct t as [|t]; [cbn; lia|]); lia|]).
    lia.
  - intros n t Hn Ht.
    do 2 (destruct n as [|n]; [do 7 (destruct t as [|t]; [cbn; lia|]); lia|]).
    lia.
  - change (Z.to_nat 100) with 100. lia.
  - change (Z.to_nat 100) with 100. lia.
Qed.

(** * Further properties of the code

    The theorems whose comment starts with an identifier X1, X2, ... are
    properties of functions and of error paths that C1 to C10 leave
    aside. *)

(** ** [Transformer.make_src_mask] and padded keys *)

Lemma demo_pad_int64 : int64 (Transformer.src_pad_idx demo_model).
Proof. unfold int64. cbn. lia. Qed.

Lemma make_src_mask_eq (m : Transformer.t) (src : tensor Z) (N S : nat) :
  int64 (Transformer.src_pad_idx m) ->
  shape src = [N; S] ->
  exists mask,
    Transformer.make_src_mask m src = Ok mask
    /\ shape mask = [N; 1; 1; S]
    /\ forall n a b s,
         get mask [n; a; b; s]
         = negb (get src [n; s] =? Transformer.src_pad_idx m)%Z.
Proof.
  intros Hrange Hs. unfold Transformer.make_src_mask.
  rewrite (ne_scalar_in_range src _ Hrange). cbn [rbind]. unfold unsqueeze.
  cbn [shape]. rewrite Hs. cbn.
  eexists. split; [reflexivity|]. split; reflexivity.
Qed.

Lemma src_mask_index (N S n h q k : nat) :
  n < N -> k < S -> bidx [N; 1; 1; S] [n; h; q; k] = [n; 0; 0; k].
Proof.
  intros Hn Hk. unfold bidx. cbn [length Nat.sub skipn bidx_aligned].
  cbn [Nat.eqb].
  destruct (Nat.eqb_spec N 1) as [->|_];
    destruct (Nat.eqb_spec S 1) as [->|_];
    repeat f_equal; lia.
Qed.

Lemma softmax_uniform (n k : nat) (f : nat -> R) (c : R) :
  (forall j, j < n -> f j = c) -> k < n ->
  (exp (f k) / Rsum n (fun j => exp (f j)))%R = (/ INR n)%R.
Proof.
  intros Hf Hk.
  rewrite (Rsum_ext n _ (fun _ => exp c)) by (intros j Hj; rewrite Hf; auto).
  rewrite Rsum_const, (Hf k Hk).
  pose proof (exp_pos c) as Hpos.
  assert (HL : (0 < INR n)%R) by (apply lt_0_INR; lia).
  field. split; lra.
Qed.

(** What attention computes under the source mask: shared by the
    theorems on padding below. *)
Lemma source_masked_attention (m : Transformer.t) (src : tensor Z)
    (E H : nat) (sa : SelfAttention.t) (values keys query : tensor R)
    (N S Lq : nat) :
  int64 (Transformer.src_pad_idx m) ->
  shape src = [N; S] ->
  SelfAttention_valid E H sa ->
  shape values = [N; S; E] -> shape keys = [N; S; E] ->
  shape query = [N; Lq; E] ->
  exists mask pr e0 e att,
    Transformer.make_src_mask m src = Ok mask
    /\ shape mask = [N; 1; 1; S]
    /\ SelfAttention.project sa values keys query = Ok pr
    /\ einsum_nqhd_nkhd_nhqk (SelfAttention.queries4 pr)
                             (SelfAttention.keys4 pr) = Ok e0
    /\ SelfAttention.energy pr (Some (MaskBool mask)) = Ok e
    /\ SelfAttention.probabilities sa values keys query
         (Some (MaskBool mask)) = Ok att
    /\ shape att = [N; H; Lq; S]
    /\ (forall n h q k, n < N -> h < H -> q < Lq -> k < S ->
          get e [n; h; q; k]
          = if (get src [n; k] =? Transformer.src_pad_idx m)%Z
            then sentinel else get e0 [n; h; q; k])
    /\ (forall n h q k,
          get att [n; h; q; k]
          = scaled_softmax_over_keys (SelfAttention.embed_size sa) S e n h q k).
Proof.
  intros Hrange Hs Hvalid Hv Hk Hq.
  destruct (make_src_mask_eq m src N S Hrange Hs)
    as (mask & Hmask & Smask & Gmask).
  assert (Hfit : mask_fits (Some (MaskBool mask)) [N; H; Lq; S]).
  { cbn [mask_fits mask_eq0 shape]. rewrite Smask. apply src_mask_fits. }
  destruct (probabilities_ok E H sa Hvalid values keys query
              (Some (MaskBool mask)) N S S Lq Hv Hk Hq Hfit)
    as (yk & yq & pr & e0 & e & att & _ & _ & Hpr & _ & _ & _ & He0 & _
        & He & Hse & Hge & Hse0 & _ & Hprob & Hsatt & Hg).
  exists mask, pr, e0, e, att. repeat (split; [assumption|]).
  split; [|exact Hg].
  intros n h q k Hn Hh Hq' Hk'. rewrite Hge.
  unfold bget at 1. cbn [mask_eq0 shape get]. rewrite Smask.
  rewrite src_mask_index by assumption. rewrite Gmask.
  destruct (get src [n; k] =? Transformer.src_pad_idx m)%Z; cbn [negb].
  - reflexivity.
  - apply bget_in_range. rewrite Hse0. repeat constructor; assumption.
Qed.

(** X1: for a padding id in the signed 64-bit range, the source mask
    has shape (batch, 1, 1, src_len) and is true exactly where the
    source id differs from [src_pad_idx].  In an
    attention whose keys are the source positions, for every head and
    every query position the energy of a padded key is the fill value
    -1e20 and the energy of any other key is the raw energy; the
    probability of a padded key is at most
    exp(-(e' + 1e20) / sqrt(embed_size)) for the energy e' of any key of
    the row. *)
Theorem src_mask_hides_padded_keys :
  forall (m : Transformer.t) (src : tensor Z)
         (E H : nat) (sa : SelfAttention.t) (values keys query : tensor R)
         (batch src_len query_len : nat),
    int64 (Transformer.src_pad_idx m) ->
    shape src = [batch; src_len] ->
    SelfAttention_valid E H sa ->
    shape values = [batch; src_len; E] ->
    shape keys = [batch; src_len; E] ->
    shape query = [batch; query_len; E] ->
    exists mask pr e0 e att,
      Transformer.make_src_mask m src = Ok mask
      /\ shape mask = [batch; 1; 1; src_len]
      /\ (forall n s,
            get mask [n; 0; 0; s]
            = negb (get src [n; s] =? Transformer.src_pad_idx m)%Z)
      /\ SelfAttention.project sa values keys query = Ok pr
      /\ einsum_nqhd_nkhd_nhqk (SelfAttention.queries4 pr)
                               (SelfAttention.keys4 pr) = Ok e0
      /\ SelfAttention.energy pr (Some (MaskBool mask)) = Ok e
      /\ SelfAttention.probabilities sa values keys query
           (Some (MaskBool mask)) = Ok att
      /\ forall n h q k,
           n < batch -> h < H -> q < query_len -> k < src_len ->
           (get src [n; k] <> Transformer.src_pad_idx m ->
            get e [n; h; q; k] = get e0 [n; h; q; k])
           /\ (get src [n; k] = Transformer.src_pad_idx m ->
               get e [n; h; q; k] = sentinel
               /\ forall k', k' < src_len ->
                    (0 <= get att [n; h; q; k]
                     <= exp (- (get e [n; h; q; k'] - sentinel)
                             / py_sqrt (SelfAttention.embed_size sa)))%R).
Proof.
  intros m src E H sa v k q N S Lq Hrange Hs Hvalid Hv Hk Hq.
  destruct (source_masked_attention m src E H sa v k q N S Lq
              Hrange Hs Hvalid Hv Hk Hq)
    as (mask & pr & e0 & e & att & Hmask & Smask & Hpr & He0 & He & Hprob
        & _ & Hent & Hg).
  destruct (make_src_mask_eq m src N S Hrange Hs)
    as (mask' & Hmask' & _ & Gmask).
  assert (mask' = mask) by congruence. subst mask'.
  exists mask, pr, e0, e, att.
  split; [exact Hmask|]. split; [exact Smask|].
  split; [intros n s; apply Gmask|].
  repeat (split; [assumption|]).
  intros n h qi ki Hn Hh Hqi Hki.
  specialize (Hent n h qi ki Hn Hh Hqi Hki).
  split.
  - intros Hne. rewrite Hent.
    destruct (Z.eqb_spec (get src [n; ki]) (Transformer.src_pad_idx m));
      [contradiction | reflexivity].
  - intros Hpad. rewrite Hpad, Z.eqb_refl in Hent.
    split; [exact Hent|].
    intros k' Hk'. rewrite Hg. unfold scaled_softmax_over_keys, py_sqrt.
    pose proof (softmax_entry_bound S ki k'
                  (fun j => get e [n; h; qi; j]
                            / sqrt (IZR (SelfAttention.embed_size sa)))%R Hk')
      as Hb.
    cbv beta in Hb. rewrite Hent in Hb |- *.
    replace (- (get e [n; h; qi; k'] - sentinel)
             / sqrt (IZR (SelfAttention.embed_size sa)))%R
      with (sentinel / sqrt (IZR (SelfAttention.embed_size sa))
            - get e [n; h; qi; k'] / sqrt (IZR (SelfAttention.embed_size sa)))%R
      by (unfold Rdiv; ring).
    exact Hb.
Qed.

Lemma src_mask_hides_padded_keys_witness :
  exists mask att,
    Transformer.make_src_mask demo_model trg_padded = Ok mask
    /\ get mask [0; 0; 0; 2] = false
    /\ get mask [0; 0; 0; 1] = true
    /\ SelfAttention.probabilities demo_attention demo_memory demo_memory
         demo_query (Some (MaskBool mask)) = Ok att.
Proof.
  destruct (src_mask_hides_padded_keys demo_model trg_padded 2 1
              demo_attention demo_memory demo_memory demo_query 1 3 2
              demo_pad_int64 eq_refl demo_attention_valid eq_refl eq_refl
              eq_refl)
    as (mask & pr & e0 & e & att & Hm & _ & Hg & _ & _ & _ & Hatt & _).
  exists mask, att. split; [exact Hm|].
  split; [rewrite Hg; reflexivity|]. split; [rewrite Hg; reflexivity|].
  exact Hatt.
Defined.

(** X2: when every id of a source sentence is the padding id (an id of
    the signed 64-bit range, as every element of a tensor of ids), each
    query of each head spreads its attention evenly over the padded
    keys: every probability of that sentence is 1 / src_len. *)
Theorem all_padding_gives_uniform_attention :
  forall (m : Transformer.t) (src : tensor Z)
         (E H : nat) (sa : SelfAttention.t) (values keys query : tensor R)
         (batch src_len query_len n : nat),
    int64 (Transformer.src_pad_idx m) ->
    shape src = [batch; src_len] ->
    SelfAttention_valid E H sa ->
    shape values = [batch; src_len; E] ->
    shape keys = [batch; src_len; E] ->
    shape query = [batch; query_len; E] ->
    n < batch ->
    (forall s, s < src_len -> get src [n; s] = Transformer.src_pad_idx m) ->
    exists mask att,
      Transformer.make_src_mask m src = Ok mask
      /\ SelfAttention.probabilities sa values keys query
           (Some (MaskBool mask)) = Ok att
      /\ forall h q k, h < H -> q < query_len -> k < src_len ->
           get att [n; h; q; k] = (/ INR src_len)%R.
Proof.
  intros m src E H sa v k q N S Lq n Hrange Hs Hvalid Hv Hk Hq Hn Hall.
  destruct (source_masked_attention m src E H sa v k q N S Lq
              Hrange Hs Hvalid Hv Hk Hq)
    as (mask & pr & e0 & e & att & Hmask & _ & _ & _ & _ & Hprob
        & _ & Hent & Hg).
  exists mask, att. split; [exact Hmask|]. split; [exact Hprob|].
  intros h qi ki Hh Hqi Hki. rewrite Hg. unfold scaled_softmax_over_keys.
  apply (softmax_uniform S ki
           (fun j => get e [n; h; qi; j]
                     / sqrt (IZR (SelfAttention.embed_size sa)))%R
           (sentinel / sqrt (IZR (SelfAttention.embed_size sa)))%R);
    [|exact Hki].
  intros j Hj. rewrite (Hent n h qi j Hn Hh Hqi Hj), (Hall j Hj), Z.eqb_refl.
  reflexivity.
Qed.

Lemma all_padding_gives_uniform_attention_witness :
  exists mask att,
    Transformer.make_src_mask demo_model all_padding = Ok mask
    /\ SelfAttention.probabilities demo_attention demo_memory demo_memory
         demo_query (Some (MaskBool mask)) = Ok att
    /\ get att [0; 0; 1; 2] = (/ INR 3)%R.
Proof.
  destruct (all_padding_gives_uniform_attention demo_model all_padding 2 1
              demo_attention demo_memory demo_memory demo_query 1 3 2 0
              demo_pad_int64 eq_refl demo_attention_valid eq_refl eq_refl
              eq_refl)
    as (mask & att & Hm & Hatt & Hg).
  - lia.
  - intros s _. reflexivity.
  - exists mask, att. split; [exact Hm|]. split; [exact Hatt|].
    apply Hg; lia.
Defined.

(** ** [Encoder.forward], [DecoderBlock.forward] and [Transformer.forward] *)

Lemma Encoder_forward_ok (E H V max_length : nat) (enc : Encoder.t)
    (x : tensor Z) (mask : option mask_t) (N S : nat) (g : rng) :
  Encoder_valid E H V max_length enc ->
  shape x = [N; S] ->
  (forall n t, n < N -> t < S -> (0 <= get x [n; t] < Z.of_nat V)%Z) ->
  S <= max_length ->
  mask_fits mask [N; H; S; S] ->
  exists out g',
    Encoder.forward enc x mask g = (Ok out, g') /\ shape out = [N; S; E].
Proof.
  intros (HwV & HwE & HpL & HpE & Hlayers) Hx Htok Hlen Hm.
  destruct (embed_ok (Encoder.word_embedding enc)
              (Encoder.position_embedding enc) (Encoder.dropout enc)
              x E N S g HwE HpE Hx) as (y & g1 & Hy & Sy).
  { rewrite HwV. exact Htok. }
  { rewrite HpL. exact Hlen. }
  destruct (encoder_layers_ok E H _ mask N S Hlayers Hm y g1 Sy)
    as (out & g2 & Hout & Sout).
  exists out, g2. split; [|exact Sout].
  unfold Encoder.forward. rewrite (bind_ok _ Hy). exact Hout.
Qed.

Lemma demo_encoder_valid : Encoder_valid 2 1 4 8 demo_encoder.
Proof.
  unfold Encoder_valid. do 4 (split; [reflexivity|]).
  constructor; [exact demo_block_valid | constructor].
Qed.

Lemma demo_model_valid : Transformer_valid 2 1 4 4 8 demo_model.
Proof. split; [exact demo_encoder_valid | exact demo_decoder_valid]. Qed.

(** X3: for source ids of shape (batch, src_len) inside the vocabulary,
    with src_len at most the size of the position table, and a mask that
    is absent or broadcastable to (batch, heads, src_len, src_len),
    [Encoder.forward] returns a tensor of shape
    (batch, src_len, embed_size), whatever the number of layers. *)
Theorem Encoder_forward_shape :
  forall (E H V max_length : nat) (enc : Encoder.t)
         (x : tensor Z) (mask : option mask_t)
         (batch src_len : nat) (g : rng),
    Encoder_valid E H V max_length enc ->
    shape x = [batch; src_len] ->
    (forall n t, n < batch -> t < src_len ->
       (0 <= get x [n; t] < Z.of_nat V)%Z) ->
    src_len <= max_length ->
    mask_fits mask [batch; H; src_len; src_len] ->
    exists out g',
      Encoder.forward enc x mask g = (Ok out, g')
      /\ shape out = [batch; src_len; E].
Proof.
  intros E H V L enc x mask N S g Hvalid Hx Htok Hlen Hm.
  destruct Hvalid as (HwV & HwE & HpL & HpE & Hlayers).
  destruct (embed_ok (Encoder.word_embedding enc)
              (Encoder.position_embedding enc) (Encoder.dropout enc)
              x E N S g HwE HpE Hx) as (y & g1 & Hy & Sy).
  { rewrite HwV. exact Htok. }
  { rewrite HpL. exact Hlen. }
  destruct (encoder_layers_ok E H _ mask N S Hlayers Hm y g1 Sy)
    as (out & g2 & Hout & Sout).
  exists out, g2. split; [|exact Sout].
  unfold Encoder.forward. rewrite (bind_ok _ Hy). exact Hout.
Qed.

Lemma Encoder_forward_shape_witness :
  exists out g',
    Encoder.forward demo_encoder src_plain None quiet = (Ok out, g')
    /\ shape out = [1; 3; 2].
Proof.
  apply (Encoder_forward_shape 2 1 4 8 demo_encoder src_plain None 1 3 quiet
           demo_encoder_valid eq_refl).
  - intros n t _ _. cbn. lia.
  - lia.
  - exact I.
Defined.

(** X4: [DecoderBlock.forward] keeps the shape of its first argument:
    for a hidden state of shape (batch, trg_len, embed_size), an encoder
    output of shape (batch, src_len, embed_size) passed as value and key,
    and masks that fit the two attentions, it returns a tensor of shape
    (batch, trg_len, embed_size); src_len and trg_len may differ. *)
Theorem DecoderBlock_forward_shape :
  forall (E H : nat) (b : DecoderBlock.t) (x enc_out : tensor R)
         (src_mask trg_mask : option mask_t)
         (batch trg_len src_len : nat) (g : rng),
    DecoderBlock_valid E H b ->
    shape x = [batch; trg_len; E] ->
    shape enc_out = [batch; src_len; E] ->
    mask_fits src_mask [batch; H; trg_len; src_len] ->
    mask_fits trg_mask [batch; H; trg_len; trg_len] ->
    exists out g',
      DecoderBlock.forward b x enc_out enc_out src_mask trg_mask g
      = (Ok out, g')
      /\ shape out = shape x.
Proof.
  intros E H b x enc sm tm n lt ls g Hvalid Hx Henc Hsm Htm.
  destruct (DecoderBlock_forward_ok E H b x enc sm tm n lt ls g
              Hvalid Hx Henc Hsm Htm) as (out & g' & Hout & Sout).
  exists out, g'. split; [exact Hout | congruence].
Qed.

Lemma demo_decoder_block_valid : DecoderBlock_valid 2 1 demo_decoder_block.
Proof.
  split; [reflexivity|].
  split; [exact demo_attention_valid | exact demo_block_valid].
Qed.

Lemma DecoderBlock_forward_shape_witness :
  exists out g',
    DecoderBlock.forward demo_decoder_block demo_query demo_memory demo_memory
                         None None quiet = (Ok out, g')
    /\ shape out = [1; 2; 2].
Proof.
  apply (DecoderBlock_forward_shape 2 1 demo_decoder_block demo_query
           demo_memory None None 1 2 3 quiet demo_decoder_block_valid
           eq_refl eq_refl I I).
Defined.

(** X5: for a source padding id in the signed 64-bit range, a batch of
    source ids of shape (batch, src_len) and target ids of shape
    (batch, trg_len), all inside their vocabularies and no longer than
    max_length, [Transformer.forward] builds both masks, runs
    the encoder and the decoder and returns logits of shape
    (batch, trg_len, trg_vocab_size); src_len and trg_len may differ. *)
Theorem Transformer_forward_shape :
  forall (E H Vsrc Vtrg max_length : nat) (m : Transformer.t)
         (src trg : tensor Z) (batch src_len trg_len : nat) (g : rng),
    Transformer_valid E H Vsrc Vtrg max_length m ->
    int64 (Transformer.src_pad_idx m) ->
    shape src = [batch; src_len] -> shape trg = [batch; trg_len] ->
    (forall n t, n < batch -> t < src_len ->
       (0 <= get src [n; t] < Z.of_nat Vsrc)%Z) ->
    (forall n t, n < batch -> t < trg_len ->
       (0 <= get trg [n; t] < Z.of_nat Vtrg)%Z) ->
    src_len <= max_length -> trg_len <= max_length ->
    exists out g',
      Transformer.forward m src trg g = (Ok out, g')
      /\ shape out = [batch; trg_len; Vtrg].
Proof.
  intros E H Vs Vt L m src trg N S T g Hvalid Hrange Hsrc Htrg Hts Htt HS HT.
  destruct (make_src_mask_ok m src N S Hrange Hsrc) as (sm & Hsm & Ssm).
  pose proof (make_trg_mask_eq m trg N T Htrg) as Htm.
  destruct Hvalid as [Henc Hdec].
  assert (Hfit : forall Lq, mask_fits (Some (MaskBool sm)) [N; H; Lq; S]).
  { intros Lq. cbn [mask_fits mask_eq0 shape]. rewrite Ssm.
    apply src_mask_fits. }
  destruct (Encoder_forward_ok E H Vs L (Transformer.encoder m) src
              (Some (MaskBool sm)) N S g Henc Hsrc Hts HS (Hfit S))
    as (enc_src & g1 & Henc_src & Senc).
  destruct (Decoder_hidden_ok E H Vt L (Transformer.decoder m) trg enc_src
              (Some (MaskBool sm))
              (Some (MaskFloat {| shape := [N; 1; T; T];
                                  get := fun idx => bget (causal T) idx |}))
              N T S g1 Hdec Htrg Htt HT Senc (Hfit T))
    as (h & g2 & Hh & Sh).
  { cbn [mask_fits mask_eq0 shape]. apply trg_mask_fits. }
  destruct Hdec as (_ & _ & _ & _ & _ & Hfi & Hfo).
  destruct (Linear_forward_ok (Decoder.fc_out (Transformer.decoder m)) h [N; T])
    as (out & Hlin & Sout & _); [rewrite Sh, Hfi; reflexivity|].
  exists out, g2. split; [|rewrite Sout, Hfo; reflexivity].
  unfold Transformer.forward.
  rewrite (bind_lift_ok _ _ _ _ Hsm), (bind_lift_ok _ _ _ _ Htm).
  rewrite (bind_ok _ Henc_src).
  unfold Decoder.forward. rewrite (bind_ok _ Hh). unfold lift.
  rewrite Hlin. reflexivity.
Qed.

Lemma Transformer_forward_shape_witness :
  exists out g',
    Transformer.forward demo_model src_plain trg_plain quiet = (Ok out, g')
    /\ shape out = [1; 3; 4].
Proof.
  apply (Transformer_forward_shape 2 1 4 4 8 demo_model src_plain trg_plain
           1 3 3 quiet demo_model_valid demo_pad_int64 eq_refl eq_refl).
  - intros n t _ _. cbn. lia.
  - intros n t _ _. cbn. lia.
  - lia.
  - lia.
Defined.

(** ** Ids outside the tables *)

Lemma indices_complete (s idx : list nat) :
  Forall2 lt idx s -> In idx (indices s).
Proof.
  intros Hr. induction Hr as [|i d idx s Hlt _ IH]; simpl.
  - left. reflexivity.
  - apply in_flat_map. exists i. split.
    + apply in_seq. lia.
    + apply in_map. exact IH.
Qed.

Lemma Embedding_forward_err (emb : Embedding.t) (x : tensor Z) (idx : list nat) :
  Forall2 lt idx (shape x) ->
  ~ (0 <= get x idx < Z.of_nat (Embedding.num_embeddings emb))%Z ->
  Embedding.forward emb x = Err IndexError.
Proof.
  intros Hr Hout. unfold Embedding.forward.
  destruct (forallb (fun i => Embedding.in_range emb (get x i))
                    (indices (shape x))) eqn:Hall; [|reflexivity].
  exfalso. apply Hout.
  rewrite forallb_forall in Hall.
  specialize (Hall idx (indices_complete _ _ Hr)).
  unfold Embedding.in_range in Hall.
  apply andb_prop in Hall as [H1 H2].
  apply Z.leb_le in H1. apply Z.ltb_lt in H2. lia.
Qed.

Lemma Embedding_forward_cases (emb : Embedding.t) (x : tensor Z) :
  (exists y, Embedding.forward emb x = Ok y)
  \/ Embedding.forward emb x = Err IndexError.
Proof.
  unfold Embedding.forward.
  destruct (forallb _ _); [left; eexists; reflexivity | right; reflexivity].
Qed.

(** The first lines of [Encoder.forward] and [Decoder.forward] on ids
    that do not fit the tables. *)
Lemma embed_index_error (word position : Embedding.t) (drop : Dropout.t)
    (x : tensor Z) (N S : nat) (g : rng) :
  shape x = [N; S] ->
  (exists n t, n < N /\ t < S
               /\ ~ (0 <= get x [n; t]
                     < Z.of_nat (Embedding.num_embeddings word))%Z)
  \/ (0 < N /\ Embedding.num_embeddings position < S) ->
  embed word position drop x g = (Err IndexError, g).
Proof.
  intros Hs Hbad.
  destruct (positions_ok N S) as (pos & Hpos & Spos & Gpos).
  unfold embed, shape2. rewrite Hs.
  rewrite (bind_lift_ok _ _ (N, S) _ eq_refl).
  rewrite (bind_lift_ok _ _ _ _ Hpos).
  destruct Hbad as [(n & t & Hn & Ht & Hout) | [HN Hlong]].
  - rewrite (Embedding_forward_err word x [n; t]); [reflexivity | | exact Hout].
    rewrite Hs. repeat constructor; assumption.
  - destruct (Embedding_forward_cases word x) as [[w Hw] | Hw].
    + rewrite (bind_lift_ok _ _ _ _ Hw).
      rewrite (Embedding_forward_err position pos
                 [0; Embedding.num_embeddings position]); [reflexivity | |].
      * rewrite Spos. repeat constructor; assumption.
      * rewrite Gpos by assumption. lia.
    + rewrite Hw. reflexivity.
Qed.

(** X6: [Encoder.forward] and [Decoder.forward] raise [IndexError],
    before any layer runs and without drawing from the generator, when an
    id of the batch lies outside the vocabulary of the word table, and
    also when the batch is not empty and the sequence is longer than the
    position table ([max_length]). *)
Theorem forward_rejects_ids_outside_tables :
  (forall (enc : Encoder.t) (x : tensor Z) (mask : option mask_t)
          (batch seq_len : nat) (g : rng),
      shape x = [batch; seq_len] ->
      (exists n t, n < batch /\ t < seq_len
                   /\ ~ (0 <= get x [n; t]
                         < Z.of_nat (Embedding.num_embeddings
                                       (Encoder.word_embedding enc)))%Z)
      \/ (0 < batch
          /\ Embedding.num_embeddings (Encoder.position_embedding enc)
             < seq_len) ->
      Encoder.forward enc x mask g = (Err IndexError, g))
  /\
  (forall (dec : Decoder.t) (x : tensor Z) (enc_out : tensor R)
          (src_mask trg_mask : option mask_t) (batch seq_len : nat) (g : rng),
      shape x = [batch; seq_len] ->
      (exists n t, n < batch /\ t < seq_len
                   /\ ~ (0 <= get x [n; t]
                         < Z.of_nat (Embedding.num_embeddings
                                       (Decoder.word_embedding dec)))%Z)
      \/ (0 < batch
          /\ Embedding.num_embeddings (Decoder.position_embedding dec)
             < seq_len) ->
      Decoder.forward dec x enc_out src_mask trg_mask g
      = (Err IndexError, g)).
Proof.
  split.
  - intros enc x mask N S g Hs Hbad. unfold Encoder.forward.
    apply bind_err. apply (embed_index_error _ _ _ x N S g Hs Hbad).
  - intros dec x enc_out sm tm N S g Hs Hbad.
    unfold Decoder.forward, Decoder.hidden.
    apply bind_err. apply bind_err.
    apply (embed_index_error _ _ _ x N S g Hs Hbad).
Qed.

Lemma forward_rejects_ids_outside_tables_witness :
  Encoder.forward demo_encoder unknown_token None quiet
  = (Err IndexError, quiet)
  /\ Decoder.forward demo_decoder nine_tokens demo_memory None None quiet
     = (Err IndexError, quiet).
Proof.
  destruct forward_rejects_ids_outside_tables as [Henc Hdec].
  split.
  - apply (Henc demo_encoder unknown_token None 1 3 quiet eq_refl).
    left. exists 0, 1. split; [lia|]. split; [lia|]. cbn. lia.
  - apply (Hdec demo_decoder nine_tokens demo_memory None None 1 9 quiet
             eq_refl).
    right. cbn. lia.
Defined.

(** ** Construction of the whole model *)

Lemma bump_bump (a b : nat) (s : alloc) : bump a (bump b s) = bump (b + a) s.
Proof. unfold bump. simpl. f_equal. lia. Qed.

Lemma bump_zero (s : alloc) : bump 0 s = s.
Proof. destruct s. reflexivity. Qed.

Lemma Linear_init_run (i o : Z) (s : alloc) :
  (0 <= i)%Z -> (0 <= o)%Z ->
  exists l, Linear.init i o s = (Ok l, bump 2 s).
Proof.
  intros Hi Ho. unfold Linear.init. destruct s as [n values].
  destruct (Z.ltb_spec i 0); [lia|]. destruct (Z.ltb_spec o 0); [lia|].
  simpl. eexists. reflexivity.
Qed.

Lemma LayerNorm_init_run (n : Z) (s : alloc) :
  (0 <= n)%Z -> exists l, LayerNorm.init n s = (Ok l, bump 2 s).
Proof.
  intros Hn. unfold LayerNorm.init. destruct s as [k values].
  destruct (Z.ltb_spec n 0); [lia|]. eexists. reflexivity.
Qed.

Lemma Embedding_init_run (n d : Z) (s : alloc) :
  (0 <= n)%Z -> (0 <= d)%Z ->
  exists e, Embedding.init n d s = (Ok e, bump 1 s).
Proof.
  intros Hn Hd. unfold Embedding.init. destruct s as [k values].
  destruct (Z.ltb_spec n 0); [lia|]. destruct (Z.ltb_spec d 0); [lia|].
  simpl. eexists. reflexivity.
Qed.

Lemma Dropout_init_run (p : Q) :
  (0 <= p)%Q -> (p <= 1)%Q -> Dropout.init p = Ok (Dropout.mk p true).
Proof.
  intros H0 H1. unfold Dropout.init.
  apply Qle_bool_iff in H0. apply Qle_bool_iff in H1.
  rewrite H0, H1. reflexivity.
Qed.

Lemma SelfAttention_init_run (embed_size heads : Z) (s : alloc) :
  (0 <= embed_size)%Z -> (0 < heads)%Z -> (embed_size mod heads)%Z = 0%Z ->
  exists sa, SelfAttention.init embed_size heads s = (Ok sa, bump 8 s).
Proof.
  intros HE Hh Hm.
  destruct (SelfAttention_init_divisible embed_size heads s HE) as (sa & Hsa & _);
    [lia | exact Hm |].
  exists sa. exact Hsa.
Qed.

Lemma TransformerBlock_init_run
    (embed_size heads : Z) (dropout : Q) (forward_expansion : Z) (s : alloc) :
  (0 <= embed_size)%Z -> (0 < heads)%Z -> (embed_size mod heads)%Z = 0%Z ->
  (0 <= forward_expansion)%Z -> (0 <= dropout)%Q -> (dropout <= 1)%Q ->
  exists tb,
    TransformerBlock.init embed_size heads dropout forward_expansion s
    = (Ok tb, bump 16 s).
Proof.
  intros HE Hh Hm Hfe Hp0 Hp1. unfold TransformerBlock.init.
  assert (Hw : (0 <= forward_expansion * embed_size)%Z) by nia.
  destruct (SelfAttention_init_run embed_size heads s HE Hh Hm) as (sa & Hsa).
  rewrite (bind_ok _ Hsa).
  destruct (LayerNorm_init_run embed_size (bump 8 s) HE) as (n1 & Hn1).
  rewrite (bind_ok _ Hn1).
  destruct (LayerNorm_init_run embed_size (bump 2 (bump 8 s)) HE) as (n2 & Hn2).
  rewrite (bind_ok _ Hn2).
  destruct (Linear_init_run embed_size (forward_expansion * embed_size)
              (bump 2 (bump 2 (bump 8 s))) HE Hw) as (l1 & Hl1).
  rewrite (bind_ok _ Hl1).
  destruct (Linear_init_run (forward_expansion * embed_size) embed_size
              (bump 2 (bump 2 (bump 2 (bump 8 s)))) Hw HE) as (l2 & Hl2).
  rewrite (bind_ok _ Hl2).
  rewrite (bind_lift_ok _ _ _ _ (Dropout_init_run dropout Hp0 Hp1)).
  eexists. unfold ret. rewrite !bump_bump. reflexivity.
Qed.

Lemma DecoderBlock_init_run
    (embed_size heads forward_expansion : Z) (dropout : Q) (s : alloc) :
  (0 <= embed_size)%Z -> (0 < heads)%Z -> (embed_size mod heads)%Z = 0%Z ->
  (0 <= forward_expansion)%Z -> (0 <= dropout)%Q -> (dropout <= 1)%Q ->
  exists b,
    DecoderBlock.init embed_size heads forward_expansion dropout s
    = (Ok b, bump 26 s).
Proof.
  intros HE Hh Hm Hfe Hp0 Hp1. unfold DecoderBlock.init.
  destruct (LayerNorm_init_run embed_size s HE) as (n & Hn).
  rewrite (bind_ok _ Hn).
  destruct (SelfAttention_init_run embed_size heads (bump 2 s) HE Hh Hm)
    as (sa & Hsa).
  rewrite (bind_ok _ Hsa).
  destruct (TransformerBlock_init_run embed_size heads dropout
              forward_expansion (bump 8 (bump 2 s)) HE Hh Hm Hfe Hp0 Hp1)
    as (tb & Htb).
  rewrite (bind_ok _ Htb).
  rewrite (bind_lift_ok _ _ _ _ (Dropout_init_run dropout Hp0 Hp1)).
  eexists. unfold ret. rewrite !bump_bump. reflexivity.
Qed.

(** A comprehension over [range(n)] whose element constructor always
    succeeds and allocates [k] tensors builds [n] elements and allocates
    [n * k] tensors. *)
Lemma replicateM_run {A} (make : ctor A) (k : nat) :
  (forall s, exists a, make s = (Ok a, bump k s)) ->
  forall n s, exists l,
    replicateM n make s = (Ok l, bump (n * k) s) /\ length l = n.
Proof.
  intros Hmake. induction n as [|n IH]; intros s.
  - exists []. simpl. unfold ret. rewrite bump_zero. split; reflexivity.
  - destruct (Hmake s) as (a & Ha).
    destruct (IH (bump k s)) as (l & Hl & Hlen).
    exists (a :: l). split; [|simpl; congruence].
    cbn [replicateM]. rewrite (bind_ok _ Ha), (bind_ok _ Hl).
    unfold ret. rewrite bump_bump. reflexivity.
Qed.

Lemma Encoder_init_run
    (src_vocab_size embed_size num_layers heads forward_expansion : Z)
    (dropout : Q) (max_length : Z) (s : alloc) :
  (0 <= src_vocab_size)%Z -> (0 <= max_length)%Z ->
  (0 <= embed_size)%Z -> (0 < heads)%Z -> (embed_size mod heads)%Z = 0%Z ->
  (0 <= forward_expansion)%Z -> (0 <= dropout)%Q -> (dropout <= 1)%Q ->
  exists enc,
    Encoder.init src_vocab_size embed_size num_layers heads forward_expansion
                 dropout max_length s
    = (Ok enc, bump (2 + 16 * Z.to_nat num_layers) s)
    /\ length (Encoder.layers enc) = Z.to_nat num_layers.
Proof.
  intros HV HL HE Hh Hm Hfe Hp0 Hp1. unfold Encoder.init.
  destruct (Embedding_init_run src_vocab_size embed_size s HV HE) as (w & Hw).
  rewrite (bind_ok _ Hw).
  destruct (Embedding_init_run max_length embed_size (bump 1 s) HL HE)
    as (p & Hp).
  rewrite (bind_ok _ Hp).
  destruct (replicateM_run
              (TransformerBlock.init embed_size heads dropout forward_expansion)
              16
              (fun s0 => TransformerBlock_init_run embed_size heads dropout
                           forward_expansion s0 HE Hh Hm Hfe Hp0 Hp1)
              (Z.to_nat num_layers) (bump 1 (bump 1 s)))
    as (layers & Hlayers & Hlen).
  rewrite (bind_ok _ Hlayers).
  rewrite (bind_lift_ok _ _ _ _ (Dropout_init_run dropout Hp0 Hp1)).
  exists (Encoder.mk embed_size w p layers (Dropout.mk dropout true)).
  split; [|exact Hlen].
  unfold ret. rewrite !bump_bump. f_equal. unfold bump. f_equal. lia.
Qed.

Lemma Decoder_init_run
    (trg_vocab_size embed_size num_layers heads forward_expansion : Z)
    (dropout : Q) (max_length : Z) (s : alloc) :
  (0 <= trg_vocab_size)%Z -> (0 <= max_length)%Z ->
  (0 <= embed_size)%Z -> (0 < heads)%Z -> (embed_size mod heads)%Z = 0%Z ->
  (0 <= forward_expansion)%Z -> (0 <= dropout)%Q -> (dropout <= 1)%Q ->
  exists dec,
    Decoder.init trg_vocab_size embed_size num_layers heads forward_expansion
                 dropout max_length s
    = (Ok dec, bump (4 + 26 * Z.to_nat num_layers) s)
    /\ length (Decoder.layers dec) = Z.to_nat num_layers.
Proof.
  intros HV HL HE Hh Hm Hfe Hp0 Hp1. unfold Decoder.init.
  destruct (Embedding_init_run trg_vocab_size embed_size s HV HE) as (w & Hw).
  rewrite (bind_ok _ Hw).
  destruct (Embedding_init_run max_length embed_size (bump 1 s) HL HE)
    as (p & Hp).
  rewrite (bind_ok _ Hp).
  destruct (replicateM_run
              (DecoderBlock.init embed_size heads forward_expansion dropout)
              26
              (fun s0 => DecoderBlock_init_run embed_size heads
                           forward_expansion dropout s0 HE Hh Hm Hfe Hp0 Hp1)
              (Z.to_nat num_layers) (bump 1 (bump 1 s)))
    as (layers & Hlayers & Hlen).
  rewrite (bind_ok _ Hlayers).
  destruct (Linear_init_run embed_size trg_vocab_size
              (bump (Z.to_nat num_layers * 26) (bump 1 (bump 1 s))) HE HV)
    as (fc & Hfc).
  rewrite (bind_ok _ Hfc).
  rewrite (bind_lift_ok _ _ _ _ (Dropout_init_run dropout Hp0 Hp1)).
  exists (Decoder.mk w p layers fc (Dropout.mk dropout true)).
  split; [|exact Hlen].
  unfold ret. rewrite !bump_bump. f_equal. unfold bump. f_equal. lia.
Qed.

(** X7: with non-negative sizes, [heads > 0] dividing [embed_size], a
    non-negative [forward_expansion] and a dropout probability in [0, 1],
    [Transformer.__init__] succeeds.  It creates
    6 + 42 * num_layers parameter tensors (none of them for a negative
    [num_layers], which gives empty stacks), both stacks have
    [num_layers] layers, the padding ids are stored as given and every
    layer has the widths that [forward] relies on. *)
Theorem Transformer_init_succeeds :
  forall (src_vocab_size trg_vocab_size src_pad_idx trg_pad_idx embed_size
          num_layers forward_expansion heads : Z) (dropout : Q)
         (max_length : Z) (s : alloc),
    (0 <= src_vocab_size)%Z -> (0 <= trg_vocab_size)%Z ->
    (0 <= max_length)%Z ->
    (0 <= embed_size)%Z -> (0 < heads)%Z -> (embed_size mod heads)%Z = 0%Z ->
    (0 <= forward_expansion)%Z -> (0 <= dropout)%Q -> (dropout <= 1)%Q ->
    exists m,
      Transformer.init src_vocab_size trg_vocab_size src_pad_idx trg_pad_idx
                       embed_size num_layers forward_expansion heads dropout
                       max_length s
      = (Ok m, bump (6 + 42 * Z.to_nat num_layers) s)
      /\ length (Encoder.layers (Transformer.encoder m)) = Z.to_nat num_layers
      /\ length (Decoder.layers (Transformer.decoder m)) = Z.to_nat num_layers
      /\ Transformer.src_pad_idx m = src_pad_idx
      /\ Transformer.trg_pad_idx m = trg_pad_idx
      /\ Transformer_valid (Z.to_nat embed_size) (Z.to_nat heads)
                           (Z.to_nat src_vocab_size) (Z.to_nat trg_vocab_size)
                           (Z.to_nat max_length) m.
Proof.
  intros sv tv sp tp E L fe H p ml s Hsv Htv Hml HE Hh Hm Hfe Hp0 Hp1.
  destruct (Encoder_init_run sv E L H fe p ml s Hsv Hml HE Hh Hm Hfe Hp0 Hp1)
    as (enc & Henc & Lenc).
  destruct (Decoder_init_run tv E L H fe p ml
              (bump (2 + 16 * Z.to_nat L) s) Htv Hml HE Hh Hm Hfe Hp0 Hp1)
    as (dec & Hdec & Ldec).
  assert (Hrun : Transformer.init sv tv sp tp E L fe H p ml s
                 = (Ok (Transformer.mk enc dec sp tp),
                    bump (6 + 42 * Z.to_nat L) s)).
  { unfold Transformer.init. rewrite (bind_ok _ Henc), (bind_ok _ Hdec).
    unfold ret. rewrite bump_bump. f_equal. unfold bump. f_equal. lia. }
  exists (Transformer.mk enc dec sp tp).
  split; [exact Hrun|]. repeat (split; [first [assumption | reflexivity]|]).
  exact (Transformer_init_inv sv tv sp tp E L fe H p ml s _ _ Hrun Hh).
Qed.

Lemma Transformer_init_succeeds_witness :
  exists m,
    Transformer.init 10 10 0 0 512 6 4 8 0%Q 100 fresh = (Ok m, bump 258 fresh)
    /\ length (Encoder.layers (Transformer.encoder m)) = 6
    /\ length (Decoder.layers (Transformer.decoder m)) = 6.
Proof.
  destruct (Transformer_init_succeeds 10 10 0 0 512 6 4 8 0%Q 100 fresh)
    as (m & Hrun & Le & Ld & _); try lia; try reflexivity;
    try (unfold Qle; simpl; lia).
  exists m. split; [exact Hrun|]. split; assumption.
Defined.

(** ** What [SelfAttention.forward] computes, entry by entry *)

Lemma einsum_values_entry (a b : tensor R) (n h q l d : nat) :
  shape a = [n; h; q; l] -> shape b = [n; l; h; d] ->
  exists o,
    einsum_nhql_nlhd_nqhd a b = Ok o /\ shape o = [n; q; h; d]
    /\ forall n_ q_ h_ d_, n_ < n -> q_ < q -> h_ < h -> d_ < d ->
         get o [n_; q_; h_; d_]
         = Rsum l (fun l_ => get a [n_; h_; q_; l_] * get b [n_; l_; h_; d_])%R.
Proof.
  intros Ha Hb. unfold einsum_nhql_nlhd_nqhd. rewrite Ha, Hb, !edim_refl.
  simpl. eexists. split; [reflexivity|]. split; [reflexivity|].
  intros n_ q_ h_ d_ Hn Hq Hh Hd. cbn [get nth].
  apply Rsum_ext. intros j Hj.
  rewrite !bget_in_range; [reflexivity | |].
  - rewrite Hb. repeat constructor; assumption.
  - rewrite Ha. repeat constructor; assumption.
Qed.

(** Merging the axes [(H, D)] into [H * D] moves no element: head [h]
    lands in the columns [h * D .. h * D + D - 1]. *)
Lemma view_merge_last {A} (o : tensor A) (N L H D n l h d : nat) :
  shape o = [N; L; H; D] -> n < N -> l < L -> h < H -> d < D ->
  get (view o [N; L; H * D]) [n; l; h * D + d] = get o [n; l; h; d].
Proof.
  intros Hs Hn Hl Hh Hd. unfold view. cbn [get]. rewrite Hs.
  f_equal. unfold ravel. cbn [ravel_from unravel numel fold_right].
  rewrite !Nat.mul_1_r, Nat.div_1_r. cbn [Nat.mul Nat.add].
  set (off := (n * L + l) * (H * D) + (h * D + d)).
  assert (E4 : off mod D = d).
  { symmetry. apply Nat.mod_unique with ((n * L + l) * H + h);
      [exact Hd | subst off; ring]. }
  assert (E3 : off / D = (n * L + l) * H + h).
  { symmetry. apply Nat.div_unique with d; [exact Hd | subst off; ring]. }
  assert (E2 : off / (H * D) = n * L + l).
  { symmetry. apply Nat.div_unique with (h * D + d); [nia | subst off; ring]. }
  assert (Hr : h * D + d < H * D) by nia.
  assert (E1 : off / (L * (H * D)) = n).
  { symmetry. apply Nat.div_unique with (l * (H * D) + (h * D + d));
      [|subst off; ring].
    apply Nat.lt_le_trans with (S l * (H * D)); [simpl; lia|].
    apply Nat.mul_le_mono_r. lia. }
  rewrite E1, E2, E3, E4.
  f_equal; [apply Nat.mod_small; exact Hn|].
  f_equal; [symmetry; apply Nat.mod_unique with n; [exact Hl | ring]|].
  f_equal.
  symmetry. apply Nat.mod_unique with (n * L + l); [exact Hh | ring].
Qed.

Section SelfAttentionEntries.

Variables (E H : nat) (sa : SelfAttention.t).
Hypothesis Hvalid : SelfAttention_valid E H sa.

Local Abbreviation D := (Z.to_nat (SelfAttention.head_dim sa)).

Lemma forward_entries (v k q : tensor R) (mask : option mask_t)
    (n lk lq : nat) :
  shape v = [n; lk; E] -> shape k = [n; lk; E] -> shape q = [n; lq; E] ->
  mask_fits mask [n; H; lq; lk] ->
  exists yv yk yq e0 att (concat : nat -> nat -> nat -> R) out,
    Linear.forward (SelfAttention.values sa) v = Ok yv
    /\ Linear.forward (SelfAttention.keys sa) k = Ok yk
    /\ Linear.forward (SelfAttention.queries sa) q = Ok yq
    /\ H * D = E
    /\ (forall n_ h_ q_ k_, n_ < n -> h_ < H -> q_ < lq -> k_ < lk ->
          get e0 [n_; h_; q_; k_]
          = Rsum D (fun d => get yq [n_; q_; (h_ * D + d)%nat]
                             * get yk [n_; k_; (h_ * D + d)%nat])%R)
    /\ (mask = None ->
        forall n_ h_ q_ k_,
          get att [n_; h_; q_; k_]
          = scaled_softmax_over_keys (SelfAttention.embed_size sa) lk e0
                                     n_ h_ q_ k_)
    /\ SelfAttention.probabilities sa v k q mask = Ok att
    /\ (forall n_ q_ h_ d_, n_ < n -> q_ < lq -> h_ < H -> d_ < D ->
          concat n_ q_ (h_ * D + d_)%nat
          = Rsum lk (fun l => get att [n_; h_; q_; l]
                              * get yv [n_; l; (h_ * D + d_)%nat])%R)
    /\ SelfAttention.forward sa v k q mask = Ok out
    /\ shape out = [n; lq; E]
    /\ (forall n_ q_ c,
          get out [n_; q_; c]
          = (Rsum E (fun e => concat n_ q_ e
                              * Linear.weight (SelfAttention.fc_out sa) c e)
             + Linear.bias (SelfAttention.fc_out sa) c)%R).
Proof.
  intros Hv Hk Hq Hm.
  destruct (valid_head_dim E H sa Hvalid) as [Hd HHD].
  pose proof Hvalid as (Hh & HE & Hmul & HeqE & HeqH & Hvi & Hvo & _ & _
                        & _ & _ & Hfi & Hfo).
  destruct (project_ok E H sa Hvalid v k q n lk lk lq Hv Hk Hq)
    as (yv & yk & yq & Eyv & Eyk & Eyq & Sk & Sq & Hpr).
  assert (Sv : shape yv = [n; lk; E]).
  { destruct (Linear_forward_ok (SelfAttention.values sa) v [n; lk])
      as (y & Hy & Sy & _); [rewrite Hv, Hvi; reflexivity|].
    assert (y = yv) by congruence. subst y. rewrite Sy, Hvo. reflexivity. }
  destruct (probabilities_ok E H sa Hvalid v k q mask n lk lk lq Hv Hk Hq Hm)
    as (yk' & yq' & pr & e0 & e & att & Eyk' & Eyq' & Hpr' & HN & HL & Sv4
        & He0 & Hraw & He & Hse & Hge & Hse0 & Hatt & Hprob & Hsatt & Hg).
  assert (yk' = yk) by congruence. assert (yq' = yq) by congruence.
  subst yk' yq'.
  assert (Hv4 : SelfAttention.values4 pr = view yv [n; lk; H; D]).
  { rewrite Hpr in Hpr'. inversion Hpr'. reflexivity. }
  destruct (einsum_values_entry att (SelfAttention.values4 pr) n H lq lk D
              Hsatt Sv4) as (o & Ho & So & Go).
  assert (Hre : reshape o [Z.of_nat (SelfAttention.N pr);
                           Z.of_nat (SelfAttention.query_len pr);
                           (SelfAttention.heads sa
                            * SelfAttention.head_dim sa)%Z]
                = Ok (view o [n; lq; H * D])).
  { rewrite reshape_ok.
    - simpl. rewrite !Nat2Z.id, HN, HL.
      rewrite Z2Nat.inj_mul by lia. rewrite <- HeqH. reflexivity.
    - repeat constructor; lia.
    - rewrite So. simpl. rewrite !Nat2Z.id, HN, HL.
      rewrite Z2Nat.inj_mul by lia. rewrite <- HeqH. lia. }
  destruct (Linear_forward_ok (SelfAttention.fc_out sa)
              (view o [n; lq; H * D]) [n; lq]) as (out & Hout & Sout & Gout).
  { cbn [view shape]. rewrite Hfi, HHD. reflexivity. }
  exists yv, yk, yq, e0, att,
    (fun n_ q_ e_ => get (view o [n; lq; H * D]) [n_; q_; e_]), out.
  repeat (split; [assumption|]).
  split.
  { intros -> n_ h_ q_ k_. subst e. apply Hg. }
  split; [exact Hprob|].
  split.
  { intros n_ q_ h_ d_ Hn_ Hq_ Hh_ Hd_.
    rewrite (view_merge_last o n lq H D n_ q_ h_ d_ So Hn_ Hq_ Hh_ Hd_).
    rewrite Go by assumption. apply Rsum_ext. intros l Hl.
    rewrite Hv4. rewrite view_split_last; try assumption; [reflexivity|].
    rewrite Sv, <- HHD. reflexivity. }
  split.
  { unfold SelfAttention.forward. rewrite Hpr'. cbn [rbind].
    rewrite He. cbn [rbind]. rewrite Hatt. cbn [rbind].
    unfold SelfAttention.output. rewrite Ho. cbn [rbind].
    rewrite Hre. cbn [rbind]. exact Hout. }
  split; [rewrite Sout, Hfo; reflexivity|].
  intros n_ q_ c. rewrite Gout, Hfi. reflexivity.
Qed.

End SelfAttentionEntries.

(** X8: the values [forward] returns.  With Q, K and V the three linear
    projections, head [h] reads the columns h * head_dim ..
    h * head_dim + head_dim - 1 of each: its energy for query q and key k
    is the dot product of those columns of Q at q and K at k; its output
    is the average of those columns of V weighted by its probabilities;
    the outputs of the heads are laid side by side in the order of the
    heads, and [fc_out] is applied to the result. *)
Theorem SelfAttention_forward_entries :
  forall (E H : nat) (sa : SelfAttention.t)
         (values keys query : tensor R) (mask : option mask_t)
         (batch key_len query_len : nat),
    SelfAttention_valid E H sa ->
    shape values = [batch; key_len; E] ->
    shape keys = [batch; key_len; E] ->
    shape query = [batch; query_len; E] ->
    mask_fits mask [batch; H; query_len; key_len] ->
    exists V K Q e0 att (concat : nat -> nat -> nat -> R) out,
      Linear.forward (SelfAttention.values sa) values = Ok V
      /\ Linear.forward (SelfAttention.keys sa) keys = Ok K
      /\ Linear.forward (SelfAttention.queries sa) query = Ok Q
      /\ H * Z.to_nat (SelfAttention.head_dim sa) = E
      /\ (forall n h q k,
            n < batch -> h < H -> q < query_len -> k < key_len ->
            get e0 [n; h; q; k]
            = Rsum (Z.to_nat (SelfAttention.head_dim sa))
                (fun d =>
                   get Q [n; q; (h * Z.to_nat (SelfAttention.head_dim sa) + d)%nat]
                   * get K [n; k; (h * Z.to_nat (SelfAttention.head_dim sa) + d)%nat])%R)
      /\ (mask = None ->
          forall n h q k,
            get att [n; h; q; k]
            = scaled_softmax_over_keys (SelfAttention.embed_size sa) key_len
                                       e0 n h q k)
      /\ SelfAttention.probabilities sa values keys query mask = Ok att
      /\ (forall n q h d,
            n < batch -> q < query_len -> h < H ->
            d < Z.to_nat (SelfAttention.head_dim sa) ->
            concat n q (h * Z.to_nat (SelfAttention.head_dim sa) + d)%nat
            = Rsum key_len
                (fun l =>
                   get att [n; h; q; l]
                   * get V [n; l; (h * Z.to_nat (SelfAttention.head_dim sa) + d)%nat])%R)
      /\ SelfAttention.forward sa values keys query mask = Ok out
      /\ shape out = [batch; query_len; E]
      /\ (forall n q c,
            get out [n; q; c]
            = (Rsum E (fun e => concat n q e
                                * Linear.weight (SelfAttention.fc_out sa) c e)
               + Linear.bias (SelfAttention.fc_out sa) c)%R).
Proof.
  intros E H sa v k q mask n lk lq Hvalid Hv Hk Hq Hm.
  exact (forward_entries E H sa Hvalid v k q mask n lk lq Hv Hk Hq Hm).
Qed.

Lemma SelfAttention_forward_entries_witness :
  exists out,
    SelfAttention.forward demo_attention demo_memory demo_memory demo_query
                          None = Ok out
    /\ shape out = [1; 2; 2].
Proof.
  destruct (SelfAttention_forward_entries 2 1 demo_attention demo_memory
              demo_memory demo_query None 1 3 2 demo_attention_valid
              eq_refl eq_refl eq_refl I)
    as (V & K & Q & e0 & att & concat & out & _ & _ & _ & _ & _ & _ & _ & _
        & Hout & Sout & _).
  exists out. split; assumption.
Defined.

(** ** Inputs and hyperparameters that [forward] refuses *)

Lemma reshape_size_mismatch {A} (t : tensor A) (dims : list Z) :
  Forall (fun d => (0 <= d)%Z) dims ->
  numel (map Z.to_nat dims) <> numel (shape t) ->
  reshape t dims = Err RuntimeError.
Proof.
  intros Hpos Hn. unfold reshape.
  destruct (no_negative_size dims Hpos) as [Hex Hc].
  rewrite Hex, Hc. apply Nat.eqb_neq in Hn. rewrite Hn. reflexivity.
Qed.

Lemma bind_lift_err {S A B} (r : result A) (k : A -> M S B) (e : error)
    (s : S) :
  r = Err e -> bind (lift r) k s = (Err e, s).
Proof. intros ->. reflexivity. Qed.

(** With a negative number of heads no split into heads exists: the
    sizes handed to [reshape] hold a negative number other than a single
    -1, or a -1 next to a 0. *)
Lemma reshape_negative_heads {A} (t : tensor A) (a b : nat) (E heads : Z) :
  (0 <= E)%Z -> (heads < 0)%Z ->
  reshape t [Z.of_nat a; Z.of_nat b; heads; (E / heads)%Z] = Err RuntimeError.
Proof.
  intros HE Hh. unfold reshape. cbn [existsb].
  destruct (Z.ltb_spec (Z.of_nat a) (-1)); [lia|].
  destruct (Z.ltb_spec (Z.of_nat b) (-1)); [lia|].
  destruct (Z.ltb_spec heads (-1)); [reflexivity|].
  assert (heads = -1)%Z by lia. subst heads.
  assert (Hq : (E / -1 = - E)%Z).
  { pose proof (Z.div_mod E (-1) ltac:(lia)).
    pose proof (Z.mod_neg_bound E (-1) ltac:(lia)). lia. }
  rewrite Hq.
  destruct (Z.ltb_spec (- E) (-1)); [reflexivity|].
  cbn [orb]. unfold count_infer, known_size. cbn [filter].
  destruct (Z.eqb_spec (Z.of_nat a) (-1)); [lia|].
  destruct (Z.eqb_spec (Z.of_nat b) (-1)); [lia|].
  cbn [negb filter Z.eqb Pos.eqb].
  destruct (Z.eqb_spec (- E) (-1)) as [E1|E1]; cbn [negb length].
  - reflexivity.
  - assert (E = 0)%Z by lia. subst E.
    cbn [map numel fold_right Z.opp Z.to_nat].
    rewrite !Nat.mul_0_r. reflexivity.
Qed.

Lemma project_negative_heads (sa : SelfAttention.t) (v k q : tensor R) :
  (0 <= SelfAttention.embed_size sa)%Z -> (SelfAttention.heads sa < 0)%Z ->
  SelfAttention.head_dim sa
  = (SelfAttention.embed_size sa / SelfAttention.heads sa)%Z ->
  exists e, SelfAttention.project sa v k q = Err e.
Proof.
  intros HE Hh Hd. unfold SelfAttention.project.
  destruct (shape_at q 0); cbn [rbind]; [|eauto].
  destruct (shape_at v 1); cbn [rbind]; [|eauto].
  destruct (shape_at k 1); cbn [rbind]; [|eauto].
  destruct (shape_at q 1); cbn [rbind]; [|eauto].
  destruct (Linear.forward (SelfAttention.values sa) v); cbn [rbind]; [|eauto].
  destruct (Linear.forward (SelfAttention.keys sa) k); cbn [rbind]; [|eauto].
  destruct (Linear.forward (SelfAttention.queries sa) q); cbn [rbind];
    [|eauto].
  rewrite Hd, reshape_negative_heads by assumption. cbn [rbind]. eauto.
Qed.

(** X9: the assertion of [SelfAttention.__init__] does not look at the
    sign of [heads]: with a negative number of heads that divides the
    embedding size the mixer is constructed, four linear layers and all,
    but its [forward] raises on every input, since no tensor can be
    reshaped to a negative number of heads. *)
Theorem negative_heads_built_but_unusable :
  forall (embed_size heads : Z) (s : alloc),
    (0 <= embed_size)%Z -> (heads < 0)%Z -> (embed_size mod heads = 0)%Z ->
    exists sa,
      SelfAttention.init embed_size heads s = (Ok sa, bump 8 s)
      /\ forall (values keys query : tensor R) (mask : option mask_t),
           exists e, SelfAttention.forward sa values keys query mask = Err e.
Proof.
  intros E heads s HE Hh Hm.
  destruct (SelfAttention_init_divisible E heads s HE) as (sa & Hsa & He & Hhs & Hd);
    [lia | exact Hm |].
  exists sa. split; [exact Hsa|].
  intros v k q mask.
  destruct (project_negative_heads sa v k q) as (e & Hp).
  - rewrite He. exact HE.
  - rewrite Hhs. exact Hh.
  - rewrite Hd, He, Hhs. reflexivity.
  - exists e. unfold SelfAttention.forward. rewrite Hp. reflexivity.
Qed.

Lemma negative_heads_built_but_unusable_witness :
  exists sa,
    SelfAttention.init 4 (-2) fresh = (Ok sa, bump 8 fresh)
    /\ exists e,
         SelfAttention.forward sa demo_memory demo_memory demo_query None
         = Err e.
Proof.
  destruct (negative_heads_built_but_unusable 4 (-2) fresh)
    as (sa & Hsa & Hf); [lia | lia | reflexivity |].
  exists sa. split; [exact Hsa | apply Hf].
Defined.

Lemma attention_batch_mismatch (E H : nat) (sa : SelfAttention.t)
    (v k q : tensor R) (mask : option mask_t) (m n lk lq : nat) :
  SelfAttention_valid E H sa ->
  shape v = [m; lk; E] -> shape k = [m; lk; E] -> shape q = [n; lq; E] ->
  m <> n -> 0 < lk -> 0 < E ->
  SelfAttention.forward sa v k q mask = Err RuntimeError.
Proof.
  intros Hvalid Hv Hk Hq Hmn Hlk HE.
  destruct (valid_head_dim E H sa Hvalid) as [Hd HHD].
  pose proof Hvalid as (Hh & HE0 & Hmul & HeqE & HeqH & Hvi & Hvo & Hki & Hko
                        & Hqi & Hqo & _).
  destruct (Linear_forward_ok (SelfAttention.values sa) v [m; lk])
    as (yv & Eyv & Syv & _); [rewrite Hv, Hvi; reflexivity|].
  destruct (Linear_forward_ok (SelfAttention.keys sa) k [m; lk])
    as (yk & Eyk & Syk & _); [rewrite Hk, Hki; reflexivity|].
  destruct (Linear_forward_ok (SelfAttention.queries sa) q [n; lq])
    as (yq & Eyq & Syq & _); [rewrite Hq, Hqi; reflexivity|].
  unfold SelfAttention.forward, SelfAttention.project, shape_at.
  rewrite Hq, Hv, Hk. cbn [nth_error rbind].
  rewrite Eyv, Eyk, Eyq. cbn [rbind].
  rewrite reshape_size_mismatch; [reflexivity | |].
  - repeat constructor; lia.
  - rewrite Syv, Hvo. cbn [map numel fold_right app].
    rewrite !Nat2Z.id, <- HeqH, !Nat.mul_1_r, HHD.
    intros Heq. apply Hmn. symmetry.
    apply Nat.mul_cancel_r in Heq; [exact Heq|]. nia.
Qed.

(** X10: [forward] takes the batch size from [query] alone.  When the
    values and keys come from a batch of another size (and are not
    empty), the split of the values into heads fails and [forward]
    raises a RuntimeError, whatever the mask. *)
Theorem SelfAttention_forward_rejects_batch_mismatch :
  forall (E H : nat) (sa : SelfAttention.t)
         (values keys query : tensor R) (mask : option mask_t)
         (memory_batch batch key_len query_len : nat),
    SelfAttention_valid E H sa ->
    shape values = [memory_batch; key_len; E] ->
    shape keys = [memory_batch; key_len; E] ->
    shape query = [batch; query_len; E] ->
    memory_batch <> batch -> 0 < key_len -> 0 < E ->
    SelfAttention.forward sa values keys query mask = Err RuntimeError.
Proof.
  intros E H sa v k q mask m n lk lq Hvalid Hv Hk Hq Hmn Hlk HE.
  exact (attention_batch_mismatch E H sa v k q mask m n lk lq
           Hvalid Hv Hk Hq Hmn Hlk HE).
Qed.

Lemma SelfAttention_forward_rejects_batch_mismatch_witness :
  SelfAttention.forward demo_attention demo_memory demo_memory two_queries
                        None = Err RuntimeError.
Proof.
  apply (SelfAttention_forward_rejects_batch_mismatch 2 1 demo_attention
           demo_memory demo_memory two_queries None 1 2 3 2
           demo_attention_valid eq_refl eq_refl eq_refl); lia.
Defined.

(** X11: [forward] never compares [value_len] with [key_len]; the
    weighted sum over the key index does.  When the two lengths differ
    and neither is 1, the probabilities are computed and then
    [forward] raises a RuntimeError. *)
Theorem SelfAttention_forward_rejects_length_mismatch :
  forall (E H : nat) (sa : SelfAttention.t)
         (values keys query : tensor R) (mask : option mask_t)
         (batch value_len key_len query_len : nat),
    SelfAttention_valid E H sa ->
    shape values = [batch; value_len; E] ->
    shape keys = [batch; key_len; E] ->
    shape query = [batch; query_len; E] ->
    mask_fits mask [batch; H; query_len; key_len] ->
    value_len <> key_len -> value_len <> 1 -> key_len <> 1 ->
    is_ok (SelfAttention.probabilities sa values keys query mask) = true
    /\ SelfAttention.forward sa values keys query mask = Err RuntimeError.
Proof.
  intros E H sa v k q mask n lv lk lq Hvalid Hv Hk Hq Hm Hne Hv1 Hk1.
  destruct (probabilities_ok E H sa Hvalid v k q mask n lv lk lq Hv Hk Hq Hm)
    as (yk & yq & pr & e0 & e & att & _ & _ & Hpr & HN & HL & Sv4
        & _ & _ & He & _ & _ & _ & Hatt & Hprob & Hsatt & _).
  split; [rewrite Hprob; reflexivity|].
  unfold SelfAttention.forward. rewrite Hpr. cbn [rbind].
  rewrite He. cbn [rbind]. rewrite Hatt. cbn [rbind].
  unfold SelfAttention.output, einsum_nhql_nlhd_nqhd.
  rewrite Hsatt, Sv4, !edim_refl. cbn [rbind].
  unfold edim, bdim.
  destruct (Nat.eqb_spec lk lv); [congruence|].
  destruct (Nat.eqb_spec lk 1); [congruence|].
  destruct (Nat.eqb_spec lv 1); [congruence|].
  reflexivity.
Qed.

Lemma SelfAttention_forward_rejects_length_mismatch_witness :
  is_ok (SelfAttention.probabilities demo_attention demo_memory demo_query
                                     demo_query None) = true
  /\ SelfAttention.forward demo_attention demo_memory demo_query demo_query
                           None = Err RuntimeError.
Proof.
  apply (SelfAttention_forward_rejects_length_mismatch 2 1 demo_attention
           demo_memory demo_query demo_query None 1 3 2 2
           demo_attention_valid eq_refl eq_refl eq_refl I); lia.
Defined.

(** X12: a source batch and a target batch of different sizes, with a
    source padding id in the signed 64-bit range.  The encoder runs, the first decoder layer attends over the target, and
    its cross-attention, which takes the batch size from the target
    side, fails to split the encoder output into heads: [forward] raises
    a RuntimeError.  (A decoder without layers never reads the encoder
    output.) *)
Theorem Transformer_forward_rejects_batch_mismatch :
  forall (E H Vsrc Vtrg max_length : nat) (m : Transformer.t)
         (src trg : tensor Z) (src_batch trg_batch S T : nat) (g : rng),
    Transformer_valid E H Vsrc Vtrg max_length m ->
    int64 (Transformer.src_pad_idx m) ->
    Decoder.layers (Transformer.decoder m) <> [] ->
    shape src = [src_batch; S] -> shape trg = [trg_batch; T] ->
    (forall n t, n < src_batch -> t < S ->
       (0 <= get src [n; t] < Z.of_nat Vsrc)%Z) ->
    (forall n t, n < trg_batch -> t < T ->
       (0 <= get trg [n; t] < Z.of_nat Vtrg)%Z) ->
    S <= max_length -> T <= max_length ->
    src_batch <> trg_batch -> 0 < S -> 0 < E ->
    exists g', Transformer.forward m src trg g = (Err RuntimeError, g').
Proof.
  intros E H Vsrc Vtrg L m src trg Ns Nt S T g [Henc Hdec] Hrange Hlayers
         Hsrc Htrg Hts Htt HS HT Hne HS0 HE0.
  destruct (make_src_mask_ok m src Ns S Hrange Hsrc) as (sm & Hsm & Ssm).
  pose proof (make_trg_mask_eq m trg Nt T Htrg) as Htm.
  set (tm := {| shape := [Nt; 1; T; T];
                get := fun idx => bget (causal T) idx |}) in Htm.
  destruct (Encoder_forward_ok E H Vsrc L (Transformer.encoder m) src
              (Some (MaskBool sm)) Ns S g Henc Hsrc Hts HS)
    as (enc & g1 & Hrun & Senc).
  { cbn [mask_fits mask_eq0 shape]. rewrite Ssm. apply src_mask_fits. }
  destruct Hdec as (HwV & HwE & HpL & HpE & Hall & _).
  destruct (embed_ok (Decoder.word_embedding (Transformer.decoder m))
              (Decoder.position_embedding (Transformer.decoder m))
              (Decoder.dropout (Transformer.decoder m))
              trg E Nt T g1 HwE HpE Htrg) as (y & g2 & Hy & Sy).
  { rewrite HwV. exact Htt. }
  { rewrite HpL. exact HT. }
  destruct (Decoder.layers (Transformer.decoder m)) as [|b rest] eqn:Els;
    [contradiction|].
  pose proof (Forall_inv Hall) as (Hn & Hsa & Htb).
  destruct (SelfAttention_forward_ok E H _ Hsa y y y (Some (MaskFloat tm))
              Nt T T Sy Sy Sy) as (att & Hatt & Satt).
  { cbn [mask_fits mask_eq0 shape]. apply trg_mask_fits. }
  destruct (tadd_same_shape att y) as (s1 & Hs1 & Ss1); [congruence|].
  destruct (LayerNorm_forward_ok (DecoderBlock.norm b) s1 [Nt; T])
    as (nm & Hnm & Snm); [rewrite Ss1, Sy, Hn; reflexivity|].
  destruct (Dropout_forward_ok (DecoderBlock.dropout b) nm g2)
    as (query & g3 & Hquery & Squery).
  assert (Sq : shape query = [Nt; T; E]) by congruence.
  destruct Htb as (Hcross & _).
  pose proof (attention_batch_mismatch E H _ enc enc query
                (Some (MaskBool sm)) Ns Nt S T Hcross Senc Senc Sq
                Hne HS0 HE0) as Hfail.
  exists g3.
  unfold Transformer.forward.
  rewrite (bind_lift_ok _ _ _ _ Hsm), (bind_lift_ok _ _ _ _ Htm).
  rewrite (bind_ok _ Hrun).
  unfold Decoder.forward, Decoder.hidden.
  apply bind_err. rewrite (bind_ok _ Hy). rewrite Els. cbn [foldM].
  apply bind_err. unfold DecoderBlock.forward.
  rewrite (bind_lift_ok _ _ _ _ Hatt), (bind_lift_ok _ _ _ _ Hs1),
    (bind_lift_ok _ _ _ _ Hnm), (bind_ok _ Hquery).
  unfold TransformerBlock.forward.
  apply bind_lift_err. exact Hfail.
Qed.

Lemma Transformer_forward_rejects_batch_mismatch_witness :
  exists g',
    Transformer.forward demo_model src_plain two_targets quiet
    = (Err RuntimeError, g').
Proof.
  apply (Transformer_forward_rejects_batch_mismatch 2 1 4 4 8 demo_model
           src_plain two_targets 1 2 3 3 quiet demo_model_valid
           demo_pad_int64);
    try reflexivity; try lia; try discriminate.
  - intros n t _ _. cbn. lia.
  - intros n t _ _. cbn. lia.
Defined.

(** X14: [__init__] stores any padding id, but an id that fits neither
    a signed nor an unsigned 64-bit integer cannot be compared with a
    tensor of ids: [make_src_mask] raises OverflowError, and [forward],
    whose first statement it is, raises it on every input, before the
    encoder runs and without drawing from the generator. *)
Theorem src_pad_idx_outside_64_bits :
  forall (m : Transformer.t) (src trg : tensor Z) (g : rng),
    (Transformer.src_pad_idx m < -9223372036854775808
     \/ 18446744073709551616 <= Transformer.src_pad_idx m)%Z ->
    Transformer.make_src_mask m src = Err OverflowError
    /\ Transformer.forward m src trg g = (Err OverflowError, g).
Proof.
  intros m src trg g Hout.
  assert (Hmask : Transformer.make_src_mask m src = Err OverflowError).
  { unfold Transformer.make_src_mask, ne_scalar, int64_scalar.
    destruct (Z.leb_spec (-9223372036854775808) (Transformer.src_pad_idx m));
      destruct (Z.ltb_spec (Transformer.src_pad_idx m) 9223372036854775808);
      destruct (Z.leb_spec 9223372036854775808 (Transformer.src_pad_idx m));
      destruct (Z.ltb_spec (Transformer.src_pad_idx m) 18446744073709551616);
      cbn [andb rbind]; try reflexivity; lia. }
  split; [exact Hmask|].
  unfold Transformer.forward. apply bind_lift_err. exact Hmask.
Qed.

Lemma src_pad_idx_outside_64_bits_witness :
  Transformer.make_src_mask huge_pad_model src_plain = Err OverflowError
  /\ Transformer.forward huge_pad_model src_plain trg_plain quiet
     = (Err OverflowError, quiet).
Proof.
  apply (src_pad_idx_outside_64_bits huge_pad_model src_plain trg_plain quiet).
  right. cbn. lia.
Defined.

(** ** The input of the first layer *)

Lemma embed_entries (word position : Embedding.t) (drop : Dropout.t)
    (x : tensor Z) (E N L : nat) (g : rng) :
  Embedding.embedding_dim word = E -> Embedding.embedding_dim position = E ->
  shape x = [N; L] ->
  (forall n l, n < N -> l < L ->
     (0 <= get x [n; l] < Z.of_nat (Embedding.num_embeddings word))%Z) ->
  L <= Embedding.num_embeddings position ->
  dropout_off drop -> rng_valid g ->
  exists y g',
    embed word position drop x g = (Ok y, g')
    /\ shape y = [N; L; E]
    /\ forall n l e, n < N -> l < L -> e < E ->
         get y [n; l; e]
         = (Embedding.weight word (Z.to_nat (get x [n; l])) e
            + Embedding.weight position l e)%R.
Proof.
  intros Hw Hp Hs Htok Hlen Hoff Hg.
  destruct (positions_ok N L) as (pos & Hpos & Spos & Gpos).
  destruct (Embedding_forward_ok word x) as (w & Hwf & Sw).
  { intros idx Hidx. rewrite Hs in Hidx.
    inversion Hidx as [|n0 ? ? ? Hn Hidx1]; subst idx.
    inversion Hidx1 as [|l0 ? ? ? Hl Hidx2]; subst.
    inversion Hidx2; subst. apply Htok; assumption. }
  destruct (Embedding_forward_ok position pos) as (p & Hpf & Sp).
  { intros idx Hidx. rewrite Spos in Hidx.
    inversion Hidx as [|n0 ? ? ? Hn Hidx1]; subst idx.
    inversion Hidx1 as [|l0 ? ? ? Hl Hidx2]; subst.
    inversion Hidx2; subst. rewrite Gpos by assumption. lia. }
  assert (Gw : forall idx,
             get w idx = Embedding.weight word
                           (Z.to_nat (get x (removelast idx)))
                           (last idx 0%nat)).
  { unfold Embedding.forward in Hwf.
    destruct (forallb _ _); [|discriminate]. inversion Hwf. reflexivity. }
  assert (Gp : forall idx,
             get p idx = Embedding.weight position
                           (Z.to_nat (get pos (removelast idx)))
                           (last idx 0%nat)).
  { unfold Embedding.forward in Hpf.
    destruct (forallb _ _); [|discriminate]. inversion Hpf. reflexivity. }
  destruct (tadd_same_shape w p) as (s & Hsum & Ss).
  { rewrite Sw, Sp, Hs, Spos, Hw, Hp. reflexivity. }
  assert (Gs : forall idx, get s idx = (bget w idx + bget p idx)%R).
  { unfold tadd in Hsum.
    destruct (broadcast_shapes _ _); [|discriminate].
    inversion Hsum. reflexivity. }
  pose proof (Dropout_forward_off drop s g Hoff Hg) as Hd.
  destruct (Dropout.forward drop s g) as [r g'] eqn:Hrun.
  cbn [fst] in Hd. rewrite Hd in Hrun.
  eexists. exists g'. split.
  { unfold embed, shape2. rewrite Hs.
    rewrite (bind_lift_ok _ _ (N, L) _ eq_refl).
    rewrite (bind_lift_ok _ _ _ _ Hpos), (bind_lift_ok _ _ _ _ Hwf),
      (bind_lift_ok _ _ _ _ Hpf), (bind_lift_ok _ _ _ _ Hsum).
    exact Hrun. }
  assert (Ss3 : shape s = [N; L; E]).
  { rewrite Ss, Sp, Spos, Hp. reflexivity. }
  split.
  { destruct (Dropout.training drop); cbn [shape]; exact Ss3. }
  intros n l e Hn Hl He.
  assert (Hget : get (if Dropout.training drop
                      then {| shape := shape s; get := fun idx => get s idx |}
                      else s) [n; l; e] = get s [n; l; e])
    by (destruct (Dropout.training drop); reflexivity).
  rewrite Hget, Gs.
  rewrite !bget_in_range.
  - rewrite Gw, Gp. cbn [removelast last].
    rewrite Gpos by assumption. rewrite Nat2Z.id. reflexivity.
  - rewrite Sp, Spos, Hp. repeat constructor; assumption.
  - rewrite Sw, Hs, Hw. repeat constructor; assumption.
Qed.

(** X13: what the layers of the encoder and of the decoder are fed.
    [Encoder.forward] and [Decoder.forward] start with the same lines:
    when the dropout probability is 0, the entry (n, t, e) of the tensor
    handed to the first layer is row [x[n, t]] of the word table plus
    row [t] of the position table, at column [e].  The position row is
    the same for every sentence of the batch and is added at padding
    tokens too. *)
Theorem first_layer_input_is_word_plus_position :
  forall (word position : Embedding.t) (drop : Dropout.t)
         (x : tensor Z) (E N L : nat) (g : rng),
    Embedding.embedding_dim word = E ->
    Embedding.embedding_dim position = E ->
    shape x = [N; L] ->
    (forall n l, n < N -> l < L ->
       (0 <= get x [n; l] < Z.of_nat (Embedding.num_embeddings word))%Z) ->
    L <= Embedding.num_embeddings position ->
    dropout_off drop -> rng_valid g ->
    exists y g',
      shape y = [N; L; E]
      /\ (forall n l e, n < N -> l < L -> e < E ->
            get y [n; l; e]
            = (Embedding.weight word (Z.to_nat (get x [n; l])) e
               + Embedding.weight position l e)%R)
      /\ (forall (embed_size : Z) (layers : list TransformerBlock.t)
                 (mask : option mask_t),
            Encoder.forward (Encoder.mk embed_size word position layers drop)
                            x mask g
            = foldM (fun layer out =>
                       TransformerBlock.forward layer out out out mask)
                    layers y g')
      /\ (forall (layers : list DecoderBlock.t) (fc_out : Linear.t)
                 (enc_out : tensor R) (src_mask trg_mask : option mask_t),
            Decoder.hidden (Decoder.mk word position layers fc_out drop)
                           x enc_out src_mask trg_mask g
            = foldM (fun layer h =>
                       DecoderBlock.forward layer h enc_out enc_out
                                            src_mask trg_mask)
                    layers y g').
Proof.
  intros word position drop x E N L g Hw Hp Hs Htok Hlen Hoff Hg.
  destruct (embed_entries word position drop x E N L g Hw Hp Hs Htok Hlen
              Hoff Hg) as (y & g' & Hy & Sy & Gy).
  exists y, g'. split; [exact Sy|]. split; [exact Gy|]. split.
  - intros es layers mask. unfold Encoder.forward.
    cbn [Encoder.word_embedding Encoder.position_embedding Encoder.dropout
         Encoder.layers].
    rewrite (bind_ok _ Hy). reflexivity.
  - intros layers fc enc_out sm tm. unfold Decoder.hidden.
    cbn [Decoder.word_embedding Decoder.position_embedding Decoder.dropout
         Decoder.layers].
    rewrite (bind_ok _ Hy). reflexivity.
Qed.

Lemma first_layer_input_is_word_plus_position_witness :
  exists y g',
    shape y = [1; 3; 2]
    /\ (forall n l e, n < 1 -> l < 3 -> e < 2 ->
          get y [n; l; e]
          = (Embedding.weight demo_words (Z.to_nat (get trg_padded [n; l])) e
             + Embedding.weight demo_positions l e)%R)
    /\ Encoder.forward demo_encoder trg_padded None quiet
       = foldM (fun layer out =>
                  TransformerBlock.forward layer out out out None)
               [demo_block] y g'.
Proof.
  destruct (first_layer_input_is_word_plus_position demo_words demo_positions
              demo_dropout trg_padded 2 1 3 quiet eq_refl eq_refl eq_refl)
    as (y & g' & Sy & Gy & Henc & _).
  - intros n l _ _. cbn.
    destruct l as [|[|[|l]]]; cbn; lia.
  - cbn. lia.
  - reflexivity.
  - intros k. unfold quiet. lra.
  - exists y, g'. split; [exact Sy|]. split; [exact Gy|].
    exact (Henc 2%Z [demo_block] None).
Defined.
